(** * Weather Informer: forecast aggregation and search-input validation

    A shallow embedding of [src/services/weatherService.ts] and
    [src/utils/validation.ts], with the properties of the aggregation
    pipeline and of the input classifier proved over it; and of what lies
    around them: the state of [src/context/WeatherContext.tsx], the form
    of [src/components/SearchBar.tsx], the theme of [src/utils/theme.ts]
    and the proxy of [api/weather.ts].

    Layout:
    - [JS]: the part of the ECMAScript host the two files rely on
      (abrupt completions, strings, numbers, [Date], [Map],
      [Array.prototype.sort], regular expressions);
    - one module per interface of [src/types];
    - [Validation]: [validateSearchInput] and [formatApiQuery];
    - [WeatherService]: [transformForecastData], [transformHourlyItem] and
      the formatting helpers;
    - [Notions] and [Examples]: what the statements speak of, and sample
      data;
    - [Strings], [Theme], [Http], [Typed], [Proxy], [WeatherClient],
      [WeatherContext], [SearchBar], [Deployment], [Calendar]: the rest
      of the application, from the search box through the proxy of
      [api/weather.ts] to the theme of [src/utils/theme.ts], with the
      notions their statements need, and [Samples];
    - [HostFacts], [WeatherFacts], [RegexFacts], [ValidationFacts]: lemmas;
    - [Aggregator] and [Classifier]: the properties of the two units;
    - [SearchInput], [ThemeFacts], [ContextFacts], [JsonFacts],
      [ProxyFacts], [Journey], [SearchBarFacts], [ForecastFacts],
      [DateFacts], [KeyOrder]: further properties, with the lemmas they
      rest on. *)

From Stdlib Require Import Ascii String.
From Stdlib Require Import ZArith NArith QArith Qround Bool List Lia Sorted.
From Stdlib Require Import Permutation.
Import ListNotations.

Set Implicit Arguments.
Local Open Scope Z_scope.

(* ===================================================================== *)
(** * The host: the fragment of ECMAScript used by the sources            *)
(* ===================================================================== *)

Module JS.

(** ** Abrupt completions

    The only exception either file can raise is the [TypeError] of a
    property read on [undefined] (for instance [item.weather[0].main] when
    [item.weather] is empty). *)

Inductive JsError : Type := TypeError.

Inductive Completion (A : Type) : Type :=
| Normal (a : A)
| Throw (e : JsError).

Arguments Normal {A} a.
Arguments Throw {A} e.

Definition bind {A B : Type} (c : Completion A) (k : A -> Completion B)
  : Completion B :=
  match c with
  | Normal a => k a
  | Throw e => Throw e
  end.

(** Reading a property of a possibly [undefined] value. *)
Definition defined {A : Type} (o : option A) : Completion A :=
  match o with
  | Some a => Normal a
  | None => Throw TypeError
  end.

(** [xs.map(f)] for a callback that may throw: elements are visited from
    the left and the first exception aborts the traversal. *)
Fixpoint Array_map {A B : Type} (f : A -> Completion B) (xs : list A)
  : Completion (list B) :=
  match xs with
  | [] => Normal []
  | x :: tl =>
      bind (f x) (fun y => bind (Array_map f tl) (fun ys => Normal (y :: ys)))
  end.

(** ** Strings

    A string is its sequence of UTF-16 code units. *)

Definition jsstring : Type := list N.

Definition str (s : string) : jsstring :=
  map N_of_ascii (list_ascii_of_string s).

Definition jsstring_dec : forall a b : jsstring, {a = b} + {a <> b} :=
  list_eq_dec N.eq_dec.

Definition String_eqb (a b : jsstring) : bool :=
  if jsstring_dec a b then true else false.

(** The relational operators on strings compare code units
    lexicographically; a proper prefix is smaller. *)
Definition String_compare : jsstring -> jsstring -> comparison :=
  list_compare N.compare.

Definition String_ltb (a b : jsstring) : bool :=
  match String_compare a b with Lt => true | _ => false end.

Definition String_gtb (a b : jsstring) : bool := String_ltb b a.

(** WhiteSpace and LineTerminator code points: what [trim] strips and what
    [\s] matches. *)
Definition isLineTerminator (c : N) : bool :=
  ((c =? 10) || (c =? 13) || (c =? 8232) || (c =? 8233))%N.

Definition isWhiteSpace (c : N) : bool :=
  ((c =? 9) || (c =? 11) || (c =? 12) || (c =? 32) || (c =? 160)
   || (c =? 5760) || ((8192 <=? c) && (c <=? 8202)) || (c =? 8239)
   || (c =? 8287) || (c =? 12288) || (c =? 65279))%N
  || isLineTerminator c.

Fixpoint String_trimStart (s : jsstring) : jsstring :=
  match s with
  | c :: tl => if isWhiteSpace c then String_trimStart tl else s
  | [] => []
  end.

Definition String_trimEnd (s : jsstring) : jsstring :=
  rev (String_trimStart (rev s)).

Definition String_trim (s : jsstring) : jsstring :=
  String_trimEnd (String_trimStart s).

Fixpoint String_startsWith (s p : jsstring) : bool :=
  match p, s with
  | [], _ => true
  | a :: p', b :: s' => (a =? b)%N && String_startsWith s' p'
  | _ :: _, [] => false
  end.

Fixpoint String_includes (s sub : jsstring) : bool :=
  String_startsWith s sub
  || match s with
     | [] => false
     | _ :: tl => String_includes tl sub
     end.

(** [s.replace(pat, rep)] with a string pattern: the first occurrence only. *)
Fixpoint String_replace (s pat rep : jsstring) : jsstring :=
  if String_startsWith s pat then rep ++ skipn (length pat) s
  else match s with
       | [] => []
       | c :: tl => c :: String_replace tl pat rep
       end.

Definition String_padStart (s : jsstring) (maxLength : nat) (fill : jsstring)
  : jsstring :=
  if (maxLength <=? length s)%nat then s
  else match fill with
       | [] => s
       | _ =>
           let fillLen := (maxLength - length s)%nat in
           firstn fillLen (concat (repeat fill fillLen)) ++ s
       end.

(** ** Numbers

    A finite Number is the rational it denotes.  [NaN] and the infinities
    are not values of the model: the sources only produce them on paths
    that throw (see [Math_max]).  The result of an arithmetic operation is
    rounded to a Number by the host's [fl]; rounding to an integer,
    comparing and selecting are exact. *)

Definition Math_round (x : Q) : Q := inject_Z (Qfloor (x + (1 # 2))%Q).

Definition isInteger (x : Q) : bool := Qeq_bool x (inject_Z (Qfloor x)).

Definition max2 (a b : Q) : Q := if Qle_bool a b then b else a.
Definition min2 (a b : Q) : Q := if Qle_bool a b then a else b.

(** [Math.max(...xs)]; [None] stands for the [-Infinity] of an empty
    argument list. *)
Definition Math_max (xs : list Q) : option Q :=
  match xs with
  | [] => None
  | x :: tl => Some (fold_left max2 tl x)
  end.

(** [Math.min(...xs)]; [None] stands for [+Infinity]. *)
Definition Math_min (xs : list Q) : option Q :=
  match xs with
  | [] => None
  | x :: tl => Some (fold_left min2 tl x)
  end.

(** Integers as decimal strings ([String(n)] and template literals). *)
Fixpoint uint_units (d : Decimal.uint) : jsstring :=
  match d with
  | Decimal.Nil => []
  | Decimal.D0 d => 48%N :: uint_units d
  | Decimal.D1 d => 49%N :: uint_units d
  | Decimal.D2 d => 50%N :: uint_units d
  | Decimal.D3 d => 51%N :: uint_units d
  | Decimal.D4 d => 52%N :: uint_units d
  | Decimal.D5 d => 53%N :: uint_units d
  | Decimal.D6 d => 54%N :: uint_units d
  | Decimal.D7 d => 55%N :: uint_units d
  | Decimal.D8 d => 56%N :: uint_units d
  | Decimal.D9 d => 57%N :: uint_units d
  end.

Definition Z_toString (z : Z) : jsstring :=
  match z with
  | Z0 => str "0"
  | Zpos p => uint_units (Pos.to_uint p)
  | Zneg p => 45%N :: uint_units (Pos.to_uint p)
  end.

(** A date field is an integer, or [NaN] ([None]) on an invalid date. *)
Definition Number_toString (n : option Z) : jsstring :=
  match n with
  | Some z => Z_toString z
  | None => str "NaN"
  end.

(** ** The host environment *)

Record Host : Type := {
  (** the time value of [new Date()], in milliseconds since the epoch;
      one call of the sources is taken to happen at one instant *)
  currentTime : Z;
  (** [LocalTZA(t, isUTC)]: the offset of local time, in milliseconds *)
  LocalTZA : Z -> bool -> Z;
  (** rounding of an exact arithmetic result to a Number *)
  fl : Q -> Q;
  (** what the locale puts between the minutes and the day period *)
  dayPeriodSeparator : jsstring
}.

(** ** Dates *)

Definition msPerDay : Z := 86400000.

Definition Day (t : Z) : Z := t / msPerDay.

(** Year, month (1..12) and day of month of a day number, in the
    proleptic Gregorian calendar. *)
Definition civil_from_days (z0 : Z) : Z * Z * Z :=
  let z := z0 + 719468 in
  let era := z / 146097 in
  let doe := z - era * 146097 in
  let yoe := (doe - doe / 1460 + doe / 36524 - doe / 146096) / 365 in
  let doy := doe - (365 * yoe + yoe / 4 - yoe / 100) in
  let mp := (5 * doy + 2) / 153 in
  let d := doy - (153 * mp + 2) / 5 + 1 in
  let m := if mp <? 10 then mp + 3 else mp - 9 in
  let y := yoe + era * 400 in
  ((if m <=? 2 then y + 1 else y), m, d).

(** [MakeDay]: the day number of a year, month (1..12) and day of month. *)
Definition days_from_civil (y0 m d : Z) : Z :=
  let y := if m <=? 2 then y0 - 1 else y0 in
  let era := y / 400 in
  let yoe := y - era * 400 in
  let doy := (153 * (if 2 <? m then m - 3 else m + 9) + 2) / 5 + d - 1 in
  let doe := yoe * 365 + yoe / 4 - yoe / 100 + doy in
  era * 146097 + doe - 719468.

Definition YearFromTime (t : Z) : Z := fst (fst (civil_from_days (Day t))).
(** Months are numbered from 0, as [getMonth] reports them. *)
Definition MonthFromTime (t : Z) : Z := snd (fst (civil_from_days (Day t))) - 1.
Definition DateFromTime (t : Z) : Z := snd (civil_from_days (Day t)).
Definition WeekDay (t : Z) : Z := (Day t + 4) mod 7.
Definition HourFromTime (t : Z) : Z := (t / 3600000) mod 24.
Definition MinFromTime (t : Z) : Z := (t / 60000) mod 60.

Definition LocalTime (h : Host) (t : Z) : Z := t + LocalTZA h t true.
Definition UTC (h : Host) (t : Z) : Z := t - LocalTZA h t false.

(** A [Date] object is its time value; [None] is the invalid date. *)
Definition Date : Type := option Z.

Definition TimeClip (t : Z) : Date :=
  if Z.abs t <=? 8640000000000000 then Some t else None.

(** [new Date()] *)
Definition Date_now (h : Host) : Date := Some (currentTime h).

(** [new Date(value)] for a numeric time value *)
Definition Date_ofValue (v : Z) : Date := TimeClip v.

Definition getFullYear (h : Host) (d : Date) : option Z :=
  option_map (fun t => YearFromTime (LocalTime h t)) d.
Definition getMonth (h : Host) (d : Date) : option Z :=
  option_map (fun t => MonthFromTime (LocalTime h t)) d.
Definition getDate (h : Host) (d : Date) : option Z :=
  option_map (fun t => DateFromTime (LocalTime h t)) d.

(** Date-time strings.  The forms [YYYY-MM-DDTHH:mm:ss] and
    [YYYY-MM-DDTHH:mm] are read, as local time; the hour 24 stands for
    the midnight that ends the day and goes with zero minutes and seconds
    only.  A day of the month up to 31 is taken in any month and carried
    over into the next.  Every other string gives the invalid date here;
    an engine reads further forms (a date alone, a fraction of a second,
    an offset from UTC), which the sources do not build. *)
Definition digit (c : N) : option Z :=
  if ((48 <=? c) && (c <=? 57))%N then Some (Z.of_N c - 48) else None.

Definition digits2 (a b : N) : option Z :=
  match digit a, digit b with
  | Some x, Some y => Some (10 * x + y)
  | _, _ => None
  end.

Definition digits4 (a b c d : N) : option Z :=
  match digits2 a b, digits2 c d with
  | Some x, Some y => Some (100 * x + y)
  | _, _ => None
  end.

Definition Date_parse (h : Host) (s : jsstring) : Date :=
  match s with
  | [y1; y2; y3; y4; 45; m1; m2; 45; d1; d2; 84; h1; h2; 58; n1; n2; 58; s1; s2]%N =>
      match digits4 y1 y2 y3 y4, digits2 m1 m2, digits2 d1 d2,
            digits2 h1 h2, digits2 n1 n2, digits2 s1 s2 with
      | Some y, Some m, Some d, Some hh, Some mm, Some ss =>
          if (1 <=? m) && (m <=? 12) && (1 <=? d) && (d <=? 31)
             && (hh <=? 23) && (mm <=? 59) && (ss <=? 59)
          then TimeClip (UTC h (days_from_civil y m d * msPerDay
                                + hh * 3600000 + mm * 60000 + ss * 1000))
          else if (1 <=? m) && (m <=? 12) && (1 <=? d) && (d <=? 31)
                  && (hh =? 24) && (mm =? 0) && (ss =? 0)
          then TimeClip (UTC h (days_from_civil y m d * msPerDay
                                + 24 * 3600000))
          else None
      | _, _, _, _, _, _ => None
      end
  | [y1; y2; y3; y4; 45; m1; m2; 45; d1; d2; 84; h1; h2; 58; n1; n2]%N =>
      match digits4 y1 y2 y3 y4, digits2 m1 m2, digits2 d1 d2,
            digits2 h1 h2, digits2 n1 n2 with
      | Some y, Some m, Some d, Some hh, Some mm =>
          if (1 <=? m) && (m <=? 12) && (1 <=? d) && (d <=? 31)
             && (hh <=? 23) && (mm <=? 59)
          then TimeClip (UTC h (days_from_civil y m d * msPerDay
                                + hh * 3600000 + mm * 60000))
          else if (1 <=? m) && (m <=? 12) && (1 <=? d) && (d <=? 31)
                  && (hh =? 24) && (mm =? 0)
          then TimeClip (UTC h (days_from_civil y m d * msPerDay
                                + 24 * 3600000))
          else None
      | _, _, _, _, _ => None
      end
  | _ => None
  end.

Definition weekdayName (w : Z) : jsstring :=
  match w with
  | 0 => str "Sunday"
  | 1 => str "Monday"
  | 2 => str "Tuesday"
  | 3 => str "Wednesday"
  | 4 => str "Thursday"
  | 5 => str "Friday"
  | _ => str "Saturday"
  end.

(** [d.toLocaleDateString('en-US', { weekday: 'long' })] *)
Definition toLocaleDateString_weekday (h : Host) (d : Date) : jsstring :=
  match d with
  | Some t => weekdayName (WeekDay (LocalTime h t))
  | None => str "Invalid Date"
  end.

(** [d.toLocaleTimeString('en-US',
      { hour: 'numeric', minute: '2-digit', hour12: true })] *)
Definition toLocaleTimeString_hm12 (h : Host) (d : Date) : jsstring :=
  match d with
  | Some t =>
      let hh := HourFromTime (LocalTime h t) in
      let mm := MinFromTime (LocalTime h t) in
      let h12 := if hh mod 12 =? 0 then 12 else hh mod 12 in
      Z_toString h12 ++ str ":" ++ String_padStart (Z_toString mm) 2 (str "0")
        ++ dayPeriodSeparator h ++ (if hh <? 12 then str "AM" else str "PM")
  | None => str "Invalid Date"
  end.

(** ** [Map] with string keys

    A [Map] remembers the order in which its keys were first inserted:
    an association list, with [set] overwriting in place. *)

Definition Map (V : Type) : Type := list (jsstring * V).

Fixpoint Map_get {V : Type} (m : Map V) (k : jsstring) : option V :=
  match m with
  | [] => None
  | (k', v) :: tl => if String_eqb k' k then Some v else Map_get tl k
  end.

Fixpoint Map_set {V : Type} (m : Map V) (k : jsstring) (v : V) : Map V :=
  match m with
  | [] => [(k, v)]
  | (k', v') :: tl =>
      if String_eqb k' k then (k', v) :: tl else (k', v') :: Map_set tl k v
  end.

Definition Map_keys {V : Type} (m : Map V) : list jsstring := map fst m.

(** ** [Array.prototype.sort] without a comparator

    Elements are ordered by [<] on their string values and the sort is
    stable; insertion from the right end is one such sort. *)

Fixpoint sort_insert (x : jsstring) (l : list jsstring) : list jsstring :=
  match l with
  | [] => [x]
  | y :: tl => if String_ltb y x then y :: sort_insert x tl else x :: l
  end.

Definition Array_sort (l : list jsstring) : list jsstring :=
  fold_right sort_insert [] l.

(** ** Regular expressions

    The patterns of the sources use assertions, character sets, sequence,
    greedy quantifiers and capturing groups, without flags.  Matching
    follows the backtracking semantics of the language definition: a
    pattern denotes a matcher taking the current state and a continuation. *)

Inductive regex : Type :=
| Empty
| AssertStart                                (* ^ *)
| AssertEnd                                  (* $ *)
| CharSet (p : N -> bool)                    (* an atom matching one unit *)
| Seq (r1 r2 : regex)
| Quant (r : regex) (min : nat) (max : option nat)   (* greedy r{min,max} *)
| Group (n : nat) (r : regex).               (* n-th capturing group *)

Record MatchState : Type := {
  endIndex : nat;                      (* units consumed so far *)
  rest : jsstring;                     (* the input from [endIndex] on *)
  captures : list (nat * jsstring)     (* most recent capture first *)
}.

Definition Continuation : Type := MatchState -> option MatchState.
Definition Matcher : Type := MatchState -> Continuation -> option MatchState.

(** [RepeatMatcher(m, min, max, greedy = true, x, c)].  An iteration that
    consumes nothing once [min] is reached is rejected, so [fuel] bounds
    the iterations without changing the result when it is at least
    [min + length (rest x) + 1], or [max + 1].  The captures of groups
    inside the repeated pattern are not cleared between iterations; the
    patterns of the sources repeat a group at most once. *)
Fixpoint RepeatMatcher (fuel : nat) (m : Matcher) (min : nat)
    (max : option nat) (x : MatchState) (c : Continuation)
  : option MatchState :=
  match fuel with
  | O => None
  | S fuel' =>
      match max with
      | Some O => c x
      | _ =>
          let d : Continuation := fun y =>
            if ((min =? 0) && (endIndex y =? endIndex x))%nat then None
            else RepeatMatcher fuel' m (Nat.pred min) (option_map Nat.pred max) y c in
          if (min =? 0)%nat then
            match m x d with
            | Some z => Some z
            | None => c x
            end
          else m x d
      end
  end.

Fixpoint compile (r : regex) : Matcher :=
  match r with
  | Empty => fun x c => c x
  | AssertStart => fun x c => if (endIndex x =? 0)%nat then c x else None
  | AssertEnd => fun x c => match rest x with [] => c x | _ :: _ => None end
  | CharSet p => fun x c =>
      match rest x with
      | ch :: tl =>
          if p ch
          then c {| endIndex := S (endIndex x); rest := tl;
                    captures := captures x |}
          else None
      | [] => None
      end
  | Seq r1 r2 => fun x c => compile r1 x (fun y => compile r2 y c)
  | Quant r1 min max => fun x c =>
      let fuel := match max with
                  | Some n => S n
                  | None => S (min + length (rest x))
                  end in
      RepeatMatcher fuel (compile r1) min max x c
  | Group n r1 => fun x c =>
      compile r1 x (fun y =>
        c {| endIndex := endIndex y; rest := rest y;
             captures :=
               (n, firstn (endIndex y - endIndex x) (rest x)) :: captures y |})
  end.

(** The result array of a successful match: index 0 is the matched
    substring, index [n] the last capture of group [n]. *)
Record MatchResult : Type := {
  matched : jsstring;
  groups : list (nat * jsstring)
}.

Definition MatchResult_get (r : MatchResult) (n : nat) : option jsstring :=
  match n with
  | O => Some (matched r)
  | _ => option_map snd (find (fun g => Nat.eqb (fst g) n) (groups r))
  end.

(** [RegExpBuiltinExec] for a pattern that is neither global nor sticky:
    start positions are tried from the left. *)
Fixpoint exec_from (r : regex) (i : nat) (s : jsstring) : option MatchResult :=
  match compile r {| endIndex := i; rest := s; captures := [] |} Some with
  | Some y =>
      Some {| matched := firstn (endIndex y - i) s; groups := captures y |}
  | None =>
      match s with
      | [] => None
      | _ :: tl => exec_from r (S i) tl
      end
  end.

Definition RegExp_exec (r : regex) (s : jsstring) : option MatchResult :=
  exec_from r 0 s.

Definition RegExp_test (r : regex) (s : jsstring) : bool :=
  match RegExp_exec r s with Some _ => true | None => false end.

(** [s.match(r)], again for a pattern without the global flag *)
Definition String_match (s : jsstring) (r : regex) : option MatchResult :=
  RegExp_exec r s.

(** Character sets *)
Definition isDigit (c : N) : bool := ((48 <=? c) && (c <=? 57))%N.   (* \d *)
Definition isAsciiLetter (c : N) : bool :=                          (* [a-zA-Z] *)
  (((97 <=? c) && (c <=? 122)) || ((65 <=? c) && (c <=? 90)))%N.
Definition isChar (a : N) (c : N) : bool := (c =? a)%N.
Definition notLineTerminator (c : N) : bool := negb (isLineTerminator c). (* . *)

End JS.

Import JS.

Declare Scope js_scope.
Notation "x <- c ;; k" := (bind c (fun x => k))
  (at level 61, c at next level, right associativity) : js_scope.
Local Open Scope js_scope.

(** Sequence of patterns, read left to right like the literal. *)
Definition pattern (rs : list regex) : regex := fold_right Seq Empty rs.

(* ===================================================================== *)
(** * The types of [src/types]                                            *)
(* ===================================================================== *)

(** One module per interface, so that fields keep their names. *)

Module OWMWeatherCondition.
Record t : Type := {
  id : Q;
  main : jsstring;
  description : jsstring;
  icon : jsstring
}.
End OWMWeatherCondition.

Module OWMMainData.
Record t : Type := {
  temp : Q;
  feels_like : Q;
  temp_min : Q;
  temp_max : Q;
  pressure : Q;
  humidity : Q;
  sea_level : option Q;
  grnd_level : option Q
}.
End OWMMainData.

Module OWMWind.
Record t : Type := {
  speed : Q;
  deg : Q;
  gust : option Q
}.
End OWMWind.

Module OWMClouds.
Record t : Type := { all : Q }.
End OWMClouds.

Module OWMForecastItem.
Record t : Type := {
  dt : Z;                               (* Unix timestamp, in seconds *)
  main : OWMMainData.t;
  weather : list OWMWeatherCondition.t;
  clouds : OWMClouds.t;
  wind : OWMWind.t;
  visibility : Q;
  pop : Q;                              (* probability of precipitation *)
  dt_txt : jsstring
}.
End OWMForecastItem.

Module HourlyWeather.
Record t : Type := {
  time : jsstring;
  temp : Q;
  feelsLike : Q;
  humidity : Q;
  windSpeed : Q;
  condition : jsstring;
  description : jsstring;
  icon : jsstring;
  pop : Q
}.
End HourlyWeather.

Module DayForecast.
Record t : Type := {
  date : jsstring;
  dayName : jsstring;
  tempHigh : Q;
  tempLow : Q;
  condition : jsstring;
  description : jsstring;
  icon : jsstring;
  humidity : Q;
  windSpeed : Q;
  hourly : list HourlyWeather.t
}.
End DayForecast.

Inductive InputType : Type := city | zip | invalid.

Module ValidationResult.
Record t : Type := {
  isValid : bool;
  type : InputType;
  sanitized : jsstring
}.
End ValidationResult.

(* ===================================================================== *)
(** * [src/utils/validation.ts]                                           *)
(* ===================================================================== *)

Module Validation.

(** [/^\d{5}$/] *)
Definition ZIP_REGEX : regex :=
  pattern [AssertStart; Quant (CharSet isDigit) 5 (Some 5%nat); AssertEnd].

(** The set [[a-zA-Z\s.\-']] *)
Definition cityNameUnit (c : N) : bool :=
  isAsciiLetter c || isWhiteSpace c || (c =? 46)%N || (c =? 45)%N || (c =? 39)%N.

(** [/^[a-zA-Z][a-zA-Z\s.\-']{0,98}(,\s?[a-zA-Z]{2})?$/] *)
Definition CITY_REGEX : regex :=
  pattern
    [AssertStart;
     CharSet isAsciiLetter;
     Quant (CharSet cityNameUnit) 0 (Some 98%nat);
     Quant (Group 1 (pattern [CharSet (isChar 44);
                              Quant (CharSet isWhiteSpace) 0 (Some 1%nat);
                              Quant (CharSet isAsciiLetter) 2 (Some 2%nat)]))
           0 (Some 1%nat);
     AssertEnd].

Definition validateSearchInput (input : jsstring) : ValidationResult.t :=
  let sanitized := String_trim input in
  if (length sanitized =? 0)%nat then
    {| ValidationResult.isValid := false;
       ValidationResult.type := invalid;
       ValidationResult.sanitized := sanitized |}
  else if RegExp_test ZIP_REGEX sanitized then
    {| ValidationResult.isValid := true;
       ValidationResult.type := zip;
       ValidationResult.sanitized := sanitized |}
  else if RegExp_test CITY_REGEX sanitized then
    {| ValidationResult.isValid := true;
       ValidationResult.type := city;
       ValidationResult.sanitized := sanitized |}
  else
    {| ValidationResult.isValid := false;
       ValidationResult.type := invalid;
       ValidationResult.sanitized := sanitized |}.

(** [/^(.+),\s*([a-zA-Z]{2})$/] *)
Definition cityStatePattern : regex :=
  pattern
    [AssertStart;
     Group 1 (Quant (CharSet notLineTerminator) 1 None);
     CharSet (isChar 44);
     Quant (CharSet isWhiteSpace) 0 None;
     Group 2 (Quant (CharSet isAsciiLetter) 2 (Some 2%nat));
     AssertEnd].

(** The parameter is typed ['city' | 'zip']; at run time every value other
    than ['zip'] takes the city path.  Both groups of the pattern take part
    in every match ([cityStatePattern_groups] below), so the last branch of
    the inner [match] is never taken. *)
Definition formatApiQuery (sanitized : jsstring) (type : InputType) : jsstring :=
  match type with
  | zip => sanitized ++ str ",US"
  | _ =>
      match String_match sanitized cityStatePattern with
      | Some cityStateMatch =>
          match MatchResult_get cityStateMatch 1,
                MatchResult_get cityStateMatch 2 with
          | Some g1, Some g2 => String_trim g1 ++ str "," ++ g2 ++ str ",US"
          | _, _ => sanitized ++ str ",US"
          end
      | None => sanitized ++ str ",US"
      end
  end.

End Validation.

(* ===================================================================== *)
(** * [src/services/weatherService.ts]                                    *)
(* ===================================================================== *)

Module WeatherService.

Section WithHost.

Variable h : Host.

(** [`${d.getFullYear()}-${String(d.getMonth() + 1).padStart(2, '0')}-${String(d.getDate()).padStart(2, '0')}`],
    the template [transformForecastData] writes out twice: for today and
    for the local date of an item. *)
Definition localDateKey (d : Date) : jsstring :=
  Number_toString (getFullYear h d) ++ str "-"
    ++ String_padStart
         (Number_toString (option_map (fun m => m + 1) (getMonth h d))) 2 (str "0")
    ++ str "-"
    ++ String_padStart (Number_toString (getDate h d)) 2 (str "0").

(** [a === b] on date fields: [NaN] equals nothing. *)
Definition Number_strictEq (a b : option Z) : bool :=
  match a, b with
  | Some x, Some y => x =? y
  | _, _ => false
  end.

Definition getDayName (dateStr : jsstring) : jsstring :=
  let date := Date_parse h (dateStr ++ str "T12:00:00") in
  let today := Date_now h in
  if Number_strictEq (getFullYear h date) (getFullYear h today)
     && Number_strictEq (getMonth h date) (getMonth h today)
     && Number_strictEq (getDate h date) (getDate h today)
  then str "Today"
  else toLocaleDateString_weekday h date.

Definition formatTime (dtTxt : jsstring) : jsstring :=
  let date := Date_parse h (String_replace dtTxt (str " ") (str "T")) in
  toLocaleTimeString_hm12 h date.

Definition getWeatherIconUrl (iconCode : jsstring) : jsstring :=
  str "https://openweathermap.org/img/wn/" ++ iconCode ++ str "@2x.png".

(** [item.weather[0]], about to have a property read from it *)
Definition weather0 (item : OWMForecastItem.t)
  : Completion OWMWeatherCondition.t :=
  defined (nth_error (OWMForecastItem.weather item) 0).

Definition transformHourlyItem (item : OWMForecastItem.t)
  : Completion HourlyWeather.t :=
  w <- weather0 item ;;
  Normal
    {| HourlyWeather.time := formatTime (OWMForecastItem.dt_txt item);
       HourlyWeather.temp :=
         Math_round (OWMMainData.temp (OWMForecastItem.main item));
       HourlyWeather.feelsLike :=
         Math_round (OWMMainData.feels_like (OWMForecastItem.main item));
       HourlyWeather.humidity :=
         OWMMainData.humidity (OWMForecastItem.main item);
       HourlyWeather.windSpeed :=
         Math_round (OWMWind.speed (OWMForecastItem.wind item));
       HourlyWeather.condition := OWMWeatherCondition.main w;
       HourlyWeather.description := OWMWeatherCondition.description w;
       HourlyWeather.icon := OWMWeatherCondition.icon w;
       HourlyWeather.pop :=
         Math_round (fl h (OWMForecastItem.pop item * 100)%Q) |}.

(** The local date key of an item: [new Date(item.dt * 1000)] through the
    template. *)
Definition itemDateKey (item : OWMForecastItem.t) : jsstring :=
  let localDate := Date_ofValue (OWMForecastItem.dt item * 1000) in
  localDateKey localDate.

(** One turn of the grouping loop. *)
Definition groupItem (groupedByDate : Map (list OWMForecastItem.t))
    (item : OWMForecastItem.t) : Map (list OWMForecastItem.t) :=
  let dateKey := itemDateKey item in
  let existing := match Map_get groupedByDate dateKey with
                  | Some items => items
                  | None => []
                  end in
  Map_set groupedByDate dateKey (existing ++ [item]).

(** The representative entry of a day:
    [dayItems.find(item => item.dt_txt.includes('12:00:00'))
       || dayItems[Math.floor(dayItems.length / 2)]];
    [None] is [undefined]. *)
Definition midday (dayItems : list OWMForecastItem.t)
  : option OWMForecastItem.t :=
  match find (fun item =>
                String_includes (OWMForecastItem.dt_txt item) (str "12:00:00"))
             dayItems with
  | Some item => Some item
  | None => nth_error dayItems (length dayItems / 2)%nat
  end.

(** [xs.reduce((a, b) => a + b, 0) / xs.length] *)
Definition average (xs : list Q) : Q :=
  fl h (fold_left (fun a b => fl h (a + b)%Q) xs 0%Q
        / inject_Z (Z.of_nat (length xs)))%Q.

(** The body of the day loop: the [DayForecast] pushed for [date].  On an
    empty [dayItems] the extremes are infinite and [midday] is [undefined],
    whose property read throws; the model throws on either. *)
Definition dayForecast (date : jsstring) (dayItems : list OWMForecastItem.t)
  : Completion DayForecast.t :=
  let temps :=
    map (fun item => OWMMainData.temp (OWMForecastItem.main item)) dayItems in
  let humidities :=
    map (fun item => OWMMainData.humidity (OWMForecastItem.main item)) dayItems in
  let winds :=
    map (fun item => OWMWind.speed (OWMForecastItem.wind item)) dayItems in
  hi <- defined (Math_max temps) ;;
  lo <- defined (Math_min temps) ;;
  mid <- defined (midday dayItems) ;;
  w <- weather0 mid ;;
  hourly <- Array_map transformHourlyItem dayItems ;;
  Normal
    {| DayForecast.date := date;
       DayForecast.dayName := getDayName date;
       DayForecast.tempHigh := Math_round hi;
       DayForecast.tempLow := Math_round lo;
       DayForecast.condition := OWMWeatherCondition.main w;
       DayForecast.description := OWMWeatherCondition.description w;
       DayForecast.icon := OWMWeatherCondition.icon w;
       DayForecast.humidity := Math_round (average humidities);
       DayForecast.windSpeed := Math_round (average winds);
       DayForecast.hourly := hourly |}.

(** [for (const date of sortedDates) { if (forecasts.length >= 6) break; ... }] *)
Fixpoint dayLoop (groupedByDate : Map (list OWMForecastItem.t))
    (sortedDates : list jsstring) (forecasts : list DayForecast.t)
  : Completion (list DayForecast.t) :=
  match sortedDates with
  | [] => Normal forecasts
  | date :: more =>
      if (6 <=? length forecasts)%nat then Normal forecasts
      else
        dayItems <- defined (Map_get groupedByDate date) ;;
        f <- dayForecast date dayItems ;;
        dayLoop groupedByDate more (forecasts ++ [f])
  end.

(** Whether today is missing in front:
    [sortedDates.length > 0 && sortedDates[0] > todayStr] *)
Definition todayMissing (sortedDates : list jsstring) (todayStr : jsstring)
  : bool :=
  match sortedDates with
  | [] => false
  | first :: _ => String_gtb first todayStr
  end.

(** In the branch that inserts today, [items[0]] is read; were it
    [undefined] the day loop would throw on the placeholder bucket, which
    the model reports at the read. *)
Definition transformForecastData (items : list OWMForecastItem.t)
  : Completion (list DayForecast.t) :=
  let today := Date_now h in
  let todayStr := localDateKey today in
  let groupedByDate := fold_left groupItem items [] in
  let sortedDates := Array_sort (Map_keys groupedByDate) in
  if todayMissing sortedDates todayStr then
    firstItem <- defined (nth_error items 0) ;;
    dayLoop (Map_set groupedByDate todayStr [firstItem])
            (todayStr :: sortedDates) []
  else
    dayLoop groupedByDate sortedDates [].

End WithHost.

End WeatherService.

(* ===================================================================== *)
(** * Notions used in the statements                                      *)
(* ===================================================================== *)

Module Notions.

Import WeatherService.

Definition String_lt (a b : jsstring) : Prop := String_ltb a b = true.

(** A sample is well formed when it carries a primary condition, as every
    RawSample of the data model does: [item.weather[0]] exists. *)
Definition wellFormed (item : OWMForecastItem.t) : Prop :=
  OWMForecastItem.weather item <> [].

(** What the claims on numbers need of the host's rounding: it is
    monotone and leaves 0 and 100 alone, as rounding to the nearest
    double does. *)
Definition roundsFaithfully (h : Host) : Prop :=
  (forall x y : Q, (x <= y)%Q -> (fl h x <= fl h y)%Q)
  /\ (fl h 0 == 0)%Q
  /\ (fl h 100 == 100)%Q.

Section WithHost.

Variable h : Host.

(** Today's key, and the keys of the samples in input order. *)
Definition todayKey : jsstring := localDateKey h (Date_now h).

Definition dayKeys (items : list OWMForecastItem.t) : list jsstring :=
  map (itemDateKey h) items.

(** The number of distinct local calendar days a list spans. *)
Definition distinctDays (items : list OWMForecastItem.t) : nat :=
  length (nodup jsstring_dec (dayKeys items)).

(** The samples of one day, in input order. *)
Definition bucket (k : jsstring) (items : list OWMForecastItem.t)
  : list OWMForecastItem.t :=
  filter (fun item => String_eqb (itemDateKey h item) k) items.

Definition grouped (items : list OWMForecastItem.t)
  : Map (list OWMForecastItem.t) :=
  fold_left (groupItem h) items [].

Definition sortedKeys (items : list OWMForecastItem.t) : list jsstring :=
  Array_sort (Map_keys (grouped items)).

(** [f] is the forecast of the bucket of [d] in [g]. *)
Definition pushed (g : Map (list OWMForecastItem.t)) (d : jsstring)
    (f : DayForecast.t) : Prop :=
  exists dayItems, Map_get g d = Some dayItems
                   /\ dayForecast h d dayItems = Normal f.

(** The sample stream starts after today: there are samples, and every
    one of them falls on a local day after today's. *)
Definition startsAfterToday (items : list OWMForecastItem.t) : Prop :=
  items <> []
  /\ forall item, In item items -> String_lt todayKey (itemDateKey h item).

(** [out] lists, in ascending order, the [n] smallest distinct keys of
    [keys], or all of them when there are fewer. *)
Definition earliest (n : nat) (keys out : list jsstring) : Prop :=
  StronglySorted String_lt out
  /\ length out = Nat.min n (length (nodup jsstring_dec keys))
  /\ incl out keys
  /\ forall a b, In a out -> In b keys -> ~ In b out -> String_lt a b.

(** The number of distinct local calendar days of [items] that come
    before the day of key [k]. *)
Definition daysBefore (k : jsstring) (items : list OWMForecastItem.t) : nat :=
  length (nodup jsstring_dec
            (filter (fun d => String_ltb d k) (dayKeys items))).

End WithHost.

(** Whether the time string of a sample contains [12:00:00]. *)
Definition atNoon (item : OWMForecastItem.t) : bool :=
  String_includes (OWMForecastItem.dt_txt item) (str "12:00:00").

(** The representative sample of a day as the specification words it: the
    sample whose [dt_txt] contains [12:00:00] (the first one, should there
    be several), and without one the sample at index
    floor(length / 2). *)
Inductive representative (dayItems : list OWMForecastItem.t)
  : OWMForecastItem.t -> Prop :=
| representative_noon (before after : list OWMForecastItem.t)
    (item : OWMForecastItem.t) :
    dayItems = before ++ item :: after ->
    Forall (fun i => atNoon i = false) before ->
    atNoon item = true ->
    representative dayItems item
| representative_middle (item : OWMForecastItem.t) :
    Forall (fun i => atNoon i = false) dayItems ->
    nth_error dayItems (length dayItems / 2) = Some item ->
    representative dayItems item.

(** The two middle elements of a list of even length [2 * (k + 1)] sit at
    the indices [k] and [k + 1]. *)
Definition earlierMiddle (A : Type) (l : list A) : option A :=
  nth_error l (length l / 2 - 1).

Definition laterMiddle (A : Type) (l : list A) : option A :=
  nth_error l (length l / 2).

(** ** Notions for the input classifier *)

(** The state [j] units further on. *)
Definition advance (j : nat) (x : MatchState) : MatchState :=
  {| endIndex := endIndex x + j;
     rest := skipn j (rest x);
     captures := captures x |}.

(** The length of the longest prefix of [s] within the set [p]. *)
Fixpoint run (p : N -> bool) (s : jsstring) : nat :=
  match s with
  | ch :: tl => if p ch then S (run p tl) else O
  | [] => O
  end.

(** The first success of [c] after [lo + n], [lo + n - 1], ..., [lo]
    units: the order in which a greedy quantifier backtracks. *)
Fixpoint firstSome (c : Continuation) (x : MatchState) (lo n : nat)
  : option MatchState :=
  match c (advance (lo + n) x) with
  | Some z => Some z
  | None =>
      match n with
      | O => None
      | S n' => firstSome c x lo n'
      end
  end.

(** How far a greedy quantifier over a set can reach. *)
Definition reach (p : N -> bool) (max : option nat) (s : jsstring) : nat :=
  match max with
  | Some hi => Nat.min hi (run p s)
  | None => run p s
  end.

Definition enoughFuel (fuel min : nat) (max : option nat) (s : jsstring)
  : Prop :=
  match max with
  | Some hi => (min <= hi < fuel)%nat
  | None => (min + length s < fuel)%nat
  end.

(** The tail a city may end with, as the pattern has it: a comma, at most
    one white-space unit, two letters. *)
Definition stateSuffix (s : jsstring) : bool :=
  match s with
  | [c; a; b] => isChar 44 c && isAsciiLetter a && isAsciiLetter b
  | [c; w; a; b] =>
      isChar 44 c && isWhiteSpace w && isAsciiLetter a && isAsciiLetter b
  | _ => false
  end.

Definition isSome (A : Type) (o : option A) : bool :=
  match o with
  | Some _ => true
  | None => false
  end.

(** What [CITY_REGEX] accepts, said without the matcher: a letter, at most
    98 units of the name set, then nothing or a state suffix. *)
Definition cityShape (s : jsstring) : Prop :=
  exists l body suffix,
    s = l :: body ++ suffix
    /\ isAsciiLetter l = true
    /\ forallb Validation.cityNameUnit body = true
    /\ (length body <= 98)%nat
    /\ (suffix = [] \/ stateSuffix suffix = true).

(** The pattern of [formatApiQuery] after its first group: comma, white
    space, second group, end. *)
Definition afterName : list regex :=
  [CharSet (isChar 44);
   Quant (CharSet isWhiteSpace) 0 None;
   Group 2 (Quant (CharSet isAsciiLetter) 2 (Some 2%nat));
   AssertEnd].

(** Every white-space unit of [s] is the plain space U+0020. *)
Definition plainSpaces (s : jsstring) : Prop :=
  forall c, In c s -> isWhiteSpace c = true -> c = 32%N.

(** The classifier as the specification words it.  A city starts with a
    letter, goes on with letters, spaces, periods, hyphens and apostrophes
    up to 99 characters in all, and may end with [, XX] or [,XX]. *)
Definition specNameUnit (c : N) : bool :=
  isAsciiLetter c || (c =? 32)%N || (c =? 46)%N || (c =? 45)%N || (c =? 39)%N.

Definition specName (s : jsstring) : bool :=
  match s with
  | l :: tl =>
      isAsciiLetter l && forallb specNameUnit tl && (length s <=? 99)%nat
  | [] => false
  end.

Definition specSuffix (s : jsstring) : bool :=
  match s with
  | [c; a; b] => (c =? 44)%N && isAsciiLetter a && isAsciiLetter b
  | [c; w; a; b] =>
      (c =? 44)%N && (w =? 32)%N && isAsciiLetter a && isAsciiLetter b
  | _ => false
  end.

(** [s] without, and the last [n] units of [s]. *)
Definition dropLast (n : nat) (s : jsstring) : jsstring :=
  firstn (length s - n) s.
Definition takeLast (n : nat) (s : jsstring) : jsstring :=
  skipn (length s - n) s.

Definition specCity (s : jsstring) : bool :=
  specName s
  || (specName (dropLast 3 s) && specSuffix (takeLast 3 s))
  || (specName (dropLast 4 s) && specSuffix (takeLast 4 s)).

Definition specZip (s : jsstring) : bool :=
  (length s =? 5)%nat && forallb isDigit s.

Definition classify_spec (input : jsstring) : InputType :=
  let trimmed := String_trim input in
  match trimmed with
  | [] => invalid
  | _ :: _ =>
      if specZip trimmed then zip
      else if specCity trimmed then city
      else invalid
  end.

(** The provider query as the specification words it. *)
Definition formatForProvider_spec (sanitized : jsstring) (kind : InputType)
  : jsstring :=
  match kind with
  | zip => sanitized ++ str ",US"
  | _ =>
      if specSuffix (takeLast 4 sanitized) then
        String_trim (dropLast 4 sanitized) ++ str ","
          ++ takeLast 2 sanitized ++ str ",US"
      else if specSuffix (takeLast 3 sanitized) then
        String_trim (dropLast 3 sanitized) ++ str ","
          ++ takeLast 2 sanitized ++ str ",US"
      else sanitized ++ str ",US"
  end.

(** How often [sub] occurs in [s]. *)
Fixpoint occurrences (sub s : jsstring) : nat :=
  (if String_startsWith s sub then 1 else 0)
  + match s with
    | [] => 0
    | _ :: tl => occurrences sub tl
    end.

(** Whether [s] ends with [sub]. *)
Definition String_endsWith (s sub : jsstring) : bool :=
  String_startsWith (rev s) (rev sub).

End Notions.

(* ===================================================================== *)
(** * Sample data                                                         *)
(* ===================================================================== *)

Module Examples.

(** A host on UTC with exact arithmetic, at a given instant. *)
Definition utcHost (now : Z) : Host :=
  {| currentTime := now;
     LocalTZA := fun _ _ => 0;
     fl := fun x => x;
     dayPeriodSeparator := str " " |}.

Definition conditionOf (name : string) : OWMWeatherCondition.t :=
  {| OWMWeatherCondition.id := 800;
     OWMWeatherCondition.main := str name;
     OWMWeatherCondition.description := str name;
     OWMWeatherCondition.icon := str "01d" |}.

Definition sample (dt : Z) (dt_txt : string) (temp : Q) (name : string)
  : OWMForecastItem.t :=
  {| OWMForecastItem.dt := dt;
     OWMForecastItem.main :=
       {| OWMMainData.temp := temp;
          OWMMainData.feels_like := temp;
          OWMMainData.temp_min := temp;
          OWMMainData.temp_max := temp;
          OWMMainData.pressure := 1013;
          OWMMainData.humidity := 55;
          OWMMainData.sea_level := None;
          OWMMainData.grnd_level := None |};
     OWMForecastItem.weather := [conditionOf name];
     OWMForecastItem.clouds := {| OWMClouds.all := 0 |};
     OWMForecastItem.wind :=
       {| OWMWind.speed := 84 # 10; OWMWind.deg := 180; OWMWind.gust := None |};
     OWMForecastItem.visibility := 10000;
     OWMForecastItem.pop := 25 # 100;
     OWMForecastItem.dt_txt := str dt_txt |}.

(** A host six hours behind UTC, with exact arithmetic. *)
Definition centralHost (now : Z) : Host :=
  {| currentTime := now;
     LocalTZA := fun _ _ => -21600000;
     fl := fun x => x;
     dayPeriodSeparator := str " " |}.

(** 15 January 2024 at 08:00 and at 23:30 UTC *)
Definition morning : Host := utcHost 1705305600000.
Definition lateEvening : Host := utcHost 1705361400000.

(** Samples of 15 January 2024 *)
Definition at0900 : OWMForecastItem.t :=
  sample 1705309200 "2024-01-15 09:00:00" (726 # 10) "Clear".
Definition at1200 : OWMForecastItem.t :=
  sample 1705320000 "2024-01-15 12:00:00" 70 "Clouds".
Definition at1500 : OWMForecastItem.t :=
  sample 1705330800 "2024-01-15 15:00:00" 60 "Rain".
Definition at1800 : OWMForecastItem.t :=
  sample 1705341600 "2024-01-15 18:00:00" 58 "Snow".

(** Samples of 16 and 17 January 2024 *)
Definition tomorrow0000 : OWMForecastItem.t :=
  sample 1705363200 "2024-01-16 00:00:00" 50 "Mist".
Definition tomorrow0300 : OWMForecastItem.t :=
  sample 1705374000 "2024-01-16 03:00:00" 49 "Fog".
Definition dayAfter0000 : OWMForecastItem.t :=
  sample 1705449600 "2024-01-17 00:00:00" 47 "Haze".

Definition threeSamples : list OWMForecastItem.t := [at0900; at1200; at1500].

(** A sample of 22 January 2024, followed by one sample for each day
    from the 16th to the 21st. *)
Definition weekAhead : list OWMForecastItem.t :=
  [sample 1705881600 "2024-01-22 00:00:00" 41 "Snow";
   tomorrow0000;
   dayAfter0000;
   sample 1705536000 "2024-01-18 00:00:00" 46 "Clouds";
   sample 1705622400 "2024-01-19 00:00:00" 45 "Rain";
   sample 1705708800 "2024-01-20 00:00:00" 44 "Clear";
   sample 1705795200 "2024-01-21 00:00:00" 43 "Fog"].

(** An item whose [weather] array is empty: not a sample of the data
    model, though an [OWMForecastItem] as typed. *)
Definition withoutCondition : OWMForecastItem.t :=
  {| OWMForecastItem.dt := OWMForecastItem.dt at0900;
     OWMForecastItem.main := OWMForecastItem.main at0900;
     OWMForecastItem.weather := [];
     OWMForecastItem.clouds := OWMForecastItem.clouds at0900;
     OWMForecastItem.wind := OWMForecastItem.wind at0900;
     OWMForecastItem.visibility := OWMForecastItem.visibility at0900;
     OWMForecastItem.pop := OWMForecastItem.pop at0900;
     OWMForecastItem.dt_txt := OWMForecastItem.dt_txt at0900 |}.

(** [New<TAB>York], and [New<LS>York, NY] with a U+2028 line separator *)
Definition newTabYork : jsstring := str "New" ++ [9%N] ++ str "York".
Definition newLineYorkNY : jsstring :=
  str "New" ++ [8232%N] ++ str "York, NY".

(** Extracts the value of a normal completion. *)
Definition valueOf (A : Type) (c : Completion (list A)) : list A :=
  match c with
  | Normal v => v
  | Throw _ => []
  end.

End Examples.

(* ===================================================================== *)
(** * More of the host: strings, arrays, rejections                        *)
(* ===================================================================== *)

Module Strings.

(** A string is falsy when it is empty. *)
Definition truthy (s : jsstring) : bool := negb (length s =? 0)%nat.

(** [xs.includes(x)] on an array of strings *)
Definition Array_includes (xs : list jsstring) (x : jsstring) : bool :=
  existsb (String_eqb x) xs.

(** [parts.join(sep)] *)
Fixpoint Array_join (parts : list jsstring) (sep : jsstring) : jsstring :=
  match parts with
  | [] => []
  | [p] => p
  | p :: more => p ++ sep ++ Array_join more sep
  end.

(** The set [\w] *)
Definition isWordChar (c : N) : bool :=
  isAsciiLetter c || isDigit c || (c =? 95)%N.

(** Surrogate code units; a string is well formed when each leading
    surrogate is followed by a trailing one and no trailing one stands
    alone.  [encodeURIComponent] throws a [URIError] on any other string. *)
Definition isLeadingSurrogate (c : N) : bool := ((55296 <=? c) && (c <=? 56319))%N.
Definition isTrailingSurrogate (c : N) : bool := ((56320 <=? c) && (c <=? 57343))%N.

Fixpoint String_isWellFormed (s : jsstring) : bool :=
  match s with
  | [] => true
  | c :: tl =>
      if isLeadingSurrogate c then
        match tl with
        | d :: tl' => isTrailingSurrogate d && String_isWellFormed tl'
        | [] => false
        end
      else negb (isTrailingSurrogate c) && String_isWellFormed tl
  end.

Definition isSurrogate (c : N) : bool :=
  isLeadingSurrogate c || isTrailingSurrogate c.

(** No white space at the start, and none at either end. *)
Definition startsClean (s : jsstring) : bool :=
  match s with
  | [] => true
  | c :: _ => negb (isWhiteSpace c)
  end.

Definition edgeFree (s : jsstring) : bool :=
  startsClean s && startsClean (rev s).

(** What a promise of the sources is rejected with: an [Error] object
    with its message, or a value that is no [Error].  The errors the
    engine raises itself are [Error] objects whose text is the host's. *)
Inductive EngineError : Type := typeError | syntaxError | uriError.

Inductive Thrown : Type :=
| Error (message : jsstring)
| Native (kind : EngineError)
| notAnError.

Inductive Settled (A : Type) : Type :=
| fulfilled (a : A)
| rejected (e : Thrown).

Arguments fulfilled {A} a.
Arguments rejected {A} e.

(** The numbers a JSON text denotes.  A finite one is the rational it
    stands for; the negative zero of [-0] counts as zero, from which
    nothing that is read of a number here tells it apart.  A literal
    beyond the range of the doubles, such as [1e999], gives an infinity. *)
Inductive JsonNumber : Type :=
| finite (q : Q)
| infinite (negative : bool).

(** JSON values, as [JSON.parse] and [response.json()] give them.  The
    members of an object stand in the order of the text; of two members
    with one name the later one counts. *)
#[local] Unset Elimination Schemes.
Inductive Json : Type :=
| JNull
| JBool (b : bool)
| JNumber (n : JsonNumber)
| JString (s : jsstring)
| JArray (items : list Json)
| JObject (members : list (jsstring * Json)).
#[local] Set Elimination Schemes.

Definition isJString (v : Json) : bool :=
  match v with JString _ => true | _ => false end.

Definition Json_strings (items : list Json) : list jsstring :=
  flat_map (fun v => match v with JString s => [s] | _ => [] end) items.

(** What [||] and [if] make of a value: [null], [false], zero and the
    empty string are falsy. *)
Definition Json_truthy (v : Json) : bool :=
  match v with
  | JNull => false
  | JBool b => b
  | JNumber (finite q) => negb (Qeq_bool q 0)
  | JNumber (infinite _) => true
  | JString s => truthy s
  | JArray _ => true
  | JObject _ => true
  end.

Fixpoint member (members : list (jsstring * Json)) (k : jsstring)
  : option Json :=
  match members with
  | [] => None
  | (name, v) :: more =>
      match member more k with
      | Some later => Some later
      | None => if String_eqb name k then Some v else None
      end
  end.

(** [v.k] on a value that is not [null], for a name [k] that no
    prototype defines ([message], [error], [list], [city], [name] and the
    like): the member of an object, and [undefined] ([None]) on an object
    without it and on every array, string, number and boolean.  It is
    also [v?.k], which is [undefined] on [null]. *)
Definition Json_get (v : Json) (k : jsstring) : option Json :=
  match v with
  | JObject members => member members k
  | _ => None
  end.

(** [JSON.parse(JSON.stringify(v))]: what a value is after it has been
    written by [res.json(v)] and read by [response.json()].  An infinity
    is written as [null]; everything else is read back as it was. *)
Fixpoint Json_reparse (v : Json) : Json :=
  match v with
  | JNumber (infinite _) => JNull
  | JArray items => JArray (map Json_reparse items)
  | JObject members =>
      JObject (map (fun m => match m with
                             | (name, x) => (name, Json_reparse x)
                             end) members)
  | _ => v
  end.

Section ToString.

(** [String(x)] for a finite number [x] *)
Variable numberText : Q -> jsstring.

(** [ToString(v)], as [new Error(v)] and a template literal apply it;
    [None] when it throws a [TypeError].  An array is joined with commas,
    a [null] in it giving the empty string; an object reads
    [[object Object]], unless it has a member [toString] of its own, which
    is no function, so that the conversion finds no primitive and
    throws. *)
Fixpoint Json_toString (v : Json) : option jsstring :=
  match v with
  | JNull => Some (str "null")
  | JBool b => Some (if b then str "true" else str "false")
  | JNumber (finite q) => Some (numberText q)
  | JNumber (infinite negative) =>
      Some (if negative then str "-Infinity" else str "Infinity")
  | JString s => Some s
  | JArray items =>
      (fix join (items : list Json) : option jsstring :=
         match items with
         | [] => Some []
         | x :: more =>
             match match x with
                   | JNull => Some []
                   | _ => Json_toString x
                   end, join more with
             | Some text, Some texts =>
                 Some match more with
                      | [] => text
                      | _ :: _ => text ++ str "," ++ texts
                      end
             | _, _ => None
             end
         end) items
  | JObject members =>
      if existsb (fun m => String_eqb (fst m) (str "toString")) members
      then None
      else Some (str "[object Object]")
  end.

(** [`${x}`] for a member read [x], which may be [undefined] *)
Definition templateText (x : option Json) : option jsstring :=
  match x with
  | Some v => Json_toString v
  | None => Some (str "undefined")
  end.

End ToString.

(** The part of the browser the context relies on.  [None] as the result
    of a call stands for an exception. *)
Record Browser : Type := {
  Store : Type;
  getItem : Store -> jsstring -> option (option jsstring);
  setItem : Store -> jsstring -> jsstring -> option Store;
  JSON_parse : jsstring -> option Json;
  JSON_stringify : list jsstring -> jsstring;
  toLowerCase : jsstring -> jsstring;
  (** the [message] of an error raised by the engine *)
  engineMessage : EngineError -> jsstring
}.

End Strings.

Import Strings.

(** The name and the state of a string that ends with a comma, white
    space and two letters, read from its end.  The name is what stands
    before the last comma; it has to be non-empty and free of line
    terminators. *)
Definition stateSplit (s : jsstring) : option (jsstring * jsstring) :=
  match rev s with
  | b :: a :: before =>
      if isAsciiLetter a && isAsciiLetter b then
        match String_trimStart before with
        | c :: name =>
            if isChar 44 c && negb (length name =? 0)%nat
               && forallb notLineTerminator name
            then Some (rev name, [a; b])
            else None
        | [] => None
        end
      else None
  | _ => None
  end.

(* ===================================================================== *)
(** * More types of [src/types]                                           *)
(* ===================================================================== *)

Module OWMCity.
Record t : Type := {
  name : jsstring;
  country : jsstring
}.
End OWMCity.

Module OWMForecastResponse.
Record t : Type := {
  list : Datatypes.list OWMForecastItem.t;
  city : OWMCity.t
}.
End OWMForecastResponse.

Inductive WeatherCondition : Type :=
| Clear | Clouds | Rain | Drizzle | Thunderstorm | Snow | Mist | Fog | Haze
| Default.

Module ThemeGradient.
Record t : Type := {
  from : jsstring;
  via : option jsstring;
  to : jsstring;
  textColor : jsstring;
  cardBg : jsstring
}.
End ThemeGradient.

(** What a property read on an object literal gives: the value of an own
    property, or a member inherited from [Object.prototype] (a function,
    or the prototype itself for [__proto__]). *)
Inductive Property (V : Type) : Type :=
| own (v : V)
| inherited (name : jsstring).

Arguments own {V} v.
Arguments inherited {V} name.

Module WeatherState.
Record t : Type := {
  forecast : option (list DayForecast.t);
  cityName : jsstring;
  recentSearches : list jsstring;
  loading : bool;
  error : option jsstring;
  currentCondition : Property WeatherCondition;
  selectedDay : option DayForecast.t
}.
End WeatherState.

(* ===================================================================== *)
(** * [src/utils/theme.ts]                                                *)
(* ===================================================================== *)

Module Theme.

(** The string a condition is at run time. *)
Definition WeatherCondition_name (c : WeatherCondition) : jsstring :=
  match c with
  | Clear => str "Clear"
  | Clouds => str "Clouds"
  | Rain => str "Rain"
  | Drizzle => str "Drizzle"
  | Thunderstorm => str "Thunderstorm"
  | Snow => str "Snow"
  | Mist => str "Mist"
  | Fog => str "Fog"
  | Haze => str "Haze"
  | Default => str "Default"
  end.

(** The properties of [Object.prototype]; each is a function, except
    [__proto__], which reads as the prototype: all truthy. *)
Definition ObjectPrototype : list jsstring :=
  [str "constructor"; str "hasOwnProperty"; str "isPrototypeOf";
   str "propertyIsEnumerable"; str "toLocaleString"; str "toString";
   str "valueOf"; str "__proto__"; str "__defineGetter__";
   str "__defineSetter__"; str "__lookupGetter__"; str "__lookupSetter__"].

(** [o[k]] on an object literal [o] *)
Definition Object_get (V : Type) (o : list (jsstring * V)) (k : jsstring)
  : option (Property V) :=
  match Map_get o k with
  | Some v => Some (own v)
  | None =>
      if Array_includes ObjectPrototype k then Some (inherited k) else None
  end.

Definition THEME_MAP (c : WeatherCondition) : ThemeGradient.t :=
  match c with
  | Clear =>
      {| ThemeGradient.from := str "from-orange-400";
         ThemeGradient.via := Some (str "via-amber-300");
         ThemeGradient.to := str "to-yellow-200";
         ThemeGradient.textColor := str "text-amber-900";
         ThemeGradient.cardBg := str "bg-white/30" |}
  | Clouds =>
      {| ThemeGradient.from := str "from-gray-400";
         ThemeGradient.via := Some (str "via-slate-300");
         ThemeGradient.to := str "to-gray-200";
         ThemeGradient.textColor := str "text-gray-800";
         ThemeGradient.cardBg := str "bg-white/40" |}
  | Rain =>
      {| ThemeGradient.from := str "from-slate-600";
         ThemeGradient.via := Some (str "via-blue-gray-500");
         ThemeGradient.to := str "to-gray-400";
         ThemeGradient.textColor := str "text-white";
         ThemeGradient.cardBg := str "bg-white/20" |}
  | Drizzle =>
      {| ThemeGradient.from := str "from-slate-500";
         ThemeGradient.via := Some (str "via-gray-400");
         ThemeGradient.to := str "to-blue-300";
         ThemeGradient.textColor := str "text-white";
         ThemeGradient.cardBg := str "bg-white/25" |}
  | Thunderstorm =>
      {| ThemeGradient.from := str "from-purple-900";
         ThemeGradient.via := Some (str "via-gray-800");
         ThemeGradient.to := str "to-slate-900";
         ThemeGradient.textColor := str "text-white";
         ThemeGradient.cardBg := str "bg-white/15" |}
  | Snow =>
      {| ThemeGradient.from := str "from-blue-100";
         ThemeGradient.via := Some (str "via-white");
         ThemeGradient.to := str "to-blue-200";
         ThemeGradient.textColor := str "text-blue-900";
         ThemeGradient.cardBg := str "bg-white/50" |}
  | Mist =>
      {| ThemeGradient.from := str "from-gray-300";
         ThemeGradient.via := Some (str "via-gray-200");
         ThemeGradient.to := str "to-slate-200";
         ThemeGradient.textColor := str "text-gray-700";
         ThemeGradient.cardBg := str "bg-white/40" |}
  | Fog =>
      {| ThemeGradient.from := str "from-gray-400";
         ThemeGradient.via := Some (str "via-gray-300");
         ThemeGradient.to := str "to-gray-200";
         ThemeGradient.textColor := str "text-gray-800";
         ThemeGradient.cardBg := str "bg-white/40" |}
  | Haze =>
      {| ThemeGradient.from := str "from-yellow-200";
         ThemeGradient.via := Some (str "via-gray-300");
         ThemeGradient.to := str "to-amber-100";
         ThemeGradient.textColor := str "text-gray-800";
         ThemeGradient.cardBg := str "bg-white/35" |}
  | Default =>
      {| ThemeGradient.from := str "from-sky-400";
         ThemeGradient.via := Some (str "via-blue-400");
         ThemeGradient.to := str "to-indigo-500";
         ThemeGradient.textColor := str "text-white";
         ThemeGradient.cardBg := str "bg-white/25" |}
  end.

(** [THEME_MAP[condition] || THEME_MAP.Default].  The parameter is typed
    [WeatherCondition]; at run time it is whatever [mapOWMCondition]
    returned.  An inherited member used as a key is turned into a string
    that names no property, so the read gives [undefined]. *)
Definition getThemeForCondition (condition : Property WeatherCondition)
  : ThemeGradient.t :=
  match condition with
  | own c => THEME_MAP c
  | inherited _ => THEME_MAP Default
  end.

Definition buildGradientClass (theme : ThemeGradient.t) : jsstring :=
  let parts := [str "bg-gradient-to-br"; ThemeGradient.from theme] in
  let parts :=
    match ThemeGradient.via theme with
    | Some via => if truthy via then parts ++ [via] else parts
    | None => parts
    end in
  let parts := parts ++ [ThemeGradient.to theme] in
  Array_join parts (str " ").

Definition directMap : list (jsstring * WeatherCondition) :=
  [(str "Clear", Clear);
   (str "Clouds", Clouds);
   (str "Rain", Rain);
   (str "Drizzle", Drizzle);
   (str "Thunderstorm", Thunderstorm);
   (str "Snow", Snow);
   (str "Mist", Mist);
   (str "Fog", Fog);
   (str "Haze", Haze);
   (str "Smoke", Fog);
   (str "Dust", Haze);
   (str "Sand", Haze);
   (str "Ash", Fog);
   (str "Squall", Thunderstorm);
   (str "Tornado", Thunderstorm)].

(** [directMap[owmCondition] || 'Default']: every value the read can give
    is truthy. *)
Definition mapOWMCondition (owmCondition : jsstring)
  : Property WeatherCondition :=
  match Object_get directMap owmCondition with
  | Some v => v
  | None => own Default
  end.

End Theme.

(* ===================================================================== *)
(** * HTTP between provider, proxy and client                             *)
(* ===================================================================== *)

Module Http.

(** A response as [fetch] resolves with it.  [json] is what
    [response.json()] resolves with, any JSON value; it is [None] when
    the body is no JSON text and [response.json()] rejects. *)
Record Response (B : Type) : Type := {
  status : Z;
  json : option B
}.

(** [response.ok] *)
Definition ok (B : Type) (r : Response B) : bool :=
  (200 <=? status r) && (status r <=? 299).

End Http.

(* ===================================================================== *)
(** * The interfaces of [src/types] among the JSON values                 *)
(* ===================================================================== *)

Module Typed.

(** Which JSON values are values of the interfaces the sources declare
    for the data they receive, and which value each of them is.  A member
    the interface does not name is passed over; a member it marks as
    optional may be missing.  Numbers are finite; the time stamp [dt] is
    a whole number of seconds. *)

Definition number (x : option Json) : option Q :=
  match x with
  | Some (JNumber (finite q)) => Some q
  | _ => None
  end.

Definition optionalNumber (x : option Json) : option (option Q) :=
  match x with
  | None => Some None
  | Some (JNumber (finite q)) => Some (Some q)
  | Some _ => None
  end.

Definition integer (x : option Json) : option Z :=
  match number x with
  | Some q => if isInteger q then Some (Qfloor q) else None
  | None => None
  end.

Definition text (x : option Json) : option jsstring :=
  match x with
  | Some (JString s) => Some s
  | _ => None
  end.

Definition object (A : Type) (read : Json -> option A) (x : option Json)
  : option A :=
  match x with
  | Some v => read v
  | None => None
  end.

Fixpoint array (A : Type) (read : Json -> option A) (items : list Json)
  : option (list A) :=
  match items with
  | [] => Some []
  | v :: more =>
      match read v, array read more with
      | Some a, Some rest => Some (a :: rest)
      | _, _ => None
      end
  end.

Definition arrayOf (A : Type) (read : Json -> option A) (x : option Json)
  : option (list A) :=
  match x with
  | Some (JArray items) => array read items
  | _ => None
  end.

Definition OWMWeatherCondition_ofJson (v : Json)
  : option OWMWeatherCondition.t :=
  match number (Json_get v (str "id")),
        text (Json_get v (str "main")),
        text (Json_get v (str "description")),
        text (Json_get v (str "icon")) with
  | Some id, Some main, Some description, Some icon =>
      Some {| OWMWeatherCondition.id := id;
              OWMWeatherCondition.main := main;
              OWMWeatherCondition.description := description;
              OWMWeatherCondition.icon := icon |}
  | _, _, _, _ => None
  end.

Definition OWMMainData_ofJson (v : Json) : option OWMMainData.t :=
  match number (Json_get v (str "temp")),
        number (Json_get v (str "feels_like")),
        number (Json_get v (str "temp_min")),
        number (Json_get v (str "temp_max")),
        number (Json_get v (str "pressure")),
        number (Json_get v (str "humidity")),
        optionalNumber (Json_get v (str "sea_level")),
        optionalNumber (Json_get v (str "grnd_level")) with
  | Some temp, Some feels_like, Some temp_min, Some temp_max,
    Some pressure, Some humidity, Some sea_level, Some grnd_level =>
      Some {| OWMMainData.temp := temp;
              OWMMainData.feels_like := feels_like;
              OWMMainData.temp_min := temp_min;
              OWMMainData.temp_max := temp_max;
              OWMMainData.pressure := pressure;
              OWMMainData.humidity := humidity;
              OWMMainData.sea_level := sea_level;
              OWMMainData.grnd_level := grnd_level |}
  | _, _, _, _, _, _, _, _ => None
  end.

Definition OWMWind_ofJson (v : Json) : option OWMWind.t :=
  match number (Json_get v (str "speed")),
        number (Json_get v (str "deg")),
        optionalNumber (Json_get v (str "gust")) with
  | Some speed, Some deg, Some gust =>
      Some {| OWMWind.speed := speed;
              OWMWind.deg := deg;
              OWMWind.gust := gust |}
  | _, _, _ => None
  end.

Definition OWMClouds_ofJson (v : Json) : option OWMClouds.t :=
  match number (Json_get v (str "all")) with
  | Some all => Some {| OWMClouds.all := all |}
  | None => None
  end.

Definition OWMForecastItem_ofJson (v : Json) : option OWMForecastItem.t :=
  match integer (Json_get v (str "dt")),
        object OWMMainData_ofJson (Json_get v (str "main")),
        arrayOf OWMWeatherCondition_ofJson (Json_get v (str "weather")),
        object OWMClouds_ofJson (Json_get v (str "clouds")),
        object OWMWind_ofJson (Json_get v (str "wind")),
        number (Json_get v (str "visibility")),
        number (Json_get v (str "pop")),
        text (Json_get v (str "dt_txt")) with
  | Some dt, Some main, Some weather, Some clouds, Some wind,
    Some visibility, Some pop, Some dt_txt =>
      Some {| OWMForecastItem.dt := dt;
              OWMForecastItem.main := main;
              OWMForecastItem.weather := weather;
              OWMForecastItem.clouds := clouds;
              OWMForecastItem.wind := wind;
              OWMForecastItem.visibility := visibility;
              OWMForecastItem.pop := pop;
              OWMForecastItem.dt_txt := dt_txt |}
  | _, _, _, _, _, _, _, _ => None
  end.

Definition OWMCity_ofJson (v : Json) : option OWMCity.t :=
  match text (Json_get v (str "name")),
        text (Json_get v (str "country")) with
  | Some name, Some country =>
      Some {| OWMCity.name := name; OWMCity.country := country |}
  | _, _ => None
  end.

Definition OWMForecastResponse_ofJson (v : Json)
  : option OWMForecastResponse.t :=
  match arrayOf OWMForecastItem_ofJson (Json_get v (str "list")),
        object OWMCity_ofJson (Json_get v (str "city")) with
  | Some items, Some place =>
      Some {| OWMForecastResponse.list := items;
              OWMForecastResponse.city := place |}
  | _, _ => None
  end.

End Typed.

(* ===================================================================== *)
(** * [api/weather.ts]                                                    *)
(* ===================================================================== *)

Module Proxy.

Definition ALLOWED_ORIGIN_PATTERNS : list jsstring :=
  [str "http://localhost:5173"; str "http://localhost:4173"].

Definition isOriginAllowed (origin : jsstring) : bool :=
  if Array_includes ALLOWED_ORIGIN_PATTERNS origin then true
  else if Notions.String_endsWith origin (str ".vercel.app") then true
  else if Notions.String_endsWith origin (str ".github.io") then true
  else false.

(** [req.query.q]: missing, one value, or several *)
Inductive QueryValue : Type :=
| absent
| single (value : jsstring)
| several (values : list jsstring).

Record Request : Type := {
  method : option jsstring;
  origin : option jsstring;          (* [req.headers.origin] *)
  q : QueryValue
}.

(** What the handler asks of the provider: the search parameters of the
    URL it fetches. *)
Inductive QueryParam : Type := zipParam | qParam.

Record ProviderRequest : Type := {
  appid : jsstring;
  units : jsstring;
  param : QueryParam;
  value : jsstring
}.

(** What it writes to [res]. *)
Inductive ReplyBody : Type :=
| ended                               (* [end()]: no body *)
| sent (b : Json).                    (* [json(b)] *)

Record Reply : Type := {
  status : Z;
  headers : list (jsstring * jsstring);
  body : ReplyBody
}.

(** [{ error }] *)
Definition errorObject (error : Json) : Json :=
  JObject [(str "error", error)].

(** [/^\d{5},\w{2}$/] *)
Definition zipQueryPattern : regex :=
  pattern [AssertStart;
           Quant (CharSet isDigit) 5 (Some 5%nat);
           CharSet (isChar 44);
           Quant (CharSet isWordChar) 2 (Some 2%nat);
           AssertEnd].

Section Handler.

(** [process.env.OPENWEATHERMAP_API_KEY] *)
Variable OPENWEATHERMAP_API_KEY : option jsstring.

(** [fetch(owmUrl)]: [None] when the promise is rejected. *)
Variable provider : ProviderRequest -> option (Http.Response Json).

Definition API_KEY : jsstring :=
  match OPENWEATHERMAP_API_KEY with
  | Some key => if truthy key then key else str "19523e3455ad9e4181a1bf5ded4de8f9"
  | None => str "19523e3455ad9e4181a1bf5ded4de8f9"
  end.

(** The headers set before the method is looked at. *)
Definition corsHeaders (req : Request) : list (jsstring * jsstring) :=
  let origin := match origin req with
                | Some o => if truthy o then o else []
                | None => []
                end in
  (if isOriginAllowed origin
   then [(str "Access-Control-Allow-Origin", origin)] else [])
  ++ [(str "Access-Control-Allow-Methods", str "GET, OPTIONS");
      (str "Access-Control-Allow-Headers", str "Content-Type")].

Definition replyError (req : Request) (status : Z) (error : string) : Reply :=
  {| status := status;
     headers := corsHeaders req;
     body := sent (errorObject (JString (str error))) |}.

(** The request to the provider for a query that passed the checks. *)
Definition providerRequest (query : jsstring) : ProviderRequest :=
  let isZip := RegExp_test zipQueryPattern query in
  {| appid := API_KEY;
     units := str "imperial";
     param := if isZip then zipParam else qParam;
     value := query |}.

(** The part of the handler after the checks: the exchange with the
    provider.  For a response that is not [ok], [errorData] is its JSON
    or, when it has none, [null]; the message is
    [errorData?.message || `Weather service returned ${owmResponse.status}`],
    a value of any type.  A response that is [ok] has its JSON handed on
    as it is; when it has none, [owmResponse.json()] throws and the
    [catch] answers. *)
Definition forward (req : Request) (query : jsstring) : Reply :=
  match provider (providerRequest query) with
  | None => replyError req 502
              "Unable to connect to weather service. Please try again later."
  | Some owmResponse =>
      if negb (Http.ok owmResponse) then
        let errorData := match Http.json owmResponse with
                         | Some data => data
                         | None => JNull
                         end in
        let message :=
          match Json_get errorData (str "message") with
          | Some m =>
              if Json_truthy m then m
              else JString (str "Weather service returned "
                              ++ Z_toString (Http.status owmResponse))
          | None => JString (str "Weather service returned "
                               ++ Z_toString (Http.status owmResponse))
          end in
        if Http.status owmResponse =? 404 then
          replyError req 404
            "City not found. Please check your search and try again."
        else if Http.status owmResponse =? 401 then
          replyError req 500
            "Weather API authentication failed. Please contact the administrator."
        else
          {| status := Http.status owmResponse;
             headers := corsHeaders req;
             body := sent (errorObject message) |}
      else
        match Http.json owmResponse with
        | None => replyError req 502
                    "Unable to connect to weather service. Please try again later."
        | Some data =>
            {| status := 200;
               headers := corsHeaders req
                          ++ [(str "Cache-Control",
                               str "s-maxage=600, stale-while-revalidate=300")];
               body := sent data |}
        end
  end.

Definition handler (req : Request) : Reply :=
  if match method req with
     | Some m => String_eqb m (str "OPTIONS")
     | None => false
     end
  then {| status := 200; headers := corsHeaders req; body := ended |}
  else if negb match method req with
               | Some m => String_eqb m (str "GET")
               | None => false
               end
  then replyError req 405 "Method not allowed"
  else
    match q req with
    | single query =>
        if negb (truthy query) then
          replyError req 400 "Missing required parameter: q"
        else if (100 <? length query)%nat then
          replyError req 400 "Query parameter too long"
        else if String_eqb API_KEY (str "YOUR_API_KEY_HERE") then
          replyError req 500
            "Weather API key not configured. Please set OPENWEATHERMAP_API_KEY environment variable."
        else forward req query
    | _ => replyError req 400 "Missing required parameter: q"
    end.

End Handler.

End Proxy.

(* ===================================================================== *)
(** * [src/services/weatherService.ts]: talking to the proxy              *)
(* ===================================================================== *)

Module WeatherClient.

Import WeatherService.

Section WithHost.

Variable h : Host.

(** [String(x)] for a finite number [x] *)
Variable numberText : Q -> jsstring.

(** [fetch(url)] for the URL built from [query]; [None] when the promise
    is rejected.  The query travels as [encodeURIComponent(query)], which
    throws on a string that is not well formed, and is decoded by the
    server, so the network is given the query itself. *)
Variable network : jsstring -> option (Http.Response Json).

(** [`${data.city.name}, ${data.city.country}`]: reading a member of
    [data.city] throws when that is [undefined] or [null]. *)
Definition cityNameOf (data : Json) : Completion jsstring :=
  match Json_get data (str "city") with
  | None => Throw TypeError
  | Some JNull => Throw TypeError
  | Some place =>
      match templateText numberText (Json_get place (str "name")),
            templateText numberText (Json_get place (str "country")) with
      | Some name, Some country => Normal (name ++ str ", " ++ country)
      | _, _ => Throw TypeError
      end
  end.

(** What the function makes of the JSON of a response that is [ok].
    Reading [data.list] throws on [null]; [for (const item of items)]
    throws on what cannot be iterated: [undefined], [null], a boolean, a
    number, an object.  An array whose elements are values of
    [OWMForecastItem] is transformed as the typed function does, and the
    name is read after that.  The result is [None] where the model says
    nothing: for a string (it is iterated) and for an array with an
    element that is no value of [OWMForecastItem], on which the
    transformation depends on conversions that are not modelled. *)
Definition readForecast (data : Json)
  : option (Settled (list DayForecast.t * jsstring)) :=
  match data with
  | JNull => Some (rejected (Native typeError))
  | _ =>
      match Json_get data (str "list") with
      | Some (JArray values) =>
          match Typed.array Typed.OWMForecastItem_ofJson values with
          | Some items =>
              match transformForecastData h items with
              | Normal forecast =>
                  match cityNameOf data with
                  | Normal cityName => Some (fulfilled (forecast, cityName))
                  | Throw TypeError => Some (rejected (Native typeError))
                  end
              | Throw TypeError => Some (rejected (Native typeError))
              end
          | None => None
          end
      | Some (JString _) => None
      | _ => Some (rejected (Native typeError))
      end
  end.

(** [throw new Error(message)] for
    [message = errorData?.error || `Weather data unavailable (${response.status})`],
    where [errorData] is the JSON of the response or, when it has none,
    [null]: the message of the error is [ToString(message)], which may
    itself throw. *)
Definition failure (response : Http.Response Json) : Thrown :=
  let errorData := match Http.json response with
                   | Some data => data
                   | None => JNull
                   end in
  let message :=
    match Json_get errorData (str "error") with
    | Some error =>
        if Json_truthy error then error
        else JString (str "Weather data unavailable ("
                        ++ Z_toString (Http.status response) ++ str ")")
    | None => JString (str "Weather data unavailable ("
                         ++ Z_toString (Http.status response) ++ str ")")
    end in
  match Json_toString numberText message with
  | Some text => Error text
  | None => Native typeError
  end.

Definition fetchForecast (query : jsstring)
  : option (Settled (list DayForecast.t * jsstring)) :=
  if negb (String_isWellFormed query) then Some (rejected (Native uriError))
  else
    match network query with
    | None => Some (rejected (Native typeError))
    | Some response =>
        if negb (Http.ok response) then Some (rejected (failure response))
        else
          match Http.json response with
          | None => Some (rejected (Native syntaxError))
          | Some data => readForecast data
          end
    end.

End WithHost.

End WeatherClient.

(* ===================================================================== *)
(** * [src/context/WeatherContext.tsx]                                    *)
(* ===================================================================== *)

Module WeatherContext.

Import Validation Theme.

Definition STORAGE_KEY : jsstring := str "weather-informer-recent-searches".

Definition MAX_RECENT_SEARCHES : nat := 5.

Section WithBrowser.

Variable browser : Browser.

Definition loadRecentSearches (localStorage : Store browser) : list jsstring :=
  match getItem browser localStorage STORAGE_KEY with
  | Some (Some stored) =>
      if truthy stored then
        match JSON_parse browser stored with
        | Some (JArray parsed) =>
            if forallb isJString parsed
            then firstn MAX_RECENT_SEARCHES (Json_strings parsed)
            else []
        | _ => []
        end
      else []
  | _ => []
  end.

(** The storage after the call. *)
Definition saveRecentSearches (searches : list jsstring)
    (localStorage : Store browser) : Store browser :=
  match setItem browser localStorage STORAGE_KEY
          (JSON_stringify browser searches) with
  | Some stored => stored
  | None => localStorage
  end.

(** The state the provider starts with. *)
Definition initialState (localStorage : Store browser) : WeatherState.t :=
  {| WeatherState.forecast := None;
     WeatherState.cityName := [];
     WeatherState.recentSearches := loadRecentSearches localStorage;
     WeatherState.loading := false;
     WeatherState.error := None;
     WeatherState.currentCondition := own Default;
     WeatherState.selectedDay := None |}.

(** The state updates of [fetchWeather], in the order of the source. *)
Definition rejectInput (prev : WeatherState.t) : WeatherState.t :=
  {| WeatherState.forecast := WeatherState.forecast prev;
     WeatherState.cityName := WeatherState.cityName prev;
     WeatherState.recentSearches := WeatherState.recentSearches prev;
     WeatherState.loading := WeatherState.loading prev;
     WeatherState.error :=
       Some (str "Please enter a valid US city name or 5-digit zip code.");
     WeatherState.currentCondition := WeatherState.currentCondition prev;
     WeatherState.selectedDay := WeatherState.selectedDay prev |}.

Definition startLoading (prev : WeatherState.t) : WeatherState.t :=
  {| WeatherState.forecast := WeatherState.forecast prev;
     WeatherState.cityName := WeatherState.cityName prev;
     WeatherState.recentSearches := WeatherState.recentSearches prev;
     WeatherState.loading := true;
     WeatherState.error := None;
     WeatherState.currentCondition := WeatherState.currentCondition prev;
     WeatherState.selectedDay := WeatherState.selectedDay prev |}.

(** [[sanitized, ...recentSearches.filter(s => s.toLowerCase() !==
      sanitized.toLowerCase())].slice(0, MAX_RECENT_SEARCHES)] *)
Definition newSearches (sanitized : jsstring) (recentSearches : list jsstring)
  : list jsstring :=
  firstn MAX_RECENT_SEARCHES
    (sanitized
     :: filter (fun s => negb (String_eqb (toLowerCase browser s)
                                          (toLowerCase browser sanitized)))
          recentSearches).

Definition showForecast (sanitized : jsstring) (forecast : list DayForecast.t)
    (cityName : jsstring) (prev : WeatherState.t) : WeatherState.t :=
  let condition :=
    match forecast with
    | first :: _ => mapOWMCondition (DayForecast.condition first)
    | [] => own Default
    end in
  {| WeatherState.forecast := Some forecast;
     WeatherState.cityName := cityName;
     WeatherState.recentSearches :=
       newSearches sanitized (WeatherState.recentSearches prev);
     WeatherState.loading := false;
     WeatherState.error := None;
     WeatherState.currentCondition := condition;
     WeatherState.selectedDay := WeatherState.selectedDay prev |}.

Definition showFailure (err : Thrown) (prev : WeatherState.t) : WeatherState.t :=
  let message :=
    match err with
    | Error message => message
    | Native kind => engineMessage browser kind
    | notAnError => str "An unexpected error occurred."
    end in
  {| WeatherState.forecast := WeatherState.forecast prev;
     WeatherState.cityName := WeatherState.cityName prev;
     WeatherState.recentSearches := WeatherState.recentSearches prev;
     WeatherState.loading := false;
     WeatherState.error := Some message;
     WeatherState.currentCondition := WeatherState.currentCondition prev;
     WeatherState.selectedDay := WeatherState.selectedDay prev |}.

(** One call of [fetchWeather]: the queries it passes to [fetchForecast]
    and the state updates it makes, in order. *)
Record Run : Type := {
  requests : list jsstring;
  updates : list (WeatherState.t -> WeatherState.t)
}.

(** [fetchForecast] of the service, awaited. *)
Variable fetchForecast : jsstring -> Settled (list DayForecast.t * jsstring).

Definition fetchWeather (query : jsstring) : Run :=
  let validation := validateSearchInput query in
  if negb (ValidationResult.isValid validation) then
    {| requests := []; updates := [rejectInput] |}
  else
    let apiQuery :=
      formatApiQuery (ValidationResult.sanitized validation)
                     (ValidationResult.type validation) in
    {| requests := [apiQuery];
       updates :=
         [startLoading;
          match fetchForecast apiQuery with
          | fulfilled (forecast, cityName) =>
              showForecast (ValidationResult.sanitized validation)
                           forecast cityName
          | rejected err => showFailure err
          end] |}.

Definition selectDay (day : DayForecast.t) (prev : WeatherState.t)
  : WeatherState.t :=
  {| WeatherState.forecast := WeatherState.forecast prev;
     WeatherState.cityName := WeatherState.cityName prev;
     WeatherState.recentSearches := WeatherState.recentSearches prev;
     WeatherState.loading := WeatherState.loading prev;
     WeatherState.error := WeatherState.error prev;
     WeatherState.currentCondition := WeatherState.currentCondition prev;
     WeatherState.selectedDay := Some day |}.

Definition closeModal (prev : WeatherState.t) : WeatherState.t :=
  {| WeatherState.forecast := WeatherState.forecast prev;
     WeatherState.cityName := WeatherState.cityName prev;
     WeatherState.recentSearches := WeatherState.recentSearches prev;
     WeatherState.loading := WeatherState.loading prev;
     WeatherState.error := WeatherState.error prev;
     WeatherState.currentCondition := WeatherState.currentCondition prev;
     WeatherState.selectedDay := None |}.

Definition clearError (prev : WeatherState.t) : WeatherState.t :=
  {| WeatherState.forecast := WeatherState.forecast prev;
     WeatherState.cityName := WeatherState.cityName prev;
     WeatherState.recentSearches := WeatherState.recentSearches prev;
     WeatherState.loading := WeatherState.loading prev;
     WeatherState.error := None;
     WeatherState.currentCondition := WeatherState.currentCondition prev;
     WeatherState.selectedDay := WeatherState.selectedDay prev |}.

(** What the user can do, and the state after it.  An update is applied
    to the state current at its time; a call of [fetchWeather] is taken
    to settle before the next action. *)
Inductive Action : Type :=
| search (query : jsstring)
| select (day : DayForecast.t)
| close
| dismiss.

Definition apply (state : WeatherState.t) (a : Action) : WeatherState.t :=
  match a with
  | search query =>
      fold_left (fun s update => update s) (updates (fetchWeather query)) state
  | select day => selectDay day state
  | close => closeModal state
  | dismiss => clearError state
  end.

End WithBrowser.

End WeatherContext.

(* ===================================================================== *)
(** * [src/components/SearchBar.tsx]                                      *)
(* ===================================================================== *)

Module SearchBar.

Import Validation.

Record State : Type := {
  input : jsstring;
  touched : bool
}.

Definition validation (st : State) : ValidationResult.t :=
  validateSearchInput (input st).

Definition showError (st : State) : bool :=
  touched st && (0 <? length (input st))%nat
  && negb (ValidationResult.isValid (validation st)).

Definition canSubmit (loading : bool) (st : State) : bool :=
  ValidationResult.isValid (validation st) && negb loading.

(** The argument [onSearch] is called with, if it is called, and the
    state of the form afterwards. *)
Definition handleSubmit (loading : bool) (st : State)
  : option jsstring * State :=
  if negb (canSubmit loading st) then (None, st)
  else (Some (ValidationResult.sanitized (validation st)),
        {| input := []; touched := false |}).

Definition handleChange (value : jsstring) (st : State) : State :=
  {| input := value; touched := if touched st then touched st else true |}.

End SearchBar.

(* ===================================================================== *)
(** * The client behind the proxy                                         *)
(* ===================================================================== *)

Module Deployment.

(** The request the proxy sees for a query of the client, and the
    response the client sees for a reply of the proxy: the status, and
    the body, if there is one, as it is read back from the text that
    [res.json] wrote. *)
Definition requestFor (origin : option jsstring) (query : jsstring)
  : Proxy.Request :=
  {| Proxy.method := Some (str "GET");
     Proxy.origin := origin;
     Proxy.q := Proxy.single query |}.

Definition responseOf (reply : Proxy.Reply) : Http.Response Json :=
  {| Http.status := Proxy.status reply;
     Http.json := match Proxy.body reply with
                  | Proxy.sent b => Some (Json_reparse b)
                  | Proxy.ended => None
                  end |}.

Section WithProvider.

Variable OPENWEATHERMAP_API_KEY : option jsstring.
Variable provider : Proxy.ProviderRequest -> option (Http.Response Json).
Variable origin : option jsstring.

(** The network of the client when nothing fails between it and the
    proxy. *)
Definition network (query : jsstring) : option (Http.Response Json) :=
  Some (responseOf
          (Proxy.handler OPENWEATHERMAP_API_KEY provider
             (requestFor origin query))).

(** What can be said of a reply [r] to a request [req].  It is not a
    401.  When its status is outside 200 to 299 it is [{ error }] for a
    truthy [error], which is a string or the [message] of the provider's
    JSON.  When its status is from 200 to 299 that status is 200, and
    there is either no body or the JSON of a response of the provider
    that was [ok], as it came. *)
Definition accounted (req : Proxy.Request) (r : Proxy.Reply) : Prop :=
  Proxy.status r <> 401
  /\ (Http.ok (responseOf r) = false ->
      exists e,
        Proxy.body r = Proxy.sent (Proxy.errorObject e)
        /\ Json_truthy e = true
        /\ (isJString e = true
            \/ exists query response data,
                 Proxy.q req = Proxy.single query
                 /\ provider (Proxy.providerRequest OPENWEATHERMAP_API_KEY
                                query)
                    = Some response
                 /\ Http.json response = Some data
                 /\ Json_get data (str "message") = Some e))
  /\ (Http.ok (responseOf r) = true ->
      Proxy.status r = 200
      /\ (Proxy.body r = Proxy.ended
          \/ exists query response data,
               Proxy.q req = Proxy.single query
               /\ provider (Proxy.providerRequest OPENWEATHERMAP_API_KEY
                              query)
                  = Some response
               /\ Http.ok response = true
               /\ Http.json response = Some data
               /\ Proxy.body r = Proxy.sent data)).

End WithProvider.

End Deployment.

(* ===================================================================== *)
(** * More sample data                                                    *)
(* ===================================================================== *)

Module Samples.

Definition asciiLower (c : N) : N :=
  if ((65 <=? c) && (c <=? 90))%N then (c + 32)%N else c.

(** The text of an array of strings that need no escape:
    [["a","b"]]. *)
Definition quoted (s : jsstring) : jsstring := [34%N] ++ s ++ [34%N].

Definition writeStrings (items : list jsstring) : jsstring :=
  [91%N] ++ Array_join (map quoted items) [44%N] ++ [93%N].

Inductive Reading : Type :=
| atItem                      (* a string has to start *)
| inItem (units : jsstring)   (* inside a string *)
| afterItem.                  (* a string has ended *)

Fixpoint readItems (s : jsstring) (state : Reading) (items : list Json)
  : option Json :=
  match s with
  | [] => None
  | c :: tl =>
      match state with
      | atItem =>
          if (c =? 34)%N then readItems tl (inItem []) items else None
      | inItem units =>
          if (c =? 34)%N then readItems tl afterItem (items ++ [JString units])
          else if (c =? 92)%N then None
          else readItems tl (inItem (units ++ [c])) items
      | afterItem =>
          if (c =? 44)%N then readItems tl atItem items
          else if (c =? 93)%N
               then match tl with [] => Some (JArray items) | _ :: _ => None end
               else None
      end
  end.

Definition readStrings (s : jsstring) : option Json :=
  match s with
  | [91%N; 93%N] => Some (JArray [])
  | 91%N :: tl => readItems tl atItem []
  | _ => None
  end.

(** A browser whose storage is a map that never fails, whose JSON is
    that of arrays of plain strings, and which lower-cases the letters A
    to Z. *)
Definition plainBrowser : Browser :=
  {| Store := Map jsstring;
     getItem := fun store key => Some (Map_get store key);
     setItem := fun store key value => Some (Map_set store key value);
     JSON_parse := readStrings;
     JSON_stringify := writeStrings;
     toLowerCase := map asciiLower;
     engineMessage := fun _ => str "TypeError" |}.

(** A provider that knows no place. *)
Definition notFound (request : Proxy.ProviderRequest)
  : option (Http.Response Json) :=
  Some {| Http.status := 404;
          Http.json :=
            Some (JObject [(str "cod", JString (str "404"));
                           (str "message", JString (str "city not found"))]) |}.

(** A provider that cannot be reached, and a service that fails. *)
Definition unreachable (request : Proxy.ProviderRequest)
  : option (Http.Response Json) := None.

Definition failing (query : jsstring)
  : Settled (list DayForecast.t * jsstring) := rejected notAnError.

(** A provider that reports a failure with status 200, in a member
    [error]. *)
Definition mislabelled (request : Proxy.ProviderRequest)
  : option (Http.Response Json) :=
  Some {| Http.status := 200;
          Http.json :=
            Some (JObject [(str "error", JString (str "quota exceeded"))]) |}.

(** A provider whose message is a number too large for a double. *)
Definition overflowing (request : Proxy.ProviderRequest)
  : option (Http.Response Json) :=
  Some {| Http.status := 503;
          Http.json :=
            Some (JObject [(str "message", JNumber (infinite false))]) |}.

(** Typed data as JSON. *)
Definition numberJson (q : Q) : Json := JNumber (finite q).

Definition optionalMember (name : string) (x : option Q)
  : list (jsstring * Json) :=
  match x with
  | Some q => [(str name, numberJson q)]
  | None => []
  end.

Definition conditionJson (c : OWMWeatherCondition.t) : Json :=
  JObject [(str "id", numberJson (OWMWeatherCondition.id c));
           (str "main", JString (OWMWeatherCondition.main c));
           (str "description", JString (OWMWeatherCondition.description c));
           (str "icon", JString (OWMWeatherCondition.icon c))].

Definition mainJson (m : OWMMainData.t) : Json :=
  JObject ([(str "temp", numberJson (OWMMainData.temp m));
            (str "feels_like", numberJson (OWMMainData.feels_like m));
            (str "temp_min", numberJson (OWMMainData.temp_min m));
            (str "temp_max", numberJson (OWMMainData.temp_max m));
            (str "pressure", numberJson (OWMMainData.pressure m));
            (str "humidity", numberJson (OWMMainData.humidity m))]
           ++ optionalMember "sea_level" (OWMMainData.sea_level m)
           ++ optionalMember "grnd_level" (OWMMainData.grnd_level m)).

Definition windJson (w : OWMWind.t) : Json :=
  JObject ([(str "speed", numberJson (OWMWind.speed w));
            (str "deg", numberJson (OWMWind.deg w))]
           ++ optionalMember "gust" (OWMWind.gust w)).

Definition itemJson (item : OWMForecastItem.t) : Json :=
  JObject [(str "dt", numberJson (inject_Z (OWMForecastItem.dt item)));
           (str "main", mainJson (OWMForecastItem.main item));
           (str "weather",
            JArray (map conditionJson (OWMForecastItem.weather item)));
           (str "clouds",
            JObject [(str "all",
                      numberJson (OWMClouds.all (OWMForecastItem.clouds item)))]);
           (str "wind", windJson (OWMForecastItem.wind item));
           (str "visibility", numberJson (OWMForecastItem.visibility item));
           (str "pop", numberJson (OWMForecastItem.pop item));
           (str "dt_txt", JString (OWMForecastItem.dt_txt item))].

Definition responseJson (data : OWMForecastResponse.t) : Json :=
  JObject [(str "cod", JString (str "200"));
           (str "list",
            JArray (map itemJson (OWMForecastResponse.list data)));
           (str "city",
            JObject [(str "name",
                      JString (OWMCity.name (OWMForecastResponse.city data)));
                     (str "country",
                      JString (OWMCity.country
                                 (OWMForecastResponse.city data)))])].

(** A provider that answers every request with the forecast of two
    samples for Austin. *)
Definition austin : OWMForecastResponse.t :=
  {| OWMForecastResponse.list := [Examples.at0900; Examples.at1200];
     OWMForecastResponse.city :=
       {| OWMCity.name := str "Austin"; OWMCity.country := str "US" |} |}.

Definition alwaysAustin (request : Proxy.ProviderRequest)
  : option (Http.Response Json) :=
  Some {| Http.status := 200;
          Http.json := Some (responseJson austin) |}.

(** Whole numbers as text. *)
Definition wholeNumberText (q : Q) : jsstring := Z_toString (Qfloor q).

(** A service that is the client's wherever the model gives the outcome
    of the client. *)
Definition serviceOf
    (client : jsstring -> option (Settled (list DayForecast.t * jsstring)))
    (query : jsstring) : Settled (list DayForecast.t * jsstring) :=
  match client query with
  | Some outcome => outcome
  | None => rejected notAnError
  end.

(** The first summary of a result, or an empty one. *)
Definition noForecast : DayForecast.t :=
  {| DayForecast.date := []; DayForecast.dayName := [];
     DayForecast.tempHigh := 0; DayForecast.tempLow := 0;
     DayForecast.condition := []; DayForecast.description := [];
     DayForecast.icon := []; DayForecast.humidity := 0;
     DayForecast.windSpeed := 0; DayForecast.hourly := [] |}.

Definition firstOf (c : Completion (list DayForecast.t)) : DayForecast.t :=
  nth 0 (Examples.valueOf c) noForecast.

(** A name of 99 letters. *)
Definition longName : jsstring := repeat 97%N 99.

(** The state the application starts with when nothing is stored. *)
Definition fresh : WeatherState.t :=
  WeatherContext.initialState plainBrowser [].

End Samples.

(* ===================================================================== *)
(** * Notions of the calendar                                             *)
(* ===================================================================== *)

Module Calendar.

(** A host whose local time is at a fixed offset from UTC, of less than
    a day. *)
Definition fixedOffset (h : Host) (offset : Z) : Prop :=
  (forall t isUTC, LocalTZA h t isUTC = offset)
  /\ Z.abs offset <= msPerDay.

(** The local day number, year, month (1..12) and day of the month of an
    instant. *)
Definition localDay (h : Host) (t : Z) : Z := Day (LocalTime h t).

(** The years whose number is written with four digits, and the instants
    whose local date falls into one of them. *)
Definition fourDigitYear (y : Z) : Prop := 1000 <= y <= 9999.

Definition inFourDigitYear (h : Host) (t : Z) : Prop :=
  fourDigitYear (YearFromTime (LocalTime h t)).

(** The first day of the year [y] of a 400-year era, counted from the
    start of the era, and the number of days before the year after. *)
Definition yearStart (y : Z) : Z := 365 * y + y / 4 - y / 100.

Definition yearEnd (y : Z) : Z :=
  if y =? 399 then 146096 else yearStart (y + 1) - 1.

(** The year of the era a day of the era falls into, as
    [civil_from_days] computes it. *)
Definition yearOfEra (doe : Z) : Z :=
  (doe - doe / 1460 + doe / 36524 - doe / 146096) / 365.

(** [p] holds of [lo], [lo + 1], ..., [lo + n - 1]. *)
Fixpoint upto (n : nat) (lo : Z) (p : Z -> bool) : bool :=
  match n with
  | O => true
  | S k => p lo && upto k (lo + 1) p
  end.

(** The two ends of each year of an era fall into that year, and a year
    has at most 366 days. *)
Definition yearEnds (y : Z) : bool :=
  (yearOfEra (yearStart y) =? y) && (yearOfEra (yearEnd y) =? y)
  && (yearStart y <=? yearEnd y) && (yearEnd y - yearStart y <=? 365)
  && (0 <=? yearStart y) && (yearEnd y <=? 146096).

(** A number below 100 written with two digits, and a year written with
    four. *)
Definition twoDigits (n : Z) : jsstring :=
  [Z.to_N (48 + n / 10); Z.to_N (48 + n mod 10)].

Definition paddedTwoDigits (n : Z) : bool :=
  String_eqb (String_padStart (Z_toString n) 2 (str "0")) (twoDigits n).

Definition writtenWithFourDigits (y : Z) : bool :=
  String_eqb (Z_toString y) (twoDigits (y / 100) ++ twoDigits (y mod 100)).

(** A date and time as the provider writes it:
    [YYYY-MM-DD HH:mm:ss]. *)
Definition dtTxt (y m d hh mm ss : Z) : jsstring :=
  twoDigits (y / 100) ++ twoDigits (y mod 100) ++ str "-" ++ twoDigits m
    ++ str "-" ++ twoDigits d ++ str " " ++ twoDigits hh ++ str ":"
    ++ twoDigits mm ++ str ":" ++ twoDigits ss.

(** The day [d] of the month [m] of the year [y] exists. *)
Definition realDate (y m d : Z) : Prop :=
  civil_from_days (days_from_civil y m d) = (y, m, d).

(** A date as one number: the dates of years of four digits compare as
    these numbers do. *)
Definition dateNumber (y m d : Z) : Z := y * 10000 + m * 100 + d.

(** The 12-hour form of an hour. *)
Definition hour12 (hh : Z) : Z := if hh mod 12 =? 0 then 12 else hh mod 12.

End Calendar.

(* ===================================================================== *)
(** * Facts about the host                                                *)
(* ===================================================================== *)

Module HostFacts.

Import Notions.

(** ** The order on strings *)

Lemma N_compare_trans (x y z : N) (c : comparison) :
  (x ?= y)%N = c -> (y ?= z)%N = c -> (x ?= z)%N = c.
Proof.
  destruct c; intros Hxy Hyz.
  - apply N.compare_eq_iff in Hxy, Hyz. subst. apply N.compare_refl.
  - rewrite N.compare_lt_iff in *. lia.
  - rewrite N.compare_gt_iff in *. lia.
Qed.

Lemma String_compare_eq (a b : jsstring) : String_compare a b = Eq <-> a = b.
Proof. apply list_compare_refl, N.compare_eq_iff. Qed.

Lemma String_compare_antisym (a b : jsstring) :
  String_compare b a = CompOpp (String_compare a b).
Proof.
  apply list_compare_antisym.
  - apply N.compare_eq_iff.
  - intros x y. apply N.compare_antisym.
Qed.

Lemma String_lt_irrefl (a : jsstring) : ~ String_lt a a.
Proof.
  unfold String_lt, String_ltb.
  replace (String_compare a a) with Eq; [discriminate|].
  symmetry. now apply String_compare_eq.
Qed.

Lemma String_lt_trans (a b c : jsstring) :
  String_lt a b -> String_lt b c -> String_lt a c.
Proof.
  unfold String_lt, String_ltb. intros Hab Hbc.
  destruct (String_compare a b) eqn:E1; try discriminate.
  destruct (String_compare b c) eqn:E2; try discriminate.
  replace (String_compare a c) with Lt; [reflexivity|].
  symmetry. refine (@list_compare_trans N N.compare N.compare_eq_iff a b c Lt _ _ E1 E2).
  - intros x y z k. apply N_compare_trans.
  - intros x y. apply N.compare_antisym.
Qed.

Lemma String_lt_asym (a b : jsstring) : String_lt a b -> ~ String_lt b a.
Proof. intros Hab Hba. exact (String_lt_irrefl (String_lt_trans Hab Hba)). Qed.

Lemma String_lt_total (a b : jsstring) :
  String_lt a b \/ a = b \/ String_lt b a.
Proof.
  unfold String_lt, String_ltb.
  rewrite (String_compare_antisym a b).
  destruct (String_compare a b) eqn:E; cbn; auto.
  right; left. now apply String_compare_eq.
Qed.

Lemma String_eqb_eq (a b : jsstring) : String_eqb a b = true <-> a = b.
Proof. unfold String_eqb. destruct (jsstring_dec a b); split; congruence. Qed.

Lemma String_eqb_refl (a : jsstring) : String_eqb a a = true.
Proof. now apply String_eqb_eq. Qed.

Lemma String_eqb_neq (a b : jsstring) : String_eqb a b = false <-> a <> b.
Proof. unfold String_eqb. destruct (jsstring_dec a b); split; congruence. Qed.

(** ** Sorting *)

Lemma sort_insert_In (x a : jsstring) (l : list jsstring) :
  In x (sort_insert a l) <-> x = a \/ In x l.
Proof.
  induction l as [|y tl IH]; cbn.
  - intuition.
  - destruct (String_ltb y a); cbn; rewrite ?IH; intuition.
Qed.

Lemma Array_sort_In (x : jsstring) (l : list jsstring) :
  In x (Array_sort l) <-> In x l.
Proof.
  unfold Array_sort.
  induction l as [|a tl IH]; cbn; [tauto|].
  rewrite sort_insert_In, IH. intuition.
Qed.

Lemma sort_insert_length (a : jsstring) (l : list jsstring) :
  length (sort_insert a l) = S (length l).
Proof.
  induction l as [|y tl IH]; cbn; [reflexivity|].
  destruct (String_ltb y a); cbn; congruence.
Qed.

Lemma Array_sort_length (l : list jsstring) :
  length (Array_sort l) = length l.
Proof.
  unfold Array_sort.
  induction l as [|a tl IH]; cbn; [reflexivity|].
  now rewrite sort_insert_length, IH.
Qed.

Lemma sort_insert_sorted (a : jsstring) (l : list jsstring) :
  StronglySorted String_lt l -> ~ In a l ->
  StronglySorted String_lt (sort_insert a l).
Proof.
  induction 1 as [|y tl Hs IH Hall]; intros Hnin; cbn.
  - repeat constructor.
  - destruct (String_ltb y a) eqn:E.
    + constructor.
      * apply IH. cbn in Hnin. tauto.
      * apply Forall_forall. intros z Hz.
        apply sort_insert_In in Hz. destruct Hz as [->|Hz]; [exact E|].
        rewrite Forall_forall in Hall. now apply Hall.
    + assert (Hay : String_lt a y).
      { destruct (String_lt_total a y) as [H|[H|H]]; [exact H| |].
        - subst. cbn in Hnin. tauto.
        - unfold String_lt in H. congruence. }
      constructor; [now constructor|].
      constructor; [exact Hay|].
      rewrite Forall_forall in *. intros z Hz.
      exact (String_lt_trans Hay (Hall z Hz)).
Qed.

Lemma Array_sort_sorted (l : list jsstring) :
  NoDup l -> StronglySorted String_lt (Array_sort l).
Proof.
  induction 1 as [|a tl Hnin Hnd IH]; [constructor|].
  change (Array_sort (a :: tl)) with (sort_insert a (Array_sort tl)).
  apply sort_insert_sorted; [exact IH|].
  now rewrite Array_sort_In.
Qed.

Lemma sorted_NoDup (l : list jsstring) :
  StronglySorted String_lt l -> NoDup l.
Proof.
  induction 1 as [|a tl Hs IH Hall]; constructor; [|exact IH].
  intros Hin. rewrite Forall_forall in Hall.
  exact (String_lt_irrefl (Hall a Hin)).
Qed.

Lemma In_firstn (A : Type) (n : nat) (l : list A) (x : A) :
  In x (firstn n l) -> In x l.
Proof.
  revert n. induction l as [|a tl IH]; intros [|n]; cbn; try tauto.
  intros [->|H]; [now left|right; eauto].
Qed.

Lemma sorted_firstn (n : nat) (l : list jsstring) :
  StronglySorted String_lt l -> StronglySorted String_lt (firstn n l).
Proof.
  intros Hs. revert n.
  induction Hs as [|a tl Hs IH Hall]; intros [|n]; cbn; try constructor.
  - apply IH.
  - rewrite Forall_forall in *. intros z Hz. apply Hall.
    exact (In_firstn _ _ _ Hz).
Qed.

(** What is cut off a sorted list is above what is kept. *)
Lemma sorted_firstn_below (n : nat) (l : list jsstring) (a b : jsstring) :
  StronglySorted String_lt l ->
  In a (firstn n l) -> In b l -> ~ In b (firstn n l) -> String_lt a b.
Proof.
  intros Hs. revert n.
  induction Hs as [|x tl Hs IH Hall]; intros n Ha Hb Hnb.
  - destruct n; contradiction.
  - destruct n as [|n]; [contradiction|]. cbn in Ha, Hnb.
    rewrite Forall_forall in Hall.
    destruct Hb as [->|Hb]; [tauto|].
    destruct Ha as [->|Ha]; [now apply Hall|].
    apply (IH n); tauto.
Qed.

(** Where a key stands in a sorted list: after the smaller keys and
    before the greater ones. *)
Lemma sorted_split (l : list jsstring) (k : jsstring) :
  StronglySorted String_lt l -> In k l ->
  exists before after,
    l = before ++ k :: after
    /\ (forall x, In x before -> String_lt x k)
    /\ (forall x, In x after -> String_lt k x).
Proof.
  induction 1 as [|a tl Hs IH Hall]; intros Hin; [contradiction|].
  rewrite Forall_forall in Hall.
  destruct Hin as [->|Hin].
  - exists [], tl. repeat split; [contradiction|exact Hall].
  - destruct (IH Hin) as (before & after & -> & Hb & Ha).
    exists (a :: before), after. repeat split; [|exact Ha].
    intros x [<-|Hx]; [|now apply Hb].
    apply Hall, in_or_app. right. now left.
Qed.

(** ** Maps *)

Section MapFacts.

Variable V : Type.
Implicit Types (m : Map V) (k : jsstring) (v : V).

Lemma Map_get_set_same m k v : Map_get (Map_set m k v) k = Some v.
Proof.
  induction m as [|[k' v'] tl IH]; cbn.
  - now rewrite String_eqb_refl.
  - destruct (String_eqb k' k) eqn:E; cbn; now rewrite E.
Qed.

Lemma Map_get_set_other m k k' v :
  k <> k' -> Map_get (Map_set m k v) k' = Map_get m k'.
Proof.
  intros Hne. induction m as [|[k0 v0] tl IH]; cbn.
  - apply String_eqb_neq in Hne. now rewrite Hne.
  - destruct (String_eqb k0 k) eqn:E; cbn; [|now rewrite IH].
    apply String_eqb_eq in E. subst k0.
    apply String_eqb_neq in Hne. now rewrite Hne.
Qed.

Lemma Map_keys_set_in m k v :
  In k (Map_keys m) -> Map_keys (Map_set m k v) = Map_keys m.
Proof.
  induction m as [|[k0 v0] tl IH]; cbn; [tauto|].
  intros Hin. destruct (String_eqb k0 k) eqn:E; cbn; [reflexivity|].
  apply String_eqb_neq in E. f_equal. apply IH. tauto.
Qed.

Lemma Map_keys_set_notin m k v :
  ~ In k (Map_keys m) -> Map_keys (Map_set m k v) = Map_keys m ++ [k].
Proof.
  induction m as [|[k0 v0] tl IH]; cbn; [reflexivity|].
  intros Hnin. destruct (String_eqb k0 k) eqn:E; cbn.
  - apply String_eqb_eq in E. tauto.
  - f_equal. apply IH. tauto.
Qed.

Lemma Map_keys_get m k : In k (Map_keys m) <-> Map_get m k <> None.
Proof.
  induction m as [|[k0 v0] tl IH]; cbn; [tauto|].
  destruct (String_eqb k0 k) eqn:E.
  - apply String_eqb_eq in E. split; [discriminate|auto].
  - apply String_eqb_neq in E. unfold Map_keys in IH. rewrite <- IH. tauto.
Qed.

Lemma Map_keys_set_NoDup m k v :
  NoDup (Map_keys m) -> NoDup (Map_keys (Map_set m k v)).
Proof.
  intros Hnd.
  destruct (in_dec jsstring_dec k (Map_keys m)) as [Hin|Hn].
  - now rewrite Map_keys_set_in.
  - rewrite Map_keys_set_notin by exact Hn.
    apply NoDup_app; [exact Hnd|repeat constructor; tauto|].
    intros x Hx [<-|[]]. contradiction.
Qed.

End MapFacts.

End HostFacts.

(* ===================================================================== *)
(** * Facts about the aggregation pipeline                                *)
(* ===================================================================== *)

Module WeatherFacts.

Import Notions HostFacts WeatherService.

(** ** Numbers *)

Lemma Math_round_mono (x y : Q) :
  (x <= y)%Q -> (Math_round x <= Math_round y)%Q.
Proof.
  intros Hxy. unfold Math_round. rewrite <- Zle_Qle.
  apply Qfloor_resp_le. now apply Qplus_le_l.
Qed.

Lemma Math_round_isInteger (x : Q) : isInteger (Math_round x) = true.
Proof.
  unfold isInteger, Math_round. apply Qeq_bool_iff.
  now rewrite Qfloor_Z.
Qed.

Lemma max2_ge_l (a b : Q) : (a <= max2 a b)%Q.
Proof.
  unfold max2. destruct (Qle_bool a b) eqn:E.
  - now apply Qle_bool_iff.
  - apply Qle_refl.
Qed.

Lemma min2_le_l (a b : Q) : (min2 a b <= a)%Q.
Proof.
  unfold min2. destruct (Qle_bool a b) eqn:E.
  - apply Qle_refl.
  - destruct (Qlt_le_dec b a) as [H|H].
    + now apply Qlt_le_weak.
    + apply Qle_bool_iff in H. congruence.
Qed.

Lemma fold_max2_ge (xs : list Q) (x : Q) : (x <= fold_left max2 xs x)%Q.
Proof.
  revert x. induction xs as [|y tl IH]; intros x; cbn.
  - apply Qle_refl.
  - eapply Qle_trans; [apply (max2_ge_l x y)|apply IH].
Qed.

Lemma fold_min2_le (xs : list Q) (x : Q) : (fold_left min2 xs x <= x)%Q.
Proof.
  revert x. induction xs as [|y tl IH]; intros x; cbn.
  - apply Qle_refl.
  - eapply Qle_trans; [apply IH|apply (min2_le_l x y)].
Qed.

Lemma Math_min_le_max (xs : list Q) (lo hi : Q) :
  Math_min xs = Some lo -> Math_max xs = Some hi -> (lo <= hi)%Q.
Proof.
  destruct xs as [|x tl]; cbn; [discriminate|].
  intros [= <-] [= <-].
  eapply Qle_trans; [apply fold_min2_le|apply fold_max2_ge].
Qed.

(** ** Completions *)

Lemma bind_Normal (A B : Type) (c : Completion A) (k : A -> Completion B)
    (b : B) :
  bind c k = Normal b -> exists a, c = Normal a /\ k a = Normal b.
Proof. destruct c as [a|e]; cbn; [eauto|discriminate]. Qed.

Lemma defined_Normal (A : Type) (o : option A) (a : A) :
  defined o = Normal a -> o = Some a.
Proof. destruct o; cbn; congruence. Qed.

(** Peels the binds of a computation known to complete normally. *)
Ltac invert_binds H :=
  repeat match type of H with
         | bind _ _ = Normal _ =>
             let a := fresh "a" in
             let Ha := fresh "Ha" in
             apply bind_Normal in H; destruct H as (a & Ha & H)
         end.

Lemma Array_map_Normal (A B : Type) (f : A -> Completion B)
    (xs : list A) (ys : list B) :
  Array_map f xs = Normal ys -> Forall2 (fun x y => f x = Normal y) xs ys.
Proof.
  revert ys. induction xs as [|x tl IH]; cbn; intros ys H.
  - injection H as <-. constructor.
  - destruct (f x) as [y|] eqn:Ex; cbn in H; [|discriminate].
    destruct (Array_map f tl) as [ys'|] eqn:Etl; cbn in H; [|discriminate].
    injection H as <-. constructor; auto.
Qed.

Lemma Array_map_total (A B : Type) (f : A -> Completion B) (xs : list A) :
  Forall (fun x => exists y, f x = Normal y) xs ->
  exists ys, Array_map f xs = Normal ys.
Proof.
  induction 1 as [|x tl [y Hy] _ [ys Hys]]; cbn.
  - now exists [].
  - exists (y :: ys). now rewrite Hy, Hys.
Qed.

Section WithHost.

Variable h : Host.

Local Abbreviation todayKey := (Notions.todayKey h).
Local Abbreviation dayKeys := (Notions.dayKeys h).
Local Abbreviation distinctDays := (Notions.distinctDays h).
Local Abbreviation bucket := (Notions.bucket h).
Local Abbreviation grouped := (Notions.grouped h).
Local Abbreviation sortedKeys := (Notions.sortedKeys h).
Local Abbreviation pushed := (Notions.pushed h).
Local Abbreviation startsAfterToday := (Notions.startsAfterToday h).
Local Abbreviation earliest := Notions.earliest.
Local Abbreviation daysBefore := (Notions.daysBefore h).

(** ** Single samples *)

Lemma transformHourlyItem_total (item : OWMForecastItem.t) :
  wellFormed item -> exists r, transformHourlyItem h item = Normal r.
Proof.
  unfold wellFormed, transformHourlyItem, weather0.
  destruct (OWMForecastItem.weather item) as [|w ws]; [congruence|].
  intros _. cbn. eauto.
Qed.

(** ** Grouping *)

Lemma grouped_snoc (items : list OWMForecastItem.t) (x : OWMForecastItem.t) :
  grouped (items ++ [x]) = groupItem h (grouped items) x.
Proof. unfold grouped. now rewrite fold_left_app. Qed.

Lemma bucket_snoc (k : jsstring) (items : list OWMForecastItem.t)
    (x : OWMForecastItem.t) :
  bucket k (items ++ [x])
  = bucket k items ++ (if String_eqb (itemDateKey h x) k then [x] else []).
Proof. unfold bucket. now rewrite filter_app. Qed.

Lemma bucket_own (first : OWMForecastItem.t)
    (others : list OWMForecastItem.t) :
  bucket (itemDateKey h first) (first :: others)
  = first :: bucket (itemDateKey h first) others.
Proof. unfold Notions.bucket. cbn [filter]. now rewrite String_eqb_refl. Qed.

(** Every bucket holds exactly the samples of its day, in input order. *)
Lemma grouped_get (items : list OWMForecastItem.t) (k : jsstring) :
  Map_get (grouped items) k
  = match bucket k items with [] => None | _ :: _ => Some (bucket k items) end.
Proof.
  induction items as [|x items IH] using rev_ind; [reflexivity|].
  rewrite grouped_snoc, bucket_snoc. unfold groupItem.
  destruct (String_eqb (itemDateKey h x) k) eqn:E.
  - apply String_eqb_eq in E. subst k.
    rewrite Map_get_set_same, IH.
    destruct (bucket (itemDateKey h x) items) as [|b bs]; reflexivity.
  - apply String_eqb_neq in E.
    rewrite Map_get_set_other by exact E.
    now rewrite app_nil_r.
Qed.

Lemma bucket_nonempty (k : jsstring) (items : list OWMForecastItem.t) :
  bucket k items <> [] <-> In k (dayKeys items).
Proof.
  unfold bucket, dayKeys. rewrite in_map_iff. split.
  - destruct (filter _ items) as [|b bs] eqn:E; [congruence|]. intros _.
    assert (Hb : In b (filter (fun item => String_eqb (itemDateKey h item) k) items))
      by (rewrite E; now left).
    apply filter_In in Hb. destruct Hb as [Hb Hk].
    apply String_eqb_eq in Hk. eauto.
  - intros (x & Hk & Hx) E.
    assert (Hin : In x (filter (fun item => String_eqb (itemDateKey h item) k) items)).
    { apply filter_In. split; [exact Hx|]. now apply String_eqb_eq. }
    rewrite E in Hin. contradiction.
Qed.

Lemma grouped_keys_In (items : list OWMForecastItem.t) (k : jsstring) :
  In k (Map_keys (grouped items)) <-> In k (dayKeys items).
Proof.
  rewrite Map_keys_get, grouped_get, <- bucket_nonempty.
  destruct (bucket k items); split; congruence.
Qed.

Lemma grouped_keys_NoDup (items : list OWMForecastItem.t) :
  NoDup (Map_keys (grouped items)).
Proof.
  induction items as [|x items IH] using rev_ind; [constructor|].
  rewrite grouped_snoc. unfold groupItem. now apply Map_keys_set_NoDup.
Qed.

(** ** The sorted keys *)

Lemma sortedKeys_sorted (items : list OWMForecastItem.t) :
  StronglySorted String_lt (sortedKeys items).
Proof. apply Array_sort_sorted, grouped_keys_NoDup. Qed.

Lemma sortedKeys_In (items : list OWMForecastItem.t) (k : jsstring) :
  In k (sortedKeys items) <-> In k (dayKeys items).
Proof. unfold sortedKeys. now rewrite Array_sort_In, grouped_keys_In. Qed.

Lemma sortedKeys_length (items : list OWMForecastItem.t) :
  length (sortedKeys items) = distinctDays items.
Proof.
  unfold distinctDays.
  assert (Hnd : NoDup (sortedKeys items))
    by apply sorted_NoDup, sortedKeys_sorted.
  pose proof (NoDup_nodup jsstring_dec (dayKeys items)) as Hnd'.
  apply Nat.le_antisymm; apply NoDup_incl_length; try assumption.
  - intros k Hk. apply nodup_In. now apply sortedKeys_In.
  - intros k Hk. apply sortedKeys_In. now apply nodup_In in Hk.
Qed.

(** The keys in front of a key of the sorted list are the days before
    its day. *)
Lemma daysBefore_length (items : list OWMForecastItem.t) (k : jsstring)
    (before after : list jsstring) :
  sortedKeys items = before ++ k :: after ->
  (forall x, In x before -> String_lt x k) ->
  (forall x, In x after -> String_lt k x) ->
  length before = daysBefore k items.
Proof.
  intros E Hb Ha. unfold Notions.daysBefore.
  pose proof (sorted_NoDup (sortedKeys_sorted items)) as Hnd.
  rewrite E in Hnd.
  apply Nat.le_antisymm; apply NoDup_incl_length.
  - exact (NoDup_app_remove_r _ _ Hnd).
  - intros x Hx. apply nodup_In, filter_In. split; [|now apply Hb].
    apply sortedKeys_In. rewrite E. apply in_or_app. now left.
  - apply NoDup_nodup.
  - intros x Hx. apply nodup_In, filter_In in Hx. destruct Hx as [Hx Hlt].
    apply sortedKeys_In in Hx. rewrite E in Hx.
    apply in_app_or in Hx. destruct Hx as [Hx|[<-|Hx]]; [exact Hx| |].
    + exfalso. exact (String_lt_irrefl Hlt).
    + exfalso. exact (String_lt_asym Hlt (Ha x Hx)).
Qed.

(** ** The representative sample *)

Lemma find_split (A : Type) (p : A -> bool) (l : list A) (x : A) :
  find p l = Some x ->
  exists before after,
    l = before ++ x :: after
    /\ Forall (fun y => p y = false) before /\ p x = true.
Proof.
  induction l as [|y tl IH]; cbn; [discriminate|].
  destruct (p y) eqn:E.
  - intros [= <-]. exists [], tl. auto.
  - intros H. destruct (IH H) as (before & after & -> & Hb & Hx).
    exists (y :: before), after. auto.
Qed.

Lemma find_none_Forall (A : Type) (p : A -> bool) (l : list A) :
  find p l = None <-> Forall (fun y => p y = false) l.
Proof.
  induction l as [|y tl IH]; cbn.
  - split; auto.
  - destruct (p y) eqn:E; split.
    + discriminate.
    + intros H. inversion H; congruence.
    + intros H. constructor; [exact E|]. now apply IH.
    + intros H. apply IH. now inversion H.
Qed.

Lemma find_first (A : Type) (p : A -> bool) (before after : list A) (x : A) :
  Forall (fun y => p y = false) before -> p x = true ->
  find p (before ++ x :: after) = Some x.
Proof.
  induction 1 as [|y tl Hy _ IH]; cbn; intros Hx.
  - now rewrite Hx.
  - rewrite Hy. now apply IH.
Qed.

(** [midday] picks the representative sample of the specification. *)
Lemma midday_representative (dayItems : list OWMForecastItem.t)
    (mid : OWMForecastItem.t) :
  midday dayItems = Some mid <-> representative dayItems mid.
Proof.
  unfold midday. fold atNoon. split.
  - destruct (find atNoon dayItems) as [item|] eqn:E.
    + intros [= <-].
      destruct (find_split _ _ E) as (before & after & -> & Hb & Hx).
      now apply representative_noon with before after.
    + intros H. apply representative_middle; [|exact H].
      now apply find_none_Forall.
  - intros [before after item -> Hb Hx|item Hnone Hnth].
    + now rewrite (@find_first _ atNoon before after item Hb Hx).
    + apply find_none_Forall in Hnone. now rewrite Hnone.
Qed.

(** ** One day *)

Lemma midday_In (dayItems : list OWMForecastItem.t) (mid : OWMForecastItem.t) :
  midday dayItems = Some mid -> In mid dayItems.
Proof.
  unfold midday.
  destruct (find _ dayItems) as [item|] eqn:E.
  - intros [= <-]. now apply find_some in E.
  - apply nth_error_In.
Qed.

Lemma midday_defined (dayItems : list OWMForecastItem.t) :
  dayItems <> [] -> exists mid, midday dayItems = Some mid.
Proof.
  intros Hne. unfold midday.
  destruct (find _ dayItems) as [item|]; [eauto|].
  destruct (nth_error dayItems (length dayItems / 2)) as [mid|] eqn:E; [eauto|].
  apply nth_error_None in E.
  destruct dayItems as [|x tl]; [congruence|].
  assert (length (x :: tl) / 2 < length (x :: tl))%nat
    by (apply Nat.div_lt; cbn; lia).
  lia.
Qed.

(** What a pushed [DayForecast] is made of. *)
Lemma dayForecast_Normal (date : jsstring) (dayItems : list OWMForecastItem.t)
    (f : DayForecast.t) :
  dayForecast h date dayItems = Normal f ->
  DayForecast.date f = date
  /\ (DayForecast.tempLow f <= DayForecast.tempHigh f)%Q
  /\ Array_map (transformHourlyItem h) dayItems = Normal (DayForecast.hourly f)
  /\ dayItems <> []
  /\ exists mid w,
       midday dayItems = Some mid
       /\ nth_error (OWMForecastItem.weather mid) 0 = Some w
       /\ DayForecast.condition f = OWMWeatherCondition.main w
       /\ DayForecast.description f = OWMWeatherCondition.description w
       /\ DayForecast.icon f = OWMWeatherCondition.icon w.
Proof.
  unfold dayForecast, weather0. intros H. invert_binds H.
  apply defined_Normal in Ha, Ha0, Ha1, Ha2.
  injection H as <-. cbn.
  repeat split.
  - apply Math_round_mono. exact (Math_min_le_max _ Ha0 Ha).
  - exact Ha3.
  - intros ->. discriminate.
  - exists a1, a2. auto.
Qed.

Lemma dayForecast_total (date : jsstring) (dayItems : list OWMForecastItem.t) :
  dayItems <> [] -> Forall wellFormed dayItems ->
  exists f, dayForecast h date dayItems = Normal f.
Proof.
  intros Hne Hwf. unfold dayForecast.
  destruct dayItems as [|x tl] eqn:Ed; [congruence|]. rewrite <- Ed in *.
  assert (Hmax : exists hi, Math_max
            (map (fun item => OWMMainData.temp (OWMForecastItem.main item)) dayItems)
            = Some hi) by (rewrite Ed; cbn; eauto).
  assert (Hmin : exists lo, Math_min
            (map (fun item => OWMMainData.temp (OWMForecastItem.main item)) dayItems)
            = Some lo) by (rewrite Ed; cbn; eauto).
  destruct Hmax as [hi ->], Hmin as [lo ->]. cbn.
  destruct (midday_defined Hne) as [mid Hmid]. rewrite Hmid. cbn.
  assert (Hw : wellFormed mid).
  { rewrite Forall_forall in Hwf. apply Hwf. now apply midday_In. }
  unfold weather0. unfold wellFormed in Hw.
  destruct (OWMForecastItem.weather mid) as [|w ws]; [congruence|]. cbn.
  destruct (@Array_map_total _ _ (transformHourlyItem h) dayItems) as [hourly ->].
  { eapply Forall_impl; [|exact Hwf]. intros a. apply transformHourlyItem_total. }
  cbn. eauto.
Qed.

(** ** The day loop *)

Lemma dayLoop_cons (g : Map (list OWMForecastItem.t)) (d : jsstring)
    (more : list jsstring) (acc : list DayForecast.t) :
  dayLoop h g (d :: more) acc
  = if (6 <=? length acc)%nat then Normal acc
    else bind (defined (Map_get g d)) (fun dayItems =>
         bind (dayForecast h d dayItems) (fun f =>
         dayLoop h g more (acc ++ [f]))).
Proof. reflexivity. Qed.

Lemma dayLoop_Normal (g : Map (list OWMForecastItem.t)) (ds : list jsstring)
    (acc out : list DayForecast.t) :
  dayLoop h g ds acc = Normal out ->
  exists fs, out = acc ++ fs
             /\ Forall2 (pushed g) (firstn (6 - length acc) ds) fs.
Proof.
  revert acc. induction ds as [|d more IH]; intros acc.
  - cbn. intros [= <-]. exists []. rewrite app_nil_r, firstn_nil. auto.
  - rewrite dayLoop_cons. destruct (6 <=? length acc)%nat eqn:E.
    + apply Nat.leb_le in E. intros [= <-]. exists [].
      replace (6 - length acc)%nat with 0%nat by lia.
      rewrite app_nil_r. auto.
    + apply Nat.leb_gt in E. intros H. invert_binds H.
      apply defined_Normal in Ha.
      apply IH in H. destruct H as (fs & -> & HF).
      exists (a0 :: fs). rewrite <- app_assoc. split; [reflexivity|].
      rewrite length_app in HF. cbn [length] in HF.
      replace (6 - length acc)%nat with (S (6 - (length acc + 1)))%nat by lia.
      rewrite firstn_cons. constructor; [|exact HF].
      exists a. auto.
Qed.

Lemma dayLoop_total (g : Map (list OWMForecastItem.t)) (ds : list jsstring)
    (acc : list DayForecast.t) :
  (forall d, In d ds ->
     exists dayItems, Map_get g d = Some dayItems
                      /\ dayItems <> [] /\ Forall wellFormed dayItems) ->
  exists out, dayLoop h g ds acc = Normal out.
Proof.
  revert acc. induction ds as [|d more IH]; intros acc Hall; [cbn; eauto|].
  rewrite dayLoop_cons.
  destruct (6 <=? length acc)%nat; [eauto|].
  destruct (Hall d (or_introl eq_refl)) as (dayItems & -> & Hne & Hwf).
  destruct (dayForecast_total d Hne Hwf) as [f Hf].
  cbn [defined bind]. rewrite Hf. cbn [bind].
  apply IH. intros d' Hd'. apply Hall. now right.
Qed.

(** ** The whole transformation *)

Lemma Forall2_weaken (A B : Type) (P Q : A -> B -> Prop)
    (xs : list A) (ys : list B) :
  Forall2 P xs ys ->
  (forall x y, In x xs -> P x y -> Q x y) ->
  Forall2 Q xs ys.
Proof.
  induction 1 as [|x y xs ys Hxy HF IH]; intros Himp; constructor.
  - apply Himp; [now left|exact Hxy].
  - apply IH. intros x' y' Hin. apply Himp. now right.
Qed.

Lemma Forall2_length_eq (A B : Type) (P : A -> B -> Prop)
    (xs : list A) (ys : list B) :
  Forall2 P xs ys -> length xs = length ys.
Proof. induction 1; cbn; congruence. Qed.

Lemma todayMissing_iff (items : list OWMForecastItem.t) :
  todayMissing (sortedKeys items) todayKey = true <-> startsAfterToday items.
Proof.
  pose proof (sortedKeys_sorted items) as Hs.
  pose proof (sortedKeys_In items) as Hin.
  unfold Notions.startsAfterToday, todayMissing, String_gtb.
  destruct (sortedKeys items) as [|k ks] eqn:E.
  - split; [discriminate|]. intros [Hne _].
    destruct items as [|x tl]; [congruence|].
    exfalso. apply (proj2 (Hin (itemDateKey h x))). now left.
  - inversion Hs as [|? ? _ Hall]; subst. rewrite Forall_forall in Hall.
    split.
    + intros Hk. split.
      * intros ->. apply (proj1 (Hin k)). now left.
      * intros item Hitem.
        destruct (proj2 (Hin (itemDateKey h item))) as [<-|Hks].
        { apply in_map_iff. eauto. }
        { exact Hk. }
        { exact (String_lt_trans Hk (Hall _ Hks)). }
    + intros [_ Hall'].
      assert (Hk : In k (dayKeys items)) by (apply Hin; now left).
      apply in_map_iff in Hk. destruct Hk as (item & <- & Hitem).
      now apply Hall'.
Qed.

Lemma todayMissing_false (items : list OWMForecastItem.t) :
  ~ startsAfterToday items ->
  todayMissing (sortedKeys items) todayKey = false.
Proof.
  intros Hn. destruct (todayMissing _ _) eqn:E; [|reflexivity].
  apply todayMissing_iff in E. contradiction.
Qed.

(** The bucket the day loop finds for a key of the input. *)
Lemma grouped_get_key (items : list OWMForecastItem.t) (k : jsstring) :
  In k (dayKeys items) ->
  Map_get (grouped items) k = Some (bucket k items)
  /\ bucket k items <> [].
Proof.
  intros Hk. apply bucket_nonempty in Hk. rewrite grouped_get.
  destruct (bucket k items); [congruence|]. split; [reflexivity|discriminate].
Qed.

Lemma bucket_wellFormed (items : list OWMForecastItem.t) (k : jsstring) :
  Forall wellFormed items -> Forall wellFormed (bucket k items).
Proof.
  rewrite !Forall_forall. intros Hwf x Hx.
  apply filter_In in Hx. now apply Hwf.
Qed.

(** Without a missing today: one forecast for each of the first six
    sorted keys, built from that key's bucket. *)
Lemma transform_regular (items : list OWMForecastItem.t)
    (out : list DayForecast.t) :
  ~ startsAfterToday items ->
  transformForecastData h items = Normal out ->
  Forall2 (fun d f => dayForecast h d (bucket d items) = Normal f)
          (firstn 6 (sortedKeys items)) out.
Proof.
  intros Hn. unfold transformForecastData.
  fold (grouped items). fold (sortedKeys items). fold todayKey.
  rewrite (todayMissing_false Hn). intros H.
  apply dayLoop_Normal in H. destruct H as (fs & -> & HF).
  cbn [length Nat.sub app] in *.
  eapply Forall2_weaken; [exact HF|].
  intros d f Hd (dayItems & Hget & Hf).
  apply In_firstn, sortedKeys_In, grouped_get_key in Hd.
  destruct Hd as [Hd _]. congruence.
Qed.

(** With today missing: the placeholder built from the first sample
    alone, then one forecast for each of the first five sorted keys. *)
Lemma transform_backfill (first : OWMForecastItem.t)
    (others : list OWMForecastItem.t) (out : list DayForecast.t) :
  startsAfterToday (first :: others) ->
  transformForecastData h (first :: others) = Normal out ->
  exists f0 fs,
    out = f0 :: fs
    /\ dayForecast h todayKey [first] = Normal f0
    /\ Forall2 (fun d f =>
                  dayForecast h d (bucket d (first :: others)) = Normal f)
               (firstn 5 (sortedKeys (first :: others))) fs.
Proof.
  intros Hs. set (items := first :: others) in *.
  unfold transformForecastData.
  fold (grouped items). fold (sortedKeys items). fold todayKey.
  rewrite (proj2 (todayMissing_iff items) Hs).
  cbn [nth_error defined bind items]. fold items. intros H.
  apply dayLoop_Normal in H. destruct H as (fs & -> & HF).
  cbn [length Nat.sub firstn app] in HF.
  inversion HF as [|d f0 ds fs' H0 HF']; subst.
  exists f0, fs'. split; [reflexivity|]. split.
  - destruct H0 as (dayItems & Hget & Hf).
    rewrite Map_get_set_same in Hget. congruence.
  - eapply Forall2_weaken; [exact HF'|].
    intros d f Hd (dayItems & Hget & Hf).
    apply In_firstn, sortedKeys_In in Hd.
    assert (Hne : todayKey <> d).
    { intros <-. apply in_map_iff in Hd. destruct Hd as (item & Hk & Hitem).
      destruct Hs as [_ Hs]. specialize (Hs item Hitem).
      rewrite Hk in Hs. exact (String_lt_irrefl Hs). }
    rewrite Map_get_set_other in Hget by exact Hne.
    apply grouped_get_key in Hd. destruct Hd as [Hd _]. congruence.
Qed.

(** On well-formed samples the transformation completes normally. *)
Lemma transform_total (items : list OWMForecastItem.t) :
  Forall wellFormed items ->
  exists out, transformForecastData h items = Normal out.
Proof.
  intros Hwf. unfold transformForecastData.
  fold (grouped items). fold (sortedKeys items). fold todayKey.
  destruct (todayMissing (sortedKeys items) todayKey) eqn:E.
  - apply todayMissing_iff in E. destruct E as [Hne Hall].
    destruct items as [|first others]; [congruence|].
    cbn [nth_error defined bind].
    apply dayLoop_total. intros d [<-|Hd].
    + exists [first]. rewrite Map_get_set_same.
      repeat split; [discriminate|]. constructor; [|constructor].
      now inversion Hwf.
    + apply sortedKeys_In in Hd.
      assert (Hne' : todayKey <> d).
      { intros <-. apply in_map_iff in Hd. destruct Hd as (item & Hk & Hitem).
        specialize (Hall item Hitem). rewrite Hk in Hall.
        exact (String_lt_irrefl Hall). }
      rewrite Map_get_set_other by exact Hne'.
      destruct (grouped_get_key _ _ Hd) as [Hget Hnonempty].
      exists (bucket d (first :: others)).
      repeat split; [exact Hget|exact Hnonempty|].
      now apply bucket_wellFormed.
  - apply dayLoop_total. intros d Hd. apply sortedKeys_In in Hd.
    destruct (grouped_get_key _ _ Hd) as [Hget Hnonempty].
    exists (bucket d items).
    repeat split; [exact Hget|exact Hnonempty|].
    now apply bucket_wellFormed.
Qed.

(** The dates of the forecasts are the keys they were built for. *)
Lemma forecast_dates (P : jsstring -> list OWMForecastItem.t)
    (ds : list jsstring) (fs : list DayForecast.t) :
  Forall2 (fun d f => dayForecast h d (P d) = Normal f) ds fs ->
  map DayForecast.date fs = ds.
Proof.
  induction 1 as [|d f ds fs Hf HF IH]; cbn; [reflexivity|].
  apply dayForecast_Normal in Hf. destruct Hf as [-> _]. now rewrite IH.
Qed.

Lemma earliest_firstn (n : nat) (items : list OWMForecastItem.t) :
  earliest n (dayKeys items) (firstn n (sortedKeys items)).
Proof.
  pose proof (sortedKeys_sorted items) as Hs.
  repeat split.
  - now apply sorted_firstn.
  - rewrite length_firstn, sortedKeys_length. reflexivity.
  - intros k Hk. now apply In_firstn, sortedKeys_In in Hk.
  - intros a b Ha Hb Hnb. apply sortedKeys_In in Hb.
    exact (@sorted_firstn_below n _ a b Hs Ha Hb Hnb).
Qed.

Lemma Forall2_In_r (A B : Type) (P : A -> B -> Prop)
    (xs : list A) (ys : list B) (y : B) :
  Forall2 P xs ys -> In y ys -> exists x, In x xs /\ P x y.
Proof.
  induction 1 as [|x y' xs ys Hxy HF IH]; cbn; [tauto|].
  intros [<-|Hy]; [eauto|].
  destruct (IH Hy) as (x' & Hx' & HP). eauto.
Qed.

(** The hourly records of a forecast: one per sample, in bucket order. *)
Lemma dayForecast_hourly (date : jsstring) (dayItems : list OWMForecastItem.t)
    (f : DayForecast.t) :
  dayForecast h date dayItems = Normal f ->
  Forall2 (fun item r => transformHourlyItem h item = Normal r)
          dayItems (DayForecast.hourly f).
Proof.
  intros Hf. apply dayForecast_Normal in Hf.
  destruct Hf as (_ & _ & Hmap & _). now apply Array_map_Normal.
Qed.

Lemma dayForecast_hourly_nonempty (date : jsstring)
    (dayItems : list OWMForecastItem.t) (f : DayForecast.t) :
  dayForecast h date dayItems = Normal f -> DayForecast.hourly f <> [].
Proof.
  intros Hf. pose proof (dayForecast_hourly _ _ Hf) as HF.
  apply dayForecast_Normal in Hf. destruct Hf as (_ & _ & _ & Hne & _).
  intros E. rewrite E in HF. inversion HF. congruence.
Qed.

(** The shape of every normal result: forecasts of non-empty buckets for
    the first six keys of a strictly ascending list. *)
Lemma transform_shape (items : list OWMForecastItem.t)
    (out : list DayForecast.t) :
  transformForecastData h items = Normal out ->
  exists (ds : list jsstring) (B : jsstring -> list OWMForecastItem.t),
    StronglySorted String_lt ds
    /\ Forall2 (fun d f => dayForecast h d (B d) = Normal f) (firstn 6 ds) out.
Proof.
  intros H.
  destruct (todayMissing (sortedKeys items) todayKey) eqn:E.
  - apply todayMissing_iff in E.
    destruct items as [|first others]; [destruct E; congruence|].
    destruct (transform_backfill E H) as (f0 & fs & -> & Hf0 & HF).
    exists (todayKey :: sortedKeys (first :: others)),
      (fun d => if String_eqb d todayKey then [first]
                else bucket d (first :: others)).
    split.
    + constructor; [apply sortedKeys_sorted|].
      apply Forall_forall. intros k Hk. apply sortedKeys_In in Hk.
      apply in_map_iff in Hk. destruct Hk as (item & <- & Hitem).
      now apply E.
    + change (firstn 6 (todayKey :: sortedKeys (first :: others)))
        with (todayKey :: firstn 5 (sortedKeys (first :: others))).
      constructor.
      * now rewrite String_eqb_refl.
      * eapply Forall2_weaken; [exact HF|]. cbn beta.
        intros d f Hd Hf. apply In_firstn, sortedKeys_In in Hd.
        replace (String_eqb d todayKey) with false; [exact Hf|].
        symmetry. apply String_eqb_neq. intros ->.
        apply in_map_iff in Hd. destruct Hd as (item & Hk & Hitem).
        destruct E as [_ E]. specialize (E item Hitem). rewrite Hk in E.
        exact (String_lt_irrefl E).
  - assert (Hn : ~ startsAfterToday items).
    { intros Hs. apply todayMissing_iff in Hs. congruence. }
    exists (sortedKeys items), (fun d => bucket d items).
    split; [apply sortedKeys_sorted|]. now apply transform_regular.
Qed.

(** A list whose samples share one day has that day as its only key. *)
Lemma sortedKeys_single (items : list OWMForecastItem.t) (k : jsstring) :
  items <> [] ->
  (forall item, In item items -> itemDateKey h item = k) ->
  sortedKeys items = [k] /\ bucket k items = items.
Proof.
  intros Hne Hall. split.
  - pose proof (sorted_NoDup (sortedKeys_sorted items)) as Hnd.
    assert (Hin : forall x, In x (sortedKeys items) <-> x = k).
    { intros x. rewrite sortedKeys_In. unfold Notions.dayKeys.
      rewrite in_map_iff. split.
      - intros (item & <- & Hitem). now apply Hall.
      - intros ->. destruct items as [|x0 tl]; [congruence|].
        exists x0. split; [apply Hall|]; now left. }
    destruct (sortedKeys items) as [|a [|b t]].
    + destruct (proj2 (Hin k) eq_refl).
    + f_equal. apply Hin. now left.
    + assert (a = k) by (apply Hin; now left).
      assert (b = k) by (apply Hin; right; now left).
      subst. inversion Hnd as [|? ? Hnin _]; subst.
      destruct Hnin. now left.
  - unfold Notions.bucket. clear Hne.
    induction items as [|x tl IH]; cbn; [reflexivity|].
    rewrite (Hall x) by now left. rewrite String_eqb_refl.
    f_equal. apply IH. intros item Hitem. apply Hall. now right.
Qed.

(** The result on samples of a single day. *)
Lemma single_day_forecast (first : OWMForecastItem.t)
    (others : list OWMForecastItem.t) (k : jsstring) :
  Forall wellFormed (first :: others) ->
  (forall item, In item (first :: others) -> itemDateKey h item = k) ->
  exists f,
    dayForecast h k (first :: others) = Normal f
    /\ (~ String_lt todayKey k ->
         transformForecastData h (first :: others) = Normal [f])
    /\ (String_lt todayKey k ->
         exists f0, transformForecastData h (first :: others) = Normal [f0; f]
                    /\ dayForecast h todayKey [first] = Normal f0).
Proof.
  intros Hwf Hall. set (items := first :: others) in *.
  assert (Hne : items <> []) by discriminate.
  destruct (sortedKeys_single Hne Hall) as [Hkeys Hbucket].
  destruct (dayForecast_total k Hne Hwf) as [f Hf].
  destruct (transform_total Hwf) as [out Hout].
  exists f. split; [exact Hf|]. split.
  - intros Hn.
    assert (Hreg : ~ startsAfterToday items).
    { intros [_ Hs]. apply Hn. rewrite <- (Hall first) by now left.
      apply Hs. now left. }
    pose proof (transform_regular Hreg Hout) as HF.
    rewrite Hkeys in HF. cbn [firstn] in HF.
    inversion HF as [|? f' ? ? Hf' HF']; subst. inversion HF'; subst.
    rewrite Hbucket in Hf'. congruence.
  - intros Hlt.
    assert (Hs : startsAfterToday items).
    { split; [exact Hne|]. intros item Hitem. now rewrite (Hall item Hitem). }
    destruct (transform_backfill Hs Hout) as (f0 & fs & -> & Hf0 & HF).
    fold items in HF. rewrite Hkeys in HF. cbn [firstn] in HF.
    inversion HF as [|? f' ? ? Hf' HF']; subst. inversion HF'; subst.
    rewrite Hbucket in Hf'. exists f0. split; [congruence|exact Hf0].
Qed.

(** Where a returned summary comes from: the bucket of its date, or, for
    today's placeholder, the first sample alone. *)
Lemma transform_members (items : list OWMForecastItem.t)
    (out : list DayForecast.t) (f : DayForecast.t) :
  transformForecastData h items = Normal out -> In f out ->
  dayForecast h (DayForecast.date f) (bucket (DayForecast.date f) items)
  = Normal f
  \/ (startsAfterToday items
      /\ DayForecast.date f = todayKey
      /\ dayForecast h (DayForecast.date f) (firstn 1 items) = Normal f).
Proof.
  intros H Hf.
  destruct (todayMissing (sortedKeys items) todayKey) eqn:E.
  - apply todayMissing_iff in E.
    destruct items as [|first others]; [destruct E; congruence|].
    destruct (transform_backfill E H) as (f0 & fs & -> & Hf0 & HF).
    destruct Hf as [<-|Hf].
    + right. pose proof (dayForecast_Normal _ _ Hf0) as [Hd _].
      rewrite Hd. cbn [firstn]. auto.
    + left. destruct (Forall2_In_r f HF Hf) as (d & _ & Hd).
      pose proof (dayForecast_Normal _ _ Hd) as [-> _]. exact Hd.
  - assert (Hn : ~ startsAfterToday items).
    { intros Hs. apply todayMissing_iff in Hs. congruence. }
    left. pose proof (transform_regular Hn H) as HF.
    destruct (Forall2_In_r f HF Hf) as (d & _ & Hd).
    pose proof (dayForecast_Normal _ _ Hd) as [-> _]. exact Hd.
Qed.

Lemma bucket_all (items : list OWMForecastItem.t) (k : jsstring) :
  (forall item, In item items -> itemDateKey h item = k) ->
  bucket k items = items.
Proof.
  unfold Notions.bucket.
  induction items as [|x tl IH]; cbn; intros Hall; [reflexivity|].
  rewrite (Hall x) by now left. rewrite String_eqb_refl.
  f_equal. apply IH. intros item Hitem. apply Hall. now right.
Qed.

End WithHost.

End WeatherFacts.

(* ===================================================================== *)
(** * The forecast aggregator: properties                                 *)
(* ===================================================================== *)

Module Aggregator.

Import Notions HostFacts WeatherService WeatherFacts Examples.

(** C6. [transformForecastData] applied to the empty sample list returns
    the empty sequence of summaries, and it does so by completing
    normally: nothing is thrown. *)
Theorem empty_list_empty_forecast (h : Host) :
  transformForecastData h [] = Normal [].
Proof. reflexivity. Qed.

(** Days are local: the sample of 16 January, 03:00 UTC, falls on the
    15th six hours behind UTC, whatever its [dt_txt] says. *)
Lemma grouping_is_local :
  itemDateKey lateEvening tomorrow0300 = str "2024-01-16"
  /\ itemDateKey (centralHost 1705361400000) tomorrow0300 = str "2024-01-15"
  /\ todayKey (centralHost 1705361400000) = str "2024-01-15".
Proof. repeat split; vm_compute; reflexivity. Qed.

(** Why the statements below speak of well-formed samples: on an item
    without a primary condition the read of [weather[0].main] throws. *)
Lemma item_without_condition_throws :
  transformForecastData morning [withoutCondition] = Throw TypeError
  /\ transformHourlyItem morning withoutCondition = Throw TypeError.
Proof. split; vm_compute; reflexivity. Qed.

(** C4. Whatever the sample list, every summary of a returned sequence has
    [tempHigh >= tempLow] and at least one hourly record; the sequence has
    at most six entries, its date keys ascend strictly, and no date key
    occurs twice. *)
Theorem forecast_invariants (h : Host) (items : list OWMForecastItem.t)
    (out : list DayForecast.t) :
  transformForecastData h items = Normal out ->
  Forall (fun f => (DayForecast.tempLow f <= DayForecast.tempHigh f)%Q
                   /\ DayForecast.hourly f <> []) out
  /\ (length out <= 6)%nat
  /\ StronglySorted String_lt (map DayForecast.date out)
  /\ NoDup (map DayForecast.date out).
Proof.
  intros H. destruct (transform_shape _ _ H) as (ds & B & Hs & HF).
  assert (Hdates : map DayForecast.date out = firstn 6 ds)
    by exact (forecast_dates _ _ HF).
  assert (Hsorted : StronglySorted String_lt (map DayForecast.date out))
    by (rewrite Hdates; now apply sorted_firstn).
  repeat split.
  - apply Forall_forall. intros f Hf.
    destruct (Forall2_In_r f HF Hf) as (d & _ & Hd). split.
    + now apply dayForecast_Normal in Hd.
    + exact (dayForecast_hourly_nonempty _ _ _ Hd).
  - rewrite <- (Forall2_length_eq HF), length_firstn. apply Nat.le_min_l.
  - exact Hsorted.
  - now apply sorted_NoDup.
Qed.

Lemma forecast_invariants_witness :
  let out := valueOf (transformForecastData morning
                        [at0900; at1200; tomorrow0000; dayAfter0000]) in
  Forall (fun f => (DayForecast.tempLow f <= DayForecast.tempHigh f)%Q
                   /\ DayForecast.hourly f <> []) out
  /\ (length out <= 6)%nat
  /\ StronglySorted String_lt (map DayForecast.date out)
  /\ NoDup (map DayForecast.date out).
Proof.
  intros out.
  apply (@forecast_invariants morning
           [at0900; at1200; tomorrow0000; dayAfter0000]).
  vm_compute. reflexivity.
Defined.

(** C1, as stated, fails when today has to be put in front: one sample
    dated tomorrow spans a single day, and two summaries come back. *)
Lemma one_day_two_summaries :
  distinctDays lateEvening [tomorrow0000] = 1%nat
  /\ exists f0 f1,
       transformForecastData lateEvening [tomorrow0000] = Normal [f0; f1]
       /\ DayForecast.date f0 = str "2024-01-15"
       /\ DayForecast.date f1 = str "2024-01-16".
Proof.
  split; [vm_compute; reflexivity|].
  do 2 eexists. split; [vm_compute; reflexivity|].
  split; vm_compute; reflexivity.
Qed.

(** C1 (amended). For every list of well-formed samples spanning [N]
    distinct local calendar days: unless the list starts after today, the
    summaries returned are [min N 6] in number and stand for the earliest
    six distinct date keys in ascending order; when it starts after today,
    they are [min (N + 1) 6] in number: today's placeholder, then the
    earliest five distinct date keys in ascending order. *)
Theorem forecast_days (h : Host) (items : list OWMForecastItem.t) :
  Forall wellFormed items ->
  exists out,
    transformForecastData h items = Normal out
    /\ (~ startsAfterToday h items ->
        length out = Nat.min (distinctDays h items) 6
        /\ earliest 6 (dayKeys h items) (map DayForecast.date out))
    /\ (startsAfterToday h items ->
        length out = Nat.min (distinctDays h items + 1) 6
        /\ exists kept,
             map DayForecast.date out = todayKey h :: kept
             /\ earliest 5 (dayKeys h items) kept).
Proof.
  intros Hwf. destruct (transform_total h Hwf) as [out Hout].
  exists out. split; [exact Hout|]. split.
  - intros Hn. pose proof (transform_regular Hn Hout) as HF.
    split.
    + rewrite <- (Forall2_length_eq HF), length_firstn, sortedKeys_length.
      apply Nat.min_comm.
    + rewrite (forecast_dates _ _ HF). apply earliest_firstn.
  - intros Hs. destruct items as [|first others]; [destruct Hs; congruence|].
    destruct (transform_backfill Hs Hout) as (f0 & fs & -> & Hf0 & HF).
    split.
    + cbn [length]. rewrite <- (Forall2_length_eq HF), length_firstn.
      rewrite sortedKeys_length. lia.
    + exists (firstn 5 (sortedKeys h (first :: others))). split.
      * cbn [map]. rewrite (forecast_dates _ _ HF).
        apply dayForecast_Normal in Hf0. destruct Hf0 as [-> _]. reflexivity.
      * apply earliest_firstn.
Qed.

Lemma forecast_days_witness :
  exists out,
    transformForecastData morning [at0900; at1200; tomorrow0000] = Normal out
    /\ (~ startsAfterToday morning [at0900; at1200; tomorrow0000] ->
        length out
        = Nat.min (distinctDays morning [at0900; at1200; tomorrow0000]) 6
        /\ earliest 6 (dayKeys morning [at0900; at1200; tomorrow0000])
                    (map DayForecast.date out))
    /\ (startsAfterToday morning [at0900; at1200; tomorrow0000] ->
        length out
        = Nat.min (distinctDays morning [at0900; at1200; tomorrow0000] + 1) 6
        /\ exists kept,
             map DayForecast.date out = todayKey morning :: kept
             /\ earliest 5 (dayKeys morning [at0900; at1200; tomorrow0000])
                         kept).
Proof.
  apply (@forecast_days morning [at0900; at1200; tomorrow0000]).
  repeat constructor; discriminate.
Defined.

(** C2. For every non-empty list of well-formed samples whose date keys
    are all strictly greater than today's key, the first summary returned
    bears today's key and has exactly one hourly record, the one derived
    from the first sample of the input; counting it, the summaries are
    [min (N + 1) 6] in number, so the placeholder takes one of the six
    places. *)
Theorem today_backfill (h : Host) (first : OWMForecastItem.t)
    (others : list OWMForecastItem.t) :
  Forall wellFormed (first :: others) ->
  (forall item, In item (first :: others) ->
                String_lt (todayKey h) (itemDateKey h item)) ->
  exists f0 fs r,
    transformForecastData h (first :: others) = Normal (f0 :: fs)
    /\ DayForecast.date f0 = todayKey h
    /\ transformHourlyItem h first = Normal r
    /\ DayForecast.hourly f0 = [r]
    /\ length (f0 :: fs) = Nat.min (distinctDays h (first :: others) + 1) 6.
Proof.
  intros Hwf Hall.
  assert (Hs : startsAfterToday h (first :: others))
    by (split; [discriminate|exact Hall]).
  destruct (transform_total h Hwf) as [out Hout].
  destruct (transform_backfill Hs Hout) as (f0 & fs & -> & Hf0 & HF).
  pose proof (dayForecast_hourly _ _ _ Hf0) as Hh.
  inversion Hh as [|? r ? rs Hr Hrs Ei Er]; subst. inversion Hrs; subst.
  exists f0, fs, r. repeat split.
  - exact Hout.
  - now apply dayForecast_Normal in Hf0.
  - exact Hr.
  - congruence.
  - cbn [length]. rewrite <- (Forall2_length_eq HF), length_firstn.
    rewrite sortedKeys_length. lia.
Qed.

Lemma today_backfill_witness :
  exists f0 fs r,
    transformForecastData lateEvening [tomorrow0000; tomorrow0300; dayAfter0000]
    = Normal (f0 :: fs)
    /\ DayForecast.date f0 = todayKey lateEvening
    /\ transformHourlyItem lateEvening tomorrow0000 = Normal r
    /\ DayForecast.hourly f0 = [r]
    /\ length (f0 :: fs)
       = Nat.min (distinctDays lateEvening
                    [tomorrow0000; tomorrow0300; dayAfter0000] + 1) 6.
Proof.
  apply (@today_backfill lateEvening tomorrow0000 [tomorrow0300; dayAfter0000]).
  - repeat constructor; discriminate.
  - intros item [<-|[<-|[<-|[]]]]; vm_compute; reflexivity.
Defined.

(** C3, as stated, fails when the single day lies after today: two
    samples of tomorrow give two summaries, today's placeholder first. *)
Lemma single_future_day_two_summaries :
  (forall item, In item [tomorrow0000; tomorrow0300] ->
                itemDateKey lateEvening item = str "2024-01-16")
  /\ exists f0 f1,
       transformForecastData lateEvening [tomorrow0000; tomorrow0300]
       = Normal [f0; f1]
       /\ DayForecast.date f0 = str "2024-01-15"
       /\ length (DayForecast.hourly f0) = 1%nat
       /\ DayForecast.date f1 = str "2024-01-16"
       /\ length (DayForecast.hourly f1) = 2%nat.
Proof.
  split.
  - intros item [<-|[<-|[]]]; vm_compute; reflexivity.
  - do 2 eexists. split; [vm_compute; reflexivity|].
    repeat split; vm_compute; reflexivity.
Qed.

(** C3 (amended). For every non-empty list of well-formed samples that all
    fall on one local calendar day, the summary of that day has as many
    hourly records as the list has samples and [tempHigh >= tempLow]; it
    is the only summary returned unless the day's key is strictly greater
    than today's key, in which case it is the second of two, after today's
    placeholder with its single hourly record. *)
Theorem single_day (h : Host) (first : OWMForecastItem.t)
    (others : list OWMForecastItem.t) (k : jsstring) :
  Forall wellFormed (first :: others) ->
  (forall item, In item (first :: others) -> itemDateKey h item = k) ->
  exists f,
    DayForecast.date f = k
    /\ length (DayForecast.hourly f) = length (first :: others)
    /\ (DayForecast.tempLow f <= DayForecast.tempHigh f)%Q
    /\ (~ String_lt (todayKey h) k ->
        transformForecastData h (first :: others) = Normal [f])
    /\ (String_lt (todayKey h) k ->
        exists f0,
          transformForecastData h (first :: others) = Normal [f0; f]
          /\ DayForecast.date f0 = todayKey h
          /\ length (DayForecast.hourly f0) = 1%nat).
Proof.
  intros Hwf Hall.
  destruct (single_day_forecast h Hwf Hall) as (f & Hf & Hreg & Hback).
  exists f. pose proof (dayForecast_hourly _ _ _ Hf) as Hh.
  pose proof (dayForecast_Normal _ _ _ Hf) as (Hdate & Hle & _).
  repeat split.
  - exact Hdate.
  - symmetry. exact (Forall2_length_eq Hh).
  - exact Hle.
  - exact Hreg.
  - intros Hlt. destruct (Hback Hlt) as (f0 & Hout & Hf0).
    exists f0. split; [exact Hout|].
    pose proof (dayForecast_hourly _ _ _ Hf0) as Hh0.
    apply dayForecast_Normal in Hf0. destruct Hf0 as [-> _].
    split; [reflexivity|]. symmetry. exact (Forall2_length_eq Hh0).
Qed.

Lemma single_day_witness :
  exists f,
    DayForecast.date f = str "2024-01-15"
    /\ length (DayForecast.hourly f) = length [at0900; at1500; at1800]
    /\ (DayForecast.tempLow f <= DayForecast.tempHigh f)%Q
    /\ (~ String_lt (todayKey morning) (str "2024-01-15") ->
        transformForecastData morning [at0900; at1500; at1800] = Normal [f])
    /\ (String_lt (todayKey morning) (str "2024-01-15") ->
        exists f0,
          transformForecastData morning [at0900; at1500; at1800]
          = Normal [f0; f]
          /\ DayForecast.date f0 = todayKey morning
          /\ length (DayForecast.hourly f0) = 1%nat).
Proof.
  apply (@single_day morning at0900 [at1500; at1800] (str "2024-01-15")).
  - repeat constructor; discriminate.
  - intros item [<-|[<-|[<-|[]]]]; vm_compute; reflexivity.
Defined.

(** C10. Whenever today is put in front, the first sample stays in the
    bucket of its own day, so its hourly record is returned twice: it is
    the only record of today's placeholder, and it is the first record of
    the summary of its own day, which lists the records of all the
    samples of that day.  That summary is among those returned exactly
    when fewer than five days of the input come before the sample's day
    (the placeholder takes one of the six places); it then stands in the
    tail, after the summaries of those earlier days and before those of
    later days, so that no other summary bears its date key.  With five
    or more days before it, no returned summary bears the sample's date
    key. *)
Theorem backfill_keeps_first_sample (h : Host) (first : OWMForecastItem.t)
    (others : list OWMForecastItem.t) :
  Forall wellFormed (first :: others) ->
  (forall item, In item (first :: others) ->
                String_lt (todayKey h) (itemDateKey h item)) ->
  exists f0 fs r,
    transformForecastData h (first :: others) = Normal (f0 :: fs)
    /\ transformHourlyItem h first = Normal r
    /\ DayForecast.date f0 = todayKey h
    /\ DayForecast.hourly f0 = [r]
    /\ ((daysBefore h (itemDateKey h first) (first :: others) < 5)%nat ->
        exists before f after more,
          fs = before ++ f :: after
          /\ length before
             = daysBefore h (itemDateKey h first) (first :: others)
          /\ DayForecast.date f = itemDateKey h first
          /\ DayForecast.hourly f = r :: more
          /\ Forall2 (fun item record =>
                        transformHourlyItem h item = Normal record)
                     (bucket h (itemDateKey h first) (first :: others))
                     (DayForecast.hourly f)
          /\ (forall g, In g before ->
                String_lt (DayForecast.date g) (itemDateKey h first))
          /\ (forall g, In g after ->
                String_lt (itemDateKey h first) (DayForecast.date g)))
    /\ ((5 <= daysBefore h (itemDateKey h first) (first :: others))%nat ->
        ~ In (itemDateKey h first) (map DayForecast.date (f0 :: fs))).
Proof.
  intros Hwf Hall.
  assert (Hs : startsAfterToday h (first :: others))
    by (split; [discriminate|exact Hall]).
  destruct (transform_total h Hwf) as [out Hout].
  destruct (transform_backfill Hs Hout) as (f0 & fs & -> & Hf0 & HF).
  pose proof (dayForecast_hourly _ _ _ Hf0) as Hh.
  inversion Hh as [|? r ? rs Hr Hrs Ei Er]; subst. inversion Hrs; subst.
  pose proof (dayForecast_Normal _ _ _ Hf0) as (Hdate0 & _).
  set (key := itemDateKey h first) in *.
  assert (Hkey : In key (sortedKeys h (first :: others)))
    by (apply sortedKeys_In; now left).
  destruct (@sorted_split _ _ (sortedKeys_sorted h (first :: others)) Hkey)
    as (earlier & later & Esplit & Hearlier & Hlater).
  pose proof (@daysBefore_length h _ _ _ _ Esplit Hearlier Hlater) as Hcount.
  exists f0, fs, r. repeat split.
  - exact Hout.
  - exact Hr.
  - exact Hdate0.
  - congruence.
  - intros Hfew. rewrite <- Hcount in Hfew.
    rewrite Esplit, firstn_app in HF.
    rewrite (firstn_all2 (n := 5) earlier) in HF by lia.
    destruct (5 - length earlier)%nat as [|m] eqn:Em; [lia|].
    cbn [firstn] in HF.
    apply Forall2_app_inv_l in HF.
    destruct HF as (before & rest & Hbefore & Hrest & ->).
    inversion Hrest as [|? f ? after Hf Hafter]; subst.
    pose proof (dayForecast_hourly _ _ _ Hf) as Hown.
    pose proof (dayForecast_Normal _ _ _ Hf) as (Hdate & _).
    assert (Hfirst : exists more, DayForecast.hourly f = r :: more).
    { unfold key in Hown. rewrite bucket_own in Hown.
      inversion Hown as [|? r' ? more Hr' _]; subst.
      exists more. congruence. }
    destruct Hfirst as [more Hmore].
    exists before, f, after, more. repeat split.
    + rewrite <- Hcount. symmetry. exact (Forall2_length_eq Hbefore).
    + exact Hdate.
    + exact Hmore.
    + exact Hown.
    + intros g Hg. destruct (Forall2_In_r g Hbefore Hg) as (d & Hd & Hgd).
      apply dayForecast_Normal in Hgd. destruct Hgd as [-> _].
      now apply Hearlier.
    + intros g Hg. destruct (Forall2_In_r g Hafter Hg) as (d & Hd & Hgd).
      apply dayForecast_Normal in Hgd. destruct Hgd as [-> _].
      apply Hlater. exact (In_firstn _ _ _ Hd).
  - intros Hmany. rewrite <- Hcount in Hmany. cbn [map]. intros [Hin|Hin].
    + rewrite Hdate0 in Hin.
      specialize (Hall first (or_introl eq_refl)). fold key in Hall.
      rewrite <- Hin in Hall. exact (String_lt_irrefl Hall).
    + rewrite (@forecast_dates h _ _ _ HF), Esplit, firstn_app in Hin.
      replace (5 - length earlier)%nat with 0%nat in Hin by lia.
      rewrite firstn_O, app_nil_r in Hin.
      apply In_firstn in Hin.
      exact (String_lt_irrefl (Hearlier key Hin)).
Qed.

Lemma backfill_keeps_first_sample_witness :
  exists f0 fs r,
    transformForecastData lateEvening [tomorrow0000; tomorrow0300]
    = Normal (f0 :: fs)
    /\ transformHourlyItem lateEvening tomorrow0000 = Normal r
    /\ DayForecast.date f0 = todayKey lateEvening
    /\ DayForecast.hourly f0 = [r]
    /\ ((daysBefore lateEvening (itemDateKey lateEvening tomorrow0000)
           [tomorrow0000; tomorrow0300] < 5)%nat ->
        exists before f after more,
          fs = before ++ f :: after
          /\ length before
             = daysBefore lateEvening (itemDateKey lateEvening tomorrow0000)
                 [tomorrow0000; tomorrow0300]
          /\ DayForecast.date f = itemDateKey lateEvening tomorrow0000
          /\ DayForecast.hourly f = r :: more
          /\ Forall2 (fun item record =>
                        transformHourlyItem lateEvening item = Normal record)
                     (bucket lateEvening
                        (itemDateKey lateEvening tomorrow0000)
                        [tomorrow0000; tomorrow0300])
                     (DayForecast.hourly f)
          /\ (forall g, In g before ->
                String_lt (DayForecast.date g)
                          (itemDateKey lateEvening tomorrow0000))
          /\ (forall g, In g after ->
                String_lt (itemDateKey lateEvening tomorrow0000)
                          (DayForecast.date g)))
    /\ ((5 <= daysBefore lateEvening (itemDateKey lateEvening tomorrow0000)
                [tomorrow0000; tomorrow0300])%nat ->
        ~ In (itemDateKey lateEvening tomorrow0000)
             (map DayForecast.date (f0 :: fs))).
Proof.
  apply (@backfill_keeps_first_sample lateEvening tomorrow0000 [tomorrow0300]).
  - repeat constructor; discriminate.
  - intros item [<-|[<-|[]]]; vm_compute; reflexivity.
Defined.

(** Both cases occur.  With two samples of tomorrow no day comes before
    the first sample's, and its record is in both summaries returned.
    With the first sample a week ahead and one sample for each of the six
    days before it, the six places go to today and the first five of
    those days, and the record of the first sample is in the placeholder
    only. *)
Lemma first_sample_twice_or_once :
  daysBefore lateEvening (itemDateKey lateEvening tomorrow0000)
    [tomorrow0000; tomorrow0300] = 0%nat
  /\ map (fun f => length (DayForecast.hourly f))
         (valueOf (transformForecastData lateEvening
                     [tomorrow0000; tomorrow0300]))
     = [1; 2]%nat
  /\ daysBefore lateEvening (itemDateKey lateEvening (hd tomorrow0000 weekAhead))
       weekAhead = 6%nat
  /\ map DayForecast.date
         (valueOf (transformForecastData lateEvening weekAhead))
     = [str "2024-01-15"; str "2024-01-16"; str "2024-01-17";
        str "2024-01-18"; str "2024-01-19"; str "2024-01-20"]
  /\ itemDateKey lateEvening (hd tomorrow0000 weekAhead) = str "2024-01-22".
Proof. repeat split; vm_compute; reflexivity. Qed.

(** C5, as stated, fails on its gloss of the fallback index: in a bucket
    of two samples, neither at noon, the representative is the second,
    the later of the two middle elements, not the earlier. *)
Lemma representative_is_later_middle :
  find atNoon [at0900; at1500] = None
  /\ midday [at0900; at1500] = Some at1500
  /\ earlierMiddle [at0900; at1500] = Some at0900
  /\ laterMiddle [at0900; at1500] = Some at1500
  /\ OWMWeatherCondition.main (conditionOf "Clear")
     <> OWMWeatherCondition.main (conditionOf "Rain")
  /\ exists f,
       transformForecastData morning [at0900; at1500] = Normal [f]
       /\ DayForecast.condition f = str "Rain".
Proof.
  repeat split; try (vm_compute; reflexivity).
  - vm_compute. discriminate.
  - eexists. split; vm_compute; reflexivity.
Qed.

(** C5 (amended). Every summary returned is the forecast of a bucket of
    same-day samples (or, for today's placeholder, of the first sample
    alone), and its condition, description and icon are those of the
    bucket's representative sample: the first sample whose [dt_txt]
    contains [12:00:00], or without one the sample at index
    floor(length / 2), which in a bucket of even length [2 * (k + 1)] is
    index [k + 1], the later of the two middle elements.  When all samples
    fall on the summary's day the bucket is the whole list; so for three
    same-day samples at 09:00, 12:00 and 15:00 the representative is the
    12:00 sample. *)
Theorem representative_sample (h : Host) (items : list OWMForecastItem.t)
    (out : list DayForecast.t) (f : DayForecast.t) :
  transformForecastData h items = Normal out ->
  In f out ->
  exists dayItems mid w,
    dayForecast h (DayForecast.date f) dayItems = Normal f
    /\ (dayItems = bucket h (DayForecast.date f) items
        \/ (startsAfterToday h items
            /\ DayForecast.date f = todayKey h
            /\ dayItems = firstn 1 items))
    /\ ((forall item, In item items ->
                      itemDateKey h item = DayForecast.date f) ->
        dayItems = items)
    /\ representative dayItems mid
    /\ nth_error (OWMForecastItem.weather mid) 0 = Some w
    /\ DayForecast.condition f = OWMWeatherCondition.main w
    /\ DayForecast.description f = OWMWeatherCondition.description w
    /\ DayForecast.icon f = OWMWeatherCondition.icon w
    /\ (forall k, Forall (fun item => atNoon item = false) dayItems ->
                  length dayItems = (2 * (k + 1))%nat ->
                  nth_error dayItems (k + 1) = Some mid)
    /\ (forall a b c, dayItems = [a; b; c] ->
                      atNoon a = false -> atNoon b = true -> mid = b).
Proof.
  intros H Hf.
  assert (Hsrc : exists dayItems,
            dayForecast h (DayForecast.date f) dayItems = Normal f
            /\ (dayItems = bucket h (DayForecast.date f) items
                \/ (startsAfterToday h items
                    /\ DayForecast.date f = todayKey h
                    /\ dayItems = firstn 1 items))).
  { destruct (@transform_members h items out f H Hf) as [Hd|(Hs & Ht & Hd)];
      eauto 6. }
  destruct Hsrc as (dayItems & Hd & Hsrc).
  pose proof (dayForecast_Normal _ _ _ Hd)
    as (_ & _ & _ & _ & mid & w & Hmid & Hw & Hc & Hde & Hi).
  exists dayItems, mid, w.
  repeat (split; [assumption|]).
  split; [|repeat split; try assumption].
  - intros Hall. destruct Hsrc as [->|(Hs & Ht & ->)].
    + now apply bucket_all.
    + exfalso. destruct Hs as [Hne Hs].
      destruct items as [|first others]; [congruence|].
      specialize (Hs first (or_introl eq_refl)).
      rewrite (Hall first (or_introl eq_refl)), Ht in Hs.
      exact (String_lt_irrefl Hs).
  - now apply midday_representative.
  - intros k Hnone Hlen. unfold midday in Hmid. fold atNoon in Hmid.
    apply find_none_Forall in Hnone. rewrite Hnone, Hlen in Hmid.
    replace (2 * (k + 1) / 2)%nat with (k + 1)%nat in Hmid; [exact Hmid|].
    rewrite Nat.mul_comm. symmetry. apply Nat.div_mul. discriminate.
  - intros a b c -> Ha Hb. unfold midday in Hmid. fold atNoon in Hmid.
    cbn [find] in Hmid. rewrite Ha, Hb in Hmid. congruence.
Qed.

Lemma representative_sample_witness :
  let out := valueOf (transformForecastData morning threeSamples) in
  let f := nth 0 out
             {| DayForecast.date := []; DayForecast.dayName := [];
                DayForecast.tempHigh := 0; DayForecast.tempLow := 0;
                DayForecast.condition := []; DayForecast.description := [];
                DayForecast.icon := []; DayForecast.humidity := 0;
                DayForecast.windSpeed := 0; DayForecast.hourly := [] |} in
  exists dayItems mid w,
    dayForecast morning (DayForecast.date f) dayItems = Normal f
    /\ (dayItems = bucket morning (DayForecast.date f) threeSamples
        \/ (startsAfterToday morning threeSamples
            /\ DayForecast.date f = todayKey morning
            /\ dayItems = firstn 1 threeSamples))
    /\ ((forall item, In item threeSamples ->
                      itemDateKey morning item = DayForecast.date f) ->
        dayItems = threeSamples)
    /\ representative dayItems mid
    /\ nth_error (OWMForecastItem.weather mid) 0 = Some w
    /\ DayForecast.condition f = OWMWeatherCondition.main w
    /\ DayForecast.description f = OWMWeatherCondition.description w
    /\ DayForecast.icon f = OWMWeatherCondition.icon w
    /\ (forall k, Forall (fun item => atNoon item = false) dayItems ->
                  length dayItems = (2 * (k + 1))%nat ->
                  nth_error dayItems (k + 1) = Some mid)
    /\ (forall a b c, dayItems = [a; b; c] ->
                      atNoon a = false -> atNoon b = true -> mid = b).
Proof.
  intros out f.
  apply (@representative_sample morning threeSamples out f).
  - vm_compute. reflexivity.
  - vm_compute. left. reflexivity.
Defined.

(** The three-sample case spelled out: for well-formed samples [a], [b],
    [c] of one day, [b] alone among the first two being at noon, the
    summary of that day takes its condition, description and icon from
    [b]; it is the whole result unless today had to be put in front. *)
Lemma three_samples_noon (h : Host) (a b c : OWMForecastItem.t)
    (wb : OWMWeatherCondition.t) :
  Forall wellFormed [a; b; c] ->
  itemDateKey h a = itemDateKey h b ->
  itemDateKey h c = itemDateKey h b ->
  atNoon a = false -> atNoon b = true ->
  nth_error (OWMForecastItem.weather b) 0 = Some wb ->
  exists out f,
    transformForecastData h [a; b; c] = Normal out
    /\ In f out
    /\ DayForecast.date f = itemDateKey h b
    /\ DayForecast.condition f = OWMWeatherCondition.main wb
    /\ DayForecast.description f = OWMWeatherCondition.description wb
    /\ DayForecast.icon f = OWMWeatherCondition.icon wb
    /\ (~ String_lt (todayKey h) (itemDateKey h b) -> out = [f]).
Proof.
  intros Hwf Hab Hcb Ha Hb Hwb.
  assert (Hall : forall item, In item [a; b; c] ->
                   itemDateKey h item = itemDateKey h b).
  { intros item [<-|[<-|[<-|[]]]]; auto. }
  destruct (single_day_forecast h Hwf Hall) as (f & Hf & Hreg & Hback).
  pose proof (dayForecast_Normal _ _ _ Hf)
    as (Hdate & _ & _ & _ & mid & w & Hmid & Hw & Hc & Hde & Hi).
  assert (mid = b).
  { unfold midday in Hmid. fold atNoon in Hmid. cbn [find] in Hmid.
    rewrite Ha, Hb in Hmid. congruence. }
  subst mid. assert (w = wb) by congruence. subst w.
  destruct (String_ltb (todayKey h) (itemDateKey h b)) eqn:E.
  - destruct (Hback E) as (f0 & Hout & _).
    exists [f0; f], f. repeat split; auto.
    + right. now left.
    + intros Hn. contradiction.
  - assert (Hn : ~ String_lt (todayKey h) (itemDateKey h b))
      by (unfold String_lt; congruence).
    exists [f], f. repeat split; auto. now left.
Qed.

(** C9. For every well-formed sample whose precipitation probability lies
    in [0, 1], on a host whose rounding is monotone and exact at 0 and
    100, [transformHourlyItem] returns a record whose [pop] is the
    probability scaled by 100 and rounded, an integer between 0 and 100;
    [temp], [feelsLike] and [windSpeed] are integers, and [humidity] is
    the sample's, unchanged. *)
Theorem hourly_record_ranges (h : Host) (item : OWMForecastItem.t) :
  wellFormed item ->
  roundsFaithfully h ->
  (0 <= OWMForecastItem.pop item)%Q ->
  (OWMForecastItem.pop item <= 1)%Q ->
  exists r,
    transformHourlyItem h item = Normal r
    /\ HourlyWeather.pop r
       = Math_round (fl h (OWMForecastItem.pop item * 100)%Q)
    /\ (0 <= HourlyWeather.pop r)%Q
    /\ (HourlyWeather.pop r <= 100)%Q
    /\ isInteger (HourlyWeather.pop r) = true
    /\ isInteger (HourlyWeather.temp r) = true
    /\ isInteger (HourlyWeather.feelsLike r) = true
    /\ isInteger (HourlyWeather.windSpeed r) = true
    /\ HourlyWeather.humidity r
       = OWMMainData.humidity (OWMForecastItem.main item).
Proof.
  intros Hwf (Hmono & H0 & H100) Hlo Hhi.
  unfold wellFormed in Hwf. unfold transformHourlyItem, weather0.
  destruct (OWMForecastItem.weather item) as [|w ws]; [congruence|].
  cbn [nth_error defined bind]. eexists. split; [reflexivity|].
  cbn [HourlyWeather.pop HourlyWeather.temp HourlyWeather.feelsLike
       HourlyWeather.windSpeed HourlyWeather.humidity].
  set (scaled := fl h (OWMForecastItem.pop item * 100)%Q).
  assert (Hs0 : (0 <= scaled)%Q).
  { rewrite <- H0. apply Hmono.
    apply Qmult_le_0_compat; [exact Hlo|discriminate]. }
  assert (Hs100 : (scaled <= 100)%Q).
  { rewrite <- H100. apply Hmono.
    setoid_replace (100 : Q) with (1 * 100)%Q at 2 by reflexivity.
    apply Qmult_le_compat_r; [exact Hhi|discriminate]. }
  repeat split; try apply Math_round_isInteger.
  - change (0 : Q) with (inject_Z (Qfloor (0 + (1 # 2)))).
    unfold Math_round. rewrite <- Zle_Qle. apply Qfloor_resp_le.
    now apply Qplus_le_l.
  - change (100 : Q) with (inject_Z (Qfloor (100 + (1 # 2)))).
    unfold Math_round. rewrite <- Zle_Qle. apply Qfloor_resp_le.
    now apply Qplus_le_l.
Qed.

Lemma hourly_record_ranges_witness :
  exists r,
    transformHourlyItem morning at0900 = Normal r
    /\ HourlyWeather.pop r
       = Math_round (fl morning (OWMForecastItem.pop at0900 * 100)%Q)
    /\ (0 <= HourlyWeather.pop r)%Q
    /\ (HourlyWeather.pop r <= 100)%Q
    /\ isInteger (HourlyWeather.pop r) = true
    /\ isInteger (HourlyWeather.temp r) = true
    /\ isInteger (HourlyWeather.feelsLike r) = true
    /\ isInteger (HourlyWeather.windSpeed r) = true
    /\ HourlyWeather.humidity r
       = OWMMainData.humidity (OWMForecastItem.main at0900).
Proof.
  apply (@hourly_record_ranges morning at0900).
  - discriminate.
  - split; [intros x y Hxy; exact Hxy|split; reflexivity].
  - vm_compute. discriminate.
  - vm_compute. discriminate.
Defined.

End Aggregator.

(* ===================================================================== *)
(** * Facts about matching                                                *)
(* ===================================================================== *)

Module RegexFacts.

Import Notions.

Lemma advance_0 (x : MatchState) : advance 0 x = x.
Proof. destruct x as [i s caps]. unfold advance. cbn. now rewrite Nat.add_0_r. Qed.

Lemma advance_advance (i j : nat) (x : MatchState) :
  advance j (advance i x) = advance (i + j) x.
Proof.
  unfold advance. cbn. f_equal; [lia|].
  rewrite Nat.add_comm. apply skipn_skipn.
Qed.

(** One unit of the set [p], then [c]. *)
Lemma compile_CharSet (p : N -> bool) (x : MatchState) (c : Continuation) :
  compile (CharSet p) x c
  = match rest x with
    | ch :: _ => if p ch then c (advance 1 x) else None
    | [] => None
    end.
Proof.
  cbn. destruct (rest x) as [|ch tl] eqn:E; [reflexivity|].
  unfold advance. rewrite E. cbn. now rewrite Nat.add_1_r.
Qed.

Lemma firstSome_0 (c : Continuation) (x : MatchState) (lo : nat) :
  firstSome c x lo 0 = c (advance lo x).
Proof. cbn. rewrite Nat.add_0_r. now destruct (c (advance lo x)). Qed.

Lemma firstSome_shift (c : Continuation) (x : MatchState) (lo n : nat) :
  firstSome c (advance 1 x) lo n = firstSome c x (S lo) n.
Proof.
  induction n as [|n IH]; cbn [firstSome]; rewrite advance_advance;
    cbn [Nat.add]; [reflexivity|].
  now rewrite IH.
Qed.

Lemma firstSome_step (c : Continuation) (x : MatchState) (n : nat) :
  firstSome c x 0 (S n)
  = match firstSome c x 1 n with
    | Some z => Some z
    | None => c x
    end.
Proof.
  induction n as [|n IH].
  - rewrite firstSome_0. cbn [firstSome Nat.add]. rewrite advance_0.
    destruct (c (advance 1 x)); [reflexivity|]. now destruct (c x).
  - change (firstSome c x 0 (S (S n)))
      with (match c (advance (0 + S (S n)) x) with
            | Some z => Some z
            | None => firstSome c x 0 (S n)
            end).
    change (firstSome c x 1 (S n))
      with (match c (advance (1 + S n) x) with
            | Some z => Some z
            | None => firstSome c x 1 n
            end).
    cbn [Nat.add]. destruct (c (advance (S (S n)) x)); [reflexivity|].
    exact IH.
Qed.

(** A greedy quantifier over a set of units tries the longest run first
    and gives units back one at a time. *)
Lemma RepeatMatcher_CharSet (p : N -> bool) (c : Continuation)
    (fuel min : nat) (max : option nat) (x : MatchState) :
  enoughFuel fuel min max (rest x) ->
  RepeatMatcher fuel (compile (CharSet p)) min max x c
  = if (reach p max (rest x) <? min)%nat then None
    else firstSome c x min (reach p max (rest x) - min).
Proof.
  revert min max x. induction fuel as [|fuel IH]; intros min max x Hfuel.
  - destruct max; cbn in Hfuel; lia.
  - cbn [RepeatMatcher].
    assert (Hstop : forall s, reach p max s = 0%nat ->
              (if (min =? 0)%nat then c x else None)
              = if (reach p max s <? min)%nat then None
                else firstSome c x min (reach p max s - min)).
    { intros s ->. destruct min as [|min]; [|reflexivity].
      cbn [Nat.eqb Nat.ltb Nat.leb Nat.sub].
      now rewrite firstSome_0, advance_0. }
    destruct max as [[|hi]|].
    + (* max = 0 *)
      cbn in Hfuel. assert (min = 0)%nat by lia. subst min.
      now rewrite <- (Hstop (rest x)) by apply Nat.min_0_l.
    + (* max = hi + 1 *)
      cbn in Hfuel. rewrite compile_CharSet.
      destruct x as [i s caps]. cbn [rest] in *.
      destruct s as [|ch tl].
      { rewrite <- (Hstop []) by apply Nat.min_0_r.
        now destruct (min =? 0)%nat. }
      destruct (p ch) eqn:Ep.
      2:{ rewrite <- (Hstop (ch :: tl))
            by (cbn [reach run]; rewrite Ep; apply Nat.min_0_r).
          now destruct (min =? 0)%nat. }
      set (x := {| endIndex := i; rest := ch :: tl; captures := caps |}).
      assert (Hne : (endIndex (advance 1 x) =? endIndex x)%nat = false)
        by (apply Nat.eqb_neq; cbn; lia).
      rewrite Hne, andb_false_r. cbn [option_map Nat.pred].
      rewrite IH by (cbn; lia).
      assert (HJ : reach p (Some (S hi)) (ch :: tl)
                   = S (reach p (Some hi) (rest (advance 1 x)))).
      { cbn [reach run advance rest x skipn]. rewrite Ep.
        symmetry. apply Nat.succ_min_distr. }
      rewrite HJ. set (J := reach p (Some hi) (rest (advance 1 x))).
      destruct min as [|min].
      * cbn [Nat.eqb Nat.pred Nat.ltb Nat.leb]. rewrite !Nat.sub_0_r.
        now rewrite firstSome_step, firstSome_shift.
      * cbn [Nat.eqb Nat.pred].
        change (S J <? S min)%nat with (J <? min)%nat.
        destruct (J <? min)%nat; [reflexivity|].
        now rewrite firstSome_shift.
    + (* no upper bound *)
      cbn in Hfuel. rewrite compile_CharSet.
      destruct x as [i s caps]. cbn [rest] in *.
      destruct s as [|ch tl].
      { rewrite <- (Hstop []) by reflexivity.
        now destruct (min =? 0)%nat. }
      destruct (p ch) eqn:Ep.
      2:{ rewrite <- (Hstop (ch :: tl)) by (cbn [reach run]; now rewrite Ep).
          now destruct (min =? 0)%nat. }
      set (x := {| endIndex := i; rest := ch :: tl; captures := caps |}).
      assert (Hne : (endIndex (advance 1 x) =? endIndex x)%nat = false)
        by (apply Nat.eqb_neq; cbn; lia).
      rewrite Hne, andb_false_r. cbn [option_map].
      rewrite IH by (cbn in *; lia).
      assert (HJ : reach p None (ch :: tl)
                   = S (reach p None (rest (advance 1 x)))).
      { cbn [reach run advance rest x skipn]. now rewrite Ep. }
      rewrite HJ. set (J := reach p None (rest (advance 1 x))).
      destruct min as [|min].
      * cbn [Nat.eqb Nat.pred Nat.ltb Nat.leb]. rewrite !Nat.sub_0_r.
        now rewrite firstSome_step, firstSome_shift.
      * cbn [Nat.eqb Nat.pred].
        change (S J <? S min)%nat with (J <? min)%nat.
        destruct (J <? min)%nat; [reflexivity|].
        now rewrite firstSome_shift.
Qed.

(** A sequence hands its tail to its head as the continuation. *)
Lemma compile_pattern_cons (r : regex) (rs : list regex) (x : MatchState)
    (c : Continuation) :
  compile (pattern (r :: rs)) x c
  = compile r x (fun y => compile (pattern rs) y c).
Proof. reflexivity. Qed.

(** A quantifier over a set, as compiled. *)
Lemma compile_Quant_CharSet (p : N -> bool) (min : nat) (max : option nat)
    (x : MatchState) (c : Continuation) :
  match max with Some hi => (min <= hi)%nat | None => True end ->
  compile (Quant (CharSet p) min max) x c
  = if (reach p max (rest x) <? min)%nat then None
    else firstSome c x min (reach p max (rest x) - min).
Proof.
  intros Hb. cbn [compile]. apply RepeatMatcher_CharSet.
  destruct max; cbn; lia.
Qed.

Lemma firstSome_hit (c : Continuation) (x : MatchState) (lo n : nat)
    (z : MatchState) :
  c (advance (lo + n) x) = Some z -> firstSome c x lo n = Some z.
Proof. intros H. destruct n; cbn [firstSome]; now rewrite H. Qed.

Lemma firstSome_None (c : Continuation) (x : MatchState) (lo n : nat) :
  (forall j, (lo <= j <= lo + n)%nat -> c (advance j x) = None) ->
  firstSome c x lo n = None.
Proof.
  induction n as [|n IH]; intros H; cbn [firstSome];
    rewrite (H (lo + _)%nat) by lia; [reflexivity|].
  apply IH. intros j Hj. apply H. lia.
Qed.

(** Lengths that fail are given back until one succeeds. *)
Lemma firstSome_skip (c : Continuation) (x : MatchState) (lo n m : nat) :
  (m <= n)%nat ->
  (forall j, (lo + m < j <= lo + n)%nat -> c (advance j x) = None) ->
  firstSome c x lo n = firstSome c x lo m.
Proof.
  induction n as [|n IH]; intros Hm H.
  - now replace m with 0%nat by lia.
  - destruct (Nat.eq_dec m (S n)) as [->|Hne]; [reflexivity|].
    cbn [firstSome]. rewrite (H (lo + S n)%nat) by lia.
    apply IH; [lia|]. intros j Hj. apply H. lia.
Qed.

Lemma isSome_firstSome (c : Continuation) (x : MatchState) (lo n : nat) :
  isSome (firstSome c x lo n) = true
  <-> exists j, (lo <= j <= lo + n)%nat /\ isSome (c (advance j x)) = true.
Proof.
  induction n as [|n IH].
  - rewrite firstSome_0. split.
    + intros H. exists lo. split; [lia|exact H].
    + intros (j & Hj & H). now replace lo with j by lia.
  - cbn [firstSome].
    destruct (c (advance (lo + S n) x)) as [z|] eqn:E.
    + split; [|reflexivity]. intros _. exists (lo + S n)%nat.
      split; [lia|]. now rewrite E.
    + rewrite IH. split; intros (j & Hj & H).
      * exists j. split; [lia|exact H].
      * exists j. split; [|exact H].
        destruct (Nat.eq_dec j (lo + S n)) as [->|Hne]; [|lia].
        rewrite E in H. discriminate.
Qed.

Lemma firstSome_Some_inv (c : Continuation) (x : MatchState) (lo n : nat)
    (z : MatchState) :
  firstSome c x lo n = Some z ->
  exists j, (lo <= j <= lo + n)%nat /\ c (advance j x) = Some z.
Proof.
  induction n as [|n IH]; cbn [firstSome];
    destruct (c (advance (lo + _) x)) as [z'|] eqn:E; intros H;
    try discriminate.
  - exists (lo + 0)%nat. split; [lia|congruence].
  - exists (lo + S n)%nat. split; [lia|congruence].
  - destruct (IH H) as (j & Hj & Hc). exists j. split; [lia|exact Hc].
Qed.

(** A capturing group records what its pattern consumed. *)
Lemma compile_Group (n : nat) (r : regex) (x : MatchState) (c : Continuation) :
  compile (Group n r) x c
  = compile r x (fun y =>
      c {| endIndex := endIndex y; rest := rest y;
           captures :=
             (n, firstn (endIndex y - endIndex x) (rest x)) :: captures y |}).
Proof. reflexivity. Qed.

(** An optional pattern. *)
Lemma compile_optional (r : regex) (x : MatchState) (c : Continuation) :
  compile (Quant r 0 (Some 1%nat)) x c
  = match compile r x (fun y => if (endIndex y =? endIndex x)%nat then None
                                else c y) with
    | Some z => Some z
    | None => c x
    end.
Proof. reflexivity. Qed.

(** A pattern that begins with [^] matches at the start or not at all. *)
Lemma exec_from_anchored (rs : list regex) (i : nat) (s : jsstring) :
  exec_from (pattern (AssertStart :: rs)) (S i) s = None.
Proof.
  revert i. induction s as [|ch tl IH]; intros i; cbn; [reflexivity|].
  apply IH.
Qed.

Lemma RegExp_exec_anchored (rs : list regex) (s : jsstring) :
  RegExp_exec (pattern (AssertStart :: rs)) s
  = match compile (pattern rs)
            {| endIndex := 0; rest := s; captures := [] |} Some with
    | Some y =>
        Some {| matched := firstn (endIndex y - 0) s; groups := captures y |}
    | None => None
    end.
Proof.
  unfold RegExp_exec.
  destruct s as [|ch tl]; cbn [exec_from].
  - now destruct (compile _ _ _).
  - rewrite exec_from_anchored. now destruct (compile _ _ _).
Qed.

(** ** Runs *)

Lemma run_le_length (p : N -> bool) (s : jsstring) :
  (run p s <= length s)%nat.
Proof.
  induction s as [|ch tl IH]; cbn; [lia|]. destruct (p ch); cbn; lia.
Qed.

Lemma run_firstn (p : N -> bool) (s : jsstring) (j : nat) :
  (j <= run p s)%nat -> forallb p (firstn j s) = true.
Proof.
  revert j. induction s as [|ch tl IH]; intros [|j]; cbn;
    try (intros; reflexivity).
  destruct (p ch); cbn; intros H; [|lia]. apply IH. lia.
Qed.

Lemma run_app (p : N -> bool) (body suffix : jsstring) :
  forallb p body = true -> run p (body ++ suffix) = (length body + run p suffix)%nat.
Proof.
  induction body as [|ch tl IH]; cbn; [reflexivity|].
  intros H. apply andb_true_iff in H. destruct H as [-> H].
  now rewrite IH.
Qed.

Lemma run_all (p : N -> bool) (s : jsstring) :
  run p s = length s <-> forallb p s = true.
Proof.
  induction s as [|ch tl IH]; cbn; [tauto|].
  destruct (p ch); cbn.
  - rewrite <- IH. split; lia.
  - split; [lia|discriminate].
Qed.

Lemma run_head_out (p : N -> bool) (ch : N) (tl : jsstring) :
  p ch = false -> run p (ch :: tl) = 0%nat.
Proof. intros H. cbn. now rewrite H. Qed.

End RegexFacts.

(* ===================================================================== *)
(** * Facts about the input classifier                                    *)
(* ===================================================================== *)

Module ValidationFacts.

Import Notions RegexFacts Validation.

(** ** The sets of units *)

Lemma letter_range (c : N) :
  isAsciiLetter c = true <-> ((97 <= c <= 122) \/ (65 <= c <= 90))%N.
Proof.
  unfold isAsciiLetter.
  rewrite orb_true_iff, !andb_true_iff, !N.leb_le. tauto.
Qed.

Lemma letter_not_space (c : N) :
  isAsciiLetter c = true -> isWhiteSpace c = false.
Proof.
  intros H. apply letter_range in H.
  unfold isWhiteSpace, isLineTerminator.
  repeat (apply orb_false_iff; split); try (apply N.eqb_neq; lia).
  apply andb_false_iff. left. apply N.leb_gt. lia.
Qed.

Lemma letter_not_comma (c : N) : isAsciiLetter c = true -> isChar 44 c = false.
Proof.
  intros H. apply letter_range in H. unfold isChar. apply N.eqb_neq. lia.
Qed.

Lemma letter_not_digit (c : N) : isAsciiLetter c = true -> isDigit c = false.
Proof.
  intros H. apply letter_range in H. unfold isDigit.
  apply andb_false_iff. right. apply N.leb_gt. lia.
Qed.

Lemma space_not_comma (c : N) : isWhiteSpace c = true -> isChar 44 c = false.
Proof.
  intros H. unfold isChar. apply N.eqb_neq. intros ->. discriminate.
Qed.

Lemma nameUnit_not_comma (c : N) : cityNameUnit c = true -> isChar 44 c = false.
Proof.
  intros H. unfold isChar. apply N.eqb_neq. intros ->. discriminate.
Qed.

Lemma lineTerminator_space (c : N) :
  isLineTerminator c = true -> isWhiteSpace c = true.
Proof. intros H. unfold isWhiteSpace. rewrite H. apply orb_true_r. Qed.

(** ** The two patterns of the classifier *)

Ltac settle_eqb :=
  repeat match goal with
         | |- context [(?a =? ?b)%nat] =>
             first [ replace (a =? b)%nat with false
                       by (symmetry; apply Nat.eqb_neq; lia)
                   | replace (a =? b)%nat with true
                       by (symmetry; apply Nat.eqb_eq; lia) ]
         end.

(** [$], then success. *)
Lemma compile_end (y : MatchState) :
  compile (pattern [AssertEnd]) y Some
  = match rest y with [] => Some y | _ :: _ => None end.
Proof. reflexivity. Qed.

(** The optional state suffix, then [$]. *)
Lemma compile_stateSuffix (y : MatchState) :
  isSome
    (compile
       (pattern
          [Quant (Group 1 (pattern [CharSet (isChar 44);
                                    Quant (CharSet isWhiteSpace) 0 (Some 1%nat);
                                    Quant (CharSet isAsciiLetter) 2 (Some 2%nat)]))
                 0 (Some 1%nat);
           AssertEnd]) y Some)
  = match rest y with [] => true | _ :: _ => stateSuffix (rest y) end.
Proof.
  destruct y as [i s caps]. cbn [rest].
  destruct s as [|c1 [|c2 [|c3 [|c4 [|c5 tl]]]]];
    cbn -[Nat.eqb Nat.sub firstn isWhiteSpace isAsciiLetter isChar];
    settle_eqb; cbn [andb]; try reflexivity.
  all: destruct (isChar 44 c1); cbn [andb isSome]; try reflexivity.
  all: destruct (isWhiteSpace c2) eqn:W2; cbn [andb isSome];
    settle_eqb; cbn [andb isSome]; try reflexivity.
  all: try (destruct (isAsciiLetter c2) eqn:L2; cbn [andb isSome];
            settle_eqb; cbn [andb isSome]; try reflexivity).
  all: try (rewrite (letter_not_space _ L2) in W2; discriminate).
  all: try (destruct (isAsciiLetter c3) eqn:L3; cbn [andb isSome];
            settle_eqb; cbn [andb isSome]; try reflexivity).
  all: try (destruct (isAsciiLetter c4) eqn:L4; cbn [andb isSome];
            settle_eqb; cbn [andb isSome]; try reflexivity).
Qed.

Lemma RegExp_test_isSome (r : regex) (s : jsstring) :
  RegExp_test r s = isSome (RegExp_exec r s).
Proof. reflexivity. Qed.

(** [ZIP_REGEX] accepts exactly the strings of five digits. *)
Lemma ZIP_REGEX_test (s : jsstring) : RegExp_test ZIP_REGEX s = specZip s.
Proof.
  rewrite RegExp_test_isSome. unfold ZIP_REGEX.
  rewrite RegExp_exec_anchored.
  rewrite compile_pattern_cons.
  rewrite compile_Quant_CharSet by (cbn; lia).
  cbn [rest reach]. unfold specZip.
  pose proof (run_le_length isDigit s) as Hle.
  destruct (Nat.ltb_spec (Nat.min 5 (run isDigit s)) 5) as [Hlt|Hge].
  - cbn [isSome]. symmetry. apply andb_false_iff.
    destruct (Nat.eqb_spec (length s) 5) as [E|]; [right|now left].
    apply not_true_is_false. intros Hall. apply run_all in Hall. lia.
  - replace (Nat.min 5 (run isDigit s) - 5)%nat with 0%nat by lia.
    rewrite firstSome_0, compile_end. cbn [advance rest].
    destruct (skipn 5 s) as [|ch tl] eqn:E.
    + apply skipn_all_iff in E.
      assert (Hlen : length s = 5%nat) by lia.
      assert (Hall : forallb isDigit s = true) by (apply run_all; lia).
      rewrite Hlen, Hall. reflexivity.
    + assert (Hlen : (5 < length s)%nat).
      { destruct (Nat.le_gt_cases (length s) 5) as [H|H]; [|exact H].
        apply skipn_all_iff in H. congruence. }
      destruct (Nat.eqb_spec (length s) 5); [lia|reflexivity].
Qed.

(** [CITY_REGEX] accepts exactly the strings of [cityShape]. *)
Lemma CITY_REGEX_test (s : jsstring) :
  RegExp_test CITY_REGEX s = true <-> cityShape s.
Proof.
  rewrite RegExp_test_isSome. unfold CITY_REGEX.
  rewrite RegExp_exec_anchored.
  rewrite compile_pattern_cons.
  rewrite compile_CharSet. cbn [rest].
  destruct s as [|l tl].
  { split; [discriminate|]. intros (l & body & suffix & E & _). discriminate. }
  destruct (isAsciiLetter l) eqn:El.
  2:{ split; [discriminate|].
      intros (l' & body & suffix & E & El' & _). congruence. }
  rewrite compile_pattern_cons.
  rewrite compile_Quant_CharSet by (cbn; lia).
  set (x1 := advance 1 _).
  assert (Hrest : rest x1 = tl) by reflexivity. rewrite Hrest.
  cbn [Nat.ltb Nat.leb]. rewrite Nat.sub_0_r.
  match goal with
  | |- context [match ?o with Some y => Some _ | None => None end] =>
      replace (isSome (match o with
                       | Some y => Some {| matched := firstn (endIndex y - 0) (l :: tl);
                                           groups := captures y |}
                       | None => None
                       end))
        with (isSome o) by now destruct o
  end.
  rewrite isSome_firstSome. split.
  - intros (j & Hj & Hsome). rewrite compile_stateSuffix in Hsome.
    cbn [advance rest] in Hsome. rewrite Hrest in Hsome.
    exists l, (firstn j tl), (skipn j tl).
    cbn [reach] in Hj.
    repeat split.
    + now rewrite firstn_skipn.
    + exact El.
    + apply run_firstn. lia.
    + rewrite length_firstn. lia.
    + destruct (skipn j tl); [now left|now right].
  - intros (l' & body & suffix & E & _ & Hbody & Hlen & Hsuffix).
    injection E as <- ->.
    exists (length body). split.
    + cbn [reach]. rewrite run_app by exact Hbody. lia.
    + rewrite compile_stateSuffix. cbn [advance rest]. rewrite Hrest.
      rewrite skipn_app, skipn_all, Nat.sub_diag. cbn [app skipn].
      destruct Hsuffix as [->|Hs]; [reflexivity|].
      destruct suffix; [discriminate|exact Hs].
Qed.

(** ** The classifier *)

Lemma validateSearchInput_type (input : jsstring) :
  ValidationResult.sanitized (validateSearchInput input) = String_trim input
  /\ ValidationResult.type (validateSearchInput input)
     = match String_trim input with
       | [] => invalid
       | _ :: _ =>
           if specZip (String_trim input) then zip
           else if RegExp_test CITY_REGEX (String_trim input) then city
           else invalid
       end.
Proof.
  unfold validateSearchInput. rewrite ZIP_REGEX_test.
  destruct (String_trim input) as [|ch tl] eqn:E; [now split|].
  cbn [length Nat.eqb].
  destruct (specZip (ch :: tl)); [now split|].
  destruct (RegExp_test CITY_REGEX (ch :: tl)); now split.
Qed.

Lemma zip_not_city (s : jsstring) : specZip s = true -> ~ cityShape s.
Proof.
  unfold specZip. intros H (l & body & suffix & -> & Hl & _).
  apply andb_true_iff in H. destruct H as [_ H]. cbn [forallb] in H.
  apply andb_true_iff in H. destruct H as [H _].
  rewrite (letter_not_digit _ Hl) in H. discriminate.
Qed.

(** ** Code and specification on plain spaces *)

Lemma specNameUnit_cityNameUnit (c : N) :
  specNameUnit c = true -> cityNameUnit c = true.
Proof.
  unfold specNameUnit, cityNameUnit. intros H.
  destruct (isAsciiLetter c); [reflexivity|]. cbn [orb] in *.
  destruct (isWhiteSpace c) eqn:W; [reflexivity|]. cbn [orb].
  destruct (c =? 32)%N eqn:E; [|exact H].
  apply N.eqb_eq in E. subst c. discriminate W.
Qed.

Lemma cityNameUnit_specNameUnit (c : N) :
  (isWhiteSpace c = true -> c = 32%N) ->
  cityNameUnit c = true -> specNameUnit c = true.
Proof.
  unfold specNameUnit, cityNameUnit. intros Hplain H.
  destruct (isAsciiLetter c); [reflexivity|]. cbn [orb] in *.
  destruct (isWhiteSpace c).
  - rewrite (Hplain eq_refl). reflexivity.
  - cbn [orb] in H. destruct (c =? 32)%N; [reflexivity|exact H].
Qed.

Lemma specSuffix_stateSuffix (s : jsstring) :
  specSuffix s = true -> stateSuffix s = true.
Proof.
  destruct s as [|c [|w [|a [|b [|e tl]]]]]; cbn [specSuffix stateSuffix];
    unfold isChar; intros H; try discriminate H; try exact H.
  apply andb_true_iff in H. destruct H as [H Hb].
  apply andb_true_iff in H. destruct H as [H Ha].
  apply andb_true_iff in H. destruct H as [Hc Hw].
  apply N.eqb_eq in Hw. subst w. now rewrite Hc, Ha, Hb.
Qed.

Lemma stateSuffix_specSuffix (s : jsstring) :
  plainSpaces s -> stateSuffix s = true -> specSuffix s = true.
Proof.
  destruct s as [|c [|w [|a [|b [|e tl]]]]]; cbn [stateSuffix specSuffix];
    unfold isChar; intros Hplain H; try discriminate H; try exact H.
  apply andb_true_iff in H. destruct H as [H Hb].
  apply andb_true_iff in H. destruct H as [H Ha].
  apply andb_true_iff in H. destruct H as [Hc Hw].
  assert (w = 32%N) by (apply Hplain; [right; now left|exact Hw]). subst w.
  now rewrite Hc, Ha, Hb.
Qed.

Lemma stateSuffix_length (s : jsstring) :
  stateSuffix s = true -> length s = 3%nat \/ length s = 4%nat.
Proof.
  destruct s as [|c [|w [|a [|b [|e tl]]]]]; cbn; try discriminate; auto.
Qed.

Lemma dropLast_app (pre suffix : jsstring) :
  dropLast (length suffix) (pre ++ suffix) = pre.
Proof.
  unfold dropLast. rewrite length_app, Nat.add_sub.
  rewrite firstn_app, Nat.sub_diag, firstn_all. cbn. apply app_nil_r.
Qed.

Lemma takeLast_app (pre suffix : jsstring) :
  takeLast (length suffix) (pre ++ suffix) = suffix.
Proof.
  unfold takeLast. rewrite length_app, Nat.add_sub.
  rewrite skipn_app, Nat.sub_diag, skipn_all. reflexivity.
Qed.

Lemma dropLast_takeLast (n : nat) (s : jsstring) :
  dropLast n s ++ takeLast n s = s.
Proof. apply firstn_skipn. Qed.

Lemma specName_shape (s : jsstring) :
  specName s = true ->
  exists l body, s = l :: body /\ isAsciiLetter l = true
                 /\ forallb cityNameUnit body = true
                 /\ (length body <= 98)%nat.
Proof.
  destruct s as [|l body]; [discriminate|]. cbn [specName]. intros H.
  apply andb_true_iff in H. destruct H as [H Hlen].
  apply andb_true_iff in H. destruct H as [Hl Hbody].
  apply Nat.leb_le in Hlen. cbn [length] in Hlen.
  exists l, body. repeat split; [exact Hl| |lia].
  apply forallb_forall. intros c Hc.
  apply specNameUnit_cityNameUnit.
  exact (proj1 (forallb_forall _ _) Hbody c Hc).
Qed.

(** Whatever the specification calls a city, the code does too. *)
Lemma specCity_cityShape (s : jsstring) : specCity s = true -> cityShape s.
Proof.
  unfold specCity. intros H.
  apply orb_true_iff in H. destruct H as [H|H];
    [apply orb_true_iff in H; destruct H as [H|H]|].
  - destruct (specName_shape _ H) as (l & body & -> & Hl & Hb & Hlen).
    exists l, body, []. rewrite app_nil_r. repeat split; auto.
  - apply andb_true_iff in H. destruct H as [Hn Hs].
    destruct (specName_shape _ Hn) as (l & body & E & Hl & Hb & Hlen).
    exists l, body, (takeLast 3 s). repeat split; auto.
    + rewrite app_comm_cons, <- E. symmetry. apply dropLast_takeLast.
    + right. now apply specSuffix_stateSuffix.
  - apply andb_true_iff in H. destruct H as [Hn Hs].
    destruct (specName_shape _ Hn) as (l & body & E & Hl & Hb & Hlen).
    exists l, body, (takeLast 4 s). repeat split; auto.
    + rewrite app_comm_cons, <- E. symmetry. apply dropLast_takeLast.
    + right. now apply specSuffix_stateSuffix.
Qed.

(** On plain spaces, whatever the code calls a city the specification
    does too. *)
Lemma cityShape_specCity (s : jsstring) :
  plainSpaces s -> cityShape s -> specCity s = true.
Proof.
  intros Hplain (l & body & suffix & -> & Hl & Hb & Hlen & Hsuffix).
  assert (Hname : specName (l :: body) = true).
  { cbn [specName]. rewrite Hl. cbn [andb].
    apply andb_true_iff. split; [|apply Nat.leb_le; cbn; lia].
    apply forallb_forall. intros c Hc.
    apply cityNameUnit_specNameUnit.
    - apply Hplain. right. apply in_or_app. now left.
    - exact (proj1 (forallb_forall _ _) Hb c Hc). }
  unfold specCity.
  destruct Hsuffix as [->|Hs].
  - rewrite app_nil_r, Hname. reflexivity.
  - assert (Hspec : specSuffix suffix = true).
    { apply stateSuffix_specSuffix; [|exact Hs].
      intros c Hc. apply Hplain. right. apply in_or_app. now right. }
    rewrite app_comm_cons.
    pose proof (dropLast_app (l :: body) suffix) as Hd.
    pose proof (takeLast_app (l :: body) suffix) as Ht.
    destruct (stateSuffix_length _ Hs) as [E|E]; rewrite E in Hd, Ht.
    + apply orb_true_iff. left. apply orb_true_iff. right.
      now rewrite Hd, Ht, Hname, Hspec.
    + apply orb_true_iff. right.
      now rewrite Hd, Ht, Hname, Hspec.
Qed.

(** The classifier and its specification agree on every input whose
    trimmed form has no white space other than the plain space. *)
Lemma classifier_agrees_on_plain_spaces (input : jsstring) :
  plainSpaces (String_trim input) ->
  ValidationResult.type (validateSearchInput input) = classify_spec input.
Proof.
  intros Hplain. destruct (validateSearchInput_type input) as [_ ->].
  unfold classify_spec.
  destruct (String_trim input) as [|ch tl] eqn:E; [reflexivity|].
  destruct (specZip (ch :: tl)); [reflexivity|].
  destruct (RegExp_test CITY_REGEX (ch :: tl)) eqn:Ec.
  - apply CITY_REGEX_test in Ec. now rewrite (cityShape_specCity Hplain Ec).
  - destruct (specCity (ch :: tl)) eqn:Es; [|reflexivity].
    apply specCity_cityShape, CITY_REGEX_test in Es. congruence.
Qed.

(** ** The pattern of [formatApiQuery] *)

Lemma advance_app (pre post : jsstring) (i : nat)
    (caps : list (nat * jsstring)) :
  advance (length pre)
    {| endIndex := i; rest := pre ++ post; captures := caps |}
  = {| endIndex := i + length pre; rest := post; captures := caps |}.
Proof.
  unfold advance. cbn [endIndex rest captures].
  now rewrite skipn_app, skipn_all, Nat.sub_diag.
Qed.

Lemma skipn_head_In (A : Type) (k : nat) (l tl : list A) (x : A) :
  skipn k l = x :: tl -> In x l.
Proof.
  revert l. induction k as [|k IH]; intros [|y l']; cbn; try discriminate.
  - intros [= -> _]. now left.
  - intros H. right. now apply IH.
Qed.

Lemma afterName_no_comma (y : MatchState) :
  match rest y with [] => True | ch :: _ => isChar 44 ch = false end ->
  compile (pattern afterName) y Some = None.
Proof.
  intros H. unfold afterName. rewrite compile_pattern_cons, compile_CharSet.
  destruct (rest y) as [|ch tl]; [reflexivity|]. now rewrite H.
Qed.

(** What a successful match of the tail leaves in the captures. *)
Lemma afterName_captures (y z : MatchState) :
  compile (pattern afterName) y Some = Some z ->
  exists g2, captures z = (2%nat, g2) :: captures y.
Proof.
  unfold afterName. rewrite compile_pattern_cons, compile_CharSet.
  destruct (rest y) as [|ch tl]; [discriminate|].
  destruct (isChar 44 ch); [|discriminate].
  rewrite compile_pattern_cons, compile_Quant_CharSet by exact I.
  cbn [Nat.ltb Nat.leb]. intros H.
  apply firstSome_Some_inv in H. destruct H as (j & _ & H).
  rewrite compile_pattern_cons, compile_Group in H.
  rewrite compile_Quant_CharSet in H by (cbn; lia).
  destruct (_ <? 2)%nat in H; [discriminate|].
  apply firstSome_Some_inv in H. destruct H as (k & _ & H).
  rewrite compile_end in H.
  cbn [rest advance captures endIndex] in H.
  destruct (skipn k _) in H; [|discriminate].
  injection H as <-. cbn [captures]. eauto.
Qed.

(** Both groups take part in every match of [cityStatePattern]. *)
Lemma cityStatePattern_groups (s : jsstring) (m : MatchResult) :
  String_match s cityStatePattern = Some m ->
  exists g1 g2, MatchResult_get m 1 = Some g1 /\ MatchResult_get m 2 = Some g2.
Proof.
  unfold String_match, cityStatePattern.
  rewrite RegExp_exec_anchored, compile_pattern_cons, compile_Group.
  rewrite compile_Quant_CharSet by exact I.
  destruct (_ <? 1)%nat; [discriminate|].
  destruct (firstSome _ _ _ _) as [z|] eqn:E; [|discriminate].
  intros [= <-].
  apply firstSome_Some_inv in E. destruct E as (j & _ & E).
  fold afterName in E. apply afterName_captures in E.
  destruct E as [g2 E]. cbn [captures] in E.
  cbn [MatchResult_get groups]. rewrite E. cbn. eauto.
Qed.

(** Without a comma there is no match. *)
Lemma cityStatePattern_no_comma (s : jsstring) :
  forallb (fun c => negb (isChar 44 c)) s = true ->
  String_match s cityStatePattern = None.
Proof.
  intros Hs. unfold String_match, cityStatePattern.
  rewrite RegExp_exec_anchored, compile_pattern_cons, compile_Group.
  rewrite compile_Quant_CharSet by exact I.
  destruct (_ <? 1)%nat; [reflexivity|].
  rewrite firstSome_None; [reflexivity|].
  intros j _. fold afterName. apply afterName_no_comma.
  cbn [rest advance].
  destruct (skipn j s) as [|ch tl] eqn:E; [exact I|].
  apply skipn_head_In in E.
  apply negb_true_iff. exact (proj1 (forallb_forall _ _) Hs ch E).
Qed.

(** The tail of the pattern on a comma, white space and two letters. *)
Lemma afterName_state (name sep : jsstring) (a b : N) :
  forallb isWhiteSpace sep = true ->
  isAsciiLetter a = true -> isAsciiLetter b = true ->
  compile (pattern afterName)
    {| endIndex := length name;
       rest := [44%N] ++ sep ++ [a; b];
       captures := [(1%nat, name)] |} Some
  = Some {| endIndex := length name + 1 + length sep + 2;
            rest := [];
            captures := [(2%nat, [a; b]); (1%nat, name)] |}.
Proof.
  intros Hsep Ha Hb.
  unfold afterName. rewrite compile_pattern_cons, compile_CharSet.
  cbn [rest app]. change (isChar 44 44) with true. cbv iota.
  change (44%N :: sep ++ [a; b]) with ([44%N] ++ sep ++ [a; b]).
  rewrite (advance_app [44%N]). cbn [length].
  rewrite compile_pattern_cons, compile_Quant_CharSet by exact I.
  cbn [rest Nat.ltb Nat.leb reach]. rewrite Nat.sub_0_r.
  rewrite run_app by exact Hsep.
  rewrite (run_head_out isWhiteSpace a [b]) by now apply letter_not_space.
  rewrite Nat.add_0_r.
  apply firstSome_hit. cbn [Nat.add]. rewrite advance_app.
  rewrite compile_pattern_cons, compile_Group.
  rewrite compile_Quant_CharSet by (cbn; lia).
  cbn [rest reach run]. rewrite Ha, Hb. cbn [Nat.min Nat.ltb Nat.leb Nat.sub].
  rewrite firstSome_0, compile_end.
  cbn [advance rest endIndex captures skipn].
  replace (length name + 1 + length sep + 2 - (length name + 1 + length sep))%nat
    with 2%nat by lia.
  reflexivity.
Qed.

(** A name without line terminator, a comma, white space and two letters:
    the groups are the name and the letters. *)
Lemma cityStatePattern_state (name sep : jsstring) (a b : N) :
  name <> [] ->
  forallb notLineTerminator name = true ->
  forallb isWhiteSpace sep = true ->
  isAsciiLetter a = true -> isAsciiLetter b = true ->
  exists m,
    String_match (name ++ [44%N] ++ sep ++ [a; b]) cityStatePattern = Some m
    /\ MatchResult_get m 1 = Some name
    /\ MatchResult_get m 2 = Some [a; b].
Proof.
  intros Hne Hdot Hsep Ha Hb.
  set (s := name ++ [44%N] ++ sep ++ [a; b]).
  assert (Hlen : (1 <= length name)%nat)
    by (destruct name; [congruence|cbn; lia]).
  assert (HJ : (length name <= run notLineTerminator s)%nat)
    by (unfold s; rewrite run_app by exact Hdot; lia).
  (* nothing longer than the name is followed by a comma *)
  assert (Hlonger : forall j, (length name < j)%nat ->
            match skipn j s with
            | [] => True
            | ch :: _ => isChar 44 ch = false
            end).
  { intros j Hj. destruct (skipn j s) as [|ch tl] eqn:E; [exact I|].
    unfold s in E. rewrite skipn_app, skipn_all2 in E by lia.
    cbn [app] in E.
    destruct (j - length name)%nat as [|k] eqn:Ek; [lia|].
    cbn [skipn] in E. apply skipn_head_In in E.
    apply in_app_or in E. destruct E as [E|[<-|[<-|[]]]].
    - apply space_not_comma. exact (proj1 (forallb_forall _ _) Hsep ch E).
    - now apply letter_not_comma.
    - now apply letter_not_comma. }
  eexists. split.
  - unfold String_match, cityStatePattern.
    rewrite RegExp_exec_anchored, compile_pattern_cons, compile_Group.
    rewrite compile_Quant_CharSet by exact I.
    fold afterName. cbn [rest reach].
    destruct (Nat.ltb_spec (run notLineTerminator s) 1) as [Hlt|_]; [lia|].
    rewrite (@firstSome_skip _ _ 1 (run notLineTerminator s - 1)
               (length name - 1));
      [|lia|intros j Hj; apply afterName_no_comma; apply Hlonger; lia].
    erewrite firstSome_hit; [reflexivity|].
    replace (1 + (length name - 1))%nat with (length name) by lia.
    unfold s. rewrite advance_app.
    cbn [endIndex rest captures Nat.add].
    rewrite Nat.sub_0_r, firstn_app, firstn_all, Nat.sub_diag.
    cbn [firstn]. rewrite app_nil_r.
    now apply afterName_state.
  - cbn [MatchResult_get groups captures]. split; reflexivity.
Qed.

(** ** [formatApiQuery] *)

Lemma formatApiQuery_plain (s : jsstring) (type : InputType) :
  forallb (fun c => negb (isChar 44 c)) s = true ->
  formatApiQuery s type = s ++ str ",US".
Proof.
  intros H. unfold formatApiQuery.
  rewrite (cityStatePattern_no_comma _ H). now destruct type.
Qed.

Lemma formatApiQuery_state (name sep : jsstring) (a b : N) :
  name <> [] ->
  forallb notLineTerminator name = true ->
  forallb isWhiteSpace sep = true ->
  isAsciiLetter a = true -> isAsciiLetter b = true ->
  formatApiQuery (name ++ [44%N] ++ sep ++ [a; b]) city
  = String_trim name ++ str "," ++ [a; b] ++ str ",US".
Proof.
  intros Hne Hdot Hsep Ha Hb.
  destruct (@cityStatePattern_state name sep a b Hne Hdot Hsep Ha Hb)
    as (m & Hm & H1 & H2).
  unfold formatApiQuery. now rewrite Hm, H1, H2.
Qed.

(** A query made of units other than the comma ends with [,US], which
    occurs in it once. *)
Lemma query_once (s : jsstring) :
  forallb (fun c => negb (isChar 44 c)) s = true ->
  occurrences (str ",US") (s ++ str ",US") = 1%nat
  /\ String_endsWith (s ++ str ",US") (str ",US") = true.
Proof.
  intros H. split.
  - induction s as [|ch tl IH]; [reflexivity|].
    cbn [forallb] in H. apply andb_true_iff in H. destruct H as [Hch Htl].
    cbn [app occurrences]. rewrite (IH Htl).
    change (str ",US") with [44%N; 85%N; 83%N]. cbn [String_startsWith].
    apply negb_true_iff in Hch. unfold isChar in Hch.
    rewrite N.eqb_sym, Hch. reflexivity.
  - unfold String_endsWith. rewrite rev_app_distr.
    change (rev (str ",US")) with [83%N; 85%N; 44%N].
    cbn [app String_startsWith N.eqb Pos.eqb andb]. now destruct (rev s).
Qed.

(** ** Code and specification of the provider query on plain spaces *)

Lemma In_skipn (A : Type) (k : nat) (l : list A) (x : A) :
  In x (skipn k l) -> In x l.
Proof.
  revert l. induction k as [|k IH]; intros [|y l']; cbn; auto.
Qed.

Lemma specSuffix_comma (s : jsstring) : specSuffix s = true -> In 44%N s.
Proof.
  destruct s as [|c [|w [|a [|b [|e tl]]]]]; cbn [specSuffix];
    intros H; try discriminate H.
  - apply andb_true_iff in H. destruct H as [H _].
    apply andb_true_iff in H. destruct H as [H _].
    apply N.eqb_eq in H. subst. now left.
  - apply andb_true_iff in H. destruct H as [H _].
    apply andb_true_iff in H. destruct H as [H _].
    apply andb_true_iff in H. destruct H as [H _].
    apply N.eqb_eq in H. subst. now left.
Qed.

Lemma name_without_comma (l : N) (body : jsstring) :
  isAsciiLetter l = true -> forallb cityNameUnit body = true ->
  forallb (fun c => negb (isChar 44 c)) (l :: body) = true.
Proof.
  intros Hl Hb. cbn [forallb]. rewrite (letter_not_comma _ Hl). cbn [negb andb].
  apply forallb_forall. intros c Hc. apply negb_true_iff.
  apply nameUnit_not_comma. exact (proj1 (forallb_forall _ _) Hb c Hc).
Qed.

Lemma plain_without_lineTerminator (s : jsstring) :
  plainSpaces s -> forallb notLineTerminator s = true.
Proof.
  intros Hplain. apply forallb_forall. intros c Hc.
  unfold notLineTerminator. apply negb_true_iff.
  destruct (isLineTerminator c) eqn:E; [|reflexivity].
  pose proof (Hplain c Hc (lineTerminator_space _ E)) as ->. discriminate E.
Qed.

Lemma plainSpaces_app_l (s t : jsstring) : plainSpaces (s ++ t) -> plainSpaces s.
Proof. intros H c Hc. apply H, in_or_app. now left. Qed.

Lemma plainSpaces_app_r (s t : jsstring) : plainSpaces (s ++ t) -> plainSpaces t.
Proof. intros H c Hc. apply H, in_or_app. now right. Qed.

(** On a classified city written with plain spaces, [formatApiQuery]
    returns what the specification asks for. *)
Lemma formatApiQuery_agrees_on_plain_spaces (s : jsstring) :
  cityShape s -> plainSpaces s ->
  formatApiQuery s city = formatForProvider_spec s city.
Proof.
  intros (l & body & suffix & -> & Hl & Hb & _ & Hsuffix) Hplain.
  rewrite app_comm_cons in *. set (name := l :: body) in *.
  assert (Hne : name <> []) by discriminate.
  assert (Hcomma : forallb (fun c => negb (isChar 44 c)) name = true)
    by now apply name_without_comma.
  assert (Hdot : forallb notLineTerminator name = true)
    by (apply plain_without_lineTerminator; exact (plainSpaces_app_l _ _ Hplain)).
  unfold formatForProvider_spec.
  destruct Hsuffix as [->|Hs].
  - rewrite app_nil_r in *. rewrite formatApiQuery_plain by exact Hcomma.
    assert (Hno : forall n, specSuffix (takeLast n name) = false).
    { intros n. apply not_true_is_false. intros H.
      apply specSuffix_comma, In_skipn in H.
      pose proof (proj1 (forallb_forall _ _) Hcomma _ H) as Hc.
      discriminate Hc. }
    now rewrite !Hno.
  - pose proof (plainSpaces_app_r _ _ Hplain) as Hplain'.
    pose proof (stateSuffix_specSuffix Hplain' Hs) as Hspec.
    destruct suffix as [|c [|w [|a [|b [|e tl]]]]]; try discriminate Hs.
    + (* ,XX *)
      cbn [stateSuffix] in Hs.
      apply andb_true_iff in Hs. destruct Hs as [Hs Hb'].
      apply andb_true_iff in Hs. destruct Hs as [Hc Ha].
      apply N.eqb_eq in Hc. subst c.
      change (name ++ [44%N; w; a]) with (name ++ [44%N] ++ [] ++ [w; a]).
      rewrite formatApiQuery_state by (try assumption; reflexivity).
      change (name ++ [44%N] ++ [] ++ [w; a]) with (name ++ [44%N; w; a]).
      destruct (exists_last Hne) as (pre & x & Ename).
      assert (H4 : takeLast 4 (name ++ [44%N; w; a]) = [x; 44%N; w; a]).
      { rewrite Ename, <- app_assoc.
        exact (takeLast_app pre [x; 44%N; w; a]). }
      assert (H3 : takeLast 3 (name ++ [44%N; w; a]) = [44%N; w; a])
        by exact (takeLast_app name [44%N; w; a]).
      assert (D3 : dropLast 3 (name ++ [44%N; w; a]) = name)
        by exact (dropLast_app name [44%N; w; a]).
      assert (H2 : takeLast 2 (name ++ [44%N; w; a]) = [w; a]).
      { change (name ++ [44%N; w; a]) with (name ++ [44%N] ++ [w; a]).
        rewrite app_assoc. exact (takeLast_app (name ++ [44%N]) [w; a]). }
      rewrite H4, H3, D3, H2, Hspec.
      cbn [specSuffix]. change (44 =? 32)%N with false.
      now rewrite andb_false_r.
    + (* , XX *)
      cbn [stateSuffix] in Hs.
      apply andb_true_iff in Hs. destruct Hs as [Hs Hb'].
      apply andb_true_iff in Hs. destruct Hs as [Hs Ha].
      apply andb_true_iff in Hs. destruct Hs as [Hc Hw].
      apply N.eqb_eq in Hc. subst c.
      change (name ++ [44%N; w; a; b]) with (name ++ [44%N] ++ [w] ++ [a; b]).
      rewrite formatApiQuery_state
        by (try assumption; cbn [forallb]; now rewrite Hw).
      change (name ++ [44%N] ++ [w] ++ [a; b]) with (name ++ [44%N; w; a; b]).
      assert (H4 : takeLast 4 (name ++ [44%N; w; a; b]) = [44%N; w; a; b])
        by exact (takeLast_app name [44%N; w; a; b]).
      assert (D4 : dropLast 4 (name ++ [44%N; w; a; b]) = name)
        by exact (dropLast_app name [44%N; w; a; b]).
      assert (H2 : takeLast 2 (name ++ [44%N; w; a; b]) = [a; b]).
      { change (name ++ [44%N; w; a; b]) with (name ++ [44%N; w] ++ [a; b]).
        rewrite app_assoc. exact (takeLast_app (name ++ [44%N; w]) [a; b]). }
      now rewrite H4, D4, H2, Hspec.
Qed.

End ValidationFacts.

(* ===================================================================== *)
(** * The input classifier: properties                                    *)
(* ===================================================================== *)

Module Classifier.

Import Notions RegexFacts Validation ValidationFacts Examples.

(** What [validateSearchInput] returns, for every input: the trimmed
    input as [sanitized]; [zip] exactly on five digits; [city] exactly on
    the strings of [cityShape], whose name and separator may hold any
    white-space unit; [invalid] otherwise; and [isValid] accordingly. *)
Lemma classification (input : jsstring) :
  let result := validateSearchInput input in
  let trimmed := String_trim input in
  ValidationResult.sanitized result = trimmed
  /\ (ValidationResult.type result = zip <-> specZip trimmed = true)
  /\ (ValidationResult.type result = city <-> cityShape trimmed)
  /\ (ValidationResult.type result = invalid
      <-> specZip trimmed = false /\ ~ cityShape trimmed)
  /\ ValidationResult.isValid result
     = match ValidationResult.type result with
       | invalid => false
       | _ => true
       end.
Proof.
  cbn zeta. destruct (validateSearchInput_type input) as [Hs Ht].
  assert (Hvalid : ValidationResult.isValid (validateSearchInput input)
                   = match ValidationResult.type (validateSearchInput input) with
                     | invalid => false
                     | _ => true
                     end).
  { unfold validateSearchInput.
    destruct (length (String_trim input) =? 0)%nat; [reflexivity|].
    destruct (RegExp_test ZIP_REGEX _); [reflexivity|].
    destruct (RegExp_test CITY_REGEX _); reflexivity. }
  split; [exact Hs|].
  split; [|split; [|split; [|exact Hvalid]]]; rewrite Ht; clear Hs Ht Hvalid.
  all: pose proof (@zip_not_city (String_trim input)) as Hzc.
  all: pose proof (CITY_REGEX_test (String_trim input)) as Hcity.
  all: assert (Hempty : String_trim input = [] ->
                        specZip (String_trim input) = false
                        /\ ~ cityShape (String_trim input))
         by (intros ->; split; [reflexivity|];
             intros (l & body & suffix & E & _); discriminate).
  all: destruct (String_trim input) as [|ch tl] eqn:Et;
    [destruct (Hempty eq_refl) as [Hz Hc];
     split; intros H; try discriminate; try congruence; tauto|].
  all: clear Hempty; destruct (specZip (ch :: tl)) eqn:Ez;
    [split; intros H; try discriminate; try reflexivity; try tauto;
     destruct H; congruence|].
  all: destruct (RegExp_test CITY_REGEX (ch :: tl)) eqn:Ec;
    split; intros H; try discriminate; try reflexivity; try tauto.
  all: try (apply Hcity in H; discriminate).
  all: try (destruct H as [_ H]; exfalso; apply H; tauto).
  all: try (split; [reflexivity|]; intros Hc; apply Hcity in Hc; discriminate).
Qed.

(** For a classified zip the query is the five digits followed by [,US],
    which it ends with and holds once. *)
Lemma zip_query (s : jsstring) :
  specZip s = true ->
  formatApiQuery s zip = s ++ str ",US"
  /\ String_endsWith (formatApiQuery s zip) (str ",US") = true
  /\ occurrences (str ",US") (formatApiQuery s zip) = 1%nat.
Proof.
  intros H. unfold specZip in H. apply andb_true_iff in H.
  destruct H as [_ Hd].
  assert (Hcomma : forallb (fun c => negb (isChar 44 c)) s = true).
  { apply forallb_forall. intros c Hc.
    pose proof (proj1 (forallb_forall _ _) Hd c Hc) as Hdigit.
    unfold isDigit in Hdigit. apply andb_true_iff in Hdigit.
    destruct Hdigit as [Hlo _]. apply N.leb_le in Hlo.
    apply negb_true_iff. unfold isChar. apply N.eqb_neq. lia. }
  destruct (query_once _ Hcomma) as [Hocc Hend].
  cbn [formatApiQuery]. auto.
Qed.

(** C7. The classifier departs from the claim on white space other than
    the plain space: [New<TAB>York] is classified as a city by
    [validateSearchInput], whereas the grammar of the claim, which allows
    spaces only after the first letter, makes it invalid.  (On inputs
    whose white space is plain the two agree:
    [classifier_agrees_on_plain_spaces].) *)
Theorem tab_accepted_in_city_name :
  validateSearchInput newTabYork
  = {| ValidationResult.isValid := true;
       ValidationResult.type := city;
       ValidationResult.sanitized := newTabYork |}
  /\ classify_spec newTabYork = invalid.
Proof. split; vm_compute; reflexivity. Qed.

(** C8. The provider query departs from the claim on a classified city
    whose name holds a line terminator: [New<LS>York, NY] passes
    [validateSearchInput] as a city and ends with the suffix [, NY], yet
    [formatApiQuery] returns it unchanged with [,US] appended, where the
    claim asks for [New<LS>York,NY,US].  (On classified cities whose white
    space is plain the two agree:
    [formatApiQuery_agrees_on_plain_spaces].) *)
Theorem line_separator_not_normalised :
  validateSearchInput newLineYorkNY
  = {| ValidationResult.isValid := true;
       ValidationResult.type := city;
       ValidationResult.sanitized := newLineYorkNY |}
  /\ takeLast 4 newLineYorkNY = str ", NY"
  /\ formatApiQuery newLineYorkNY city = newLineYorkNY ++ str ",US"
  /\ formatForProvider_spec newLineYorkNY city
     = str "New" ++ [8232%N] ++ str "York,NY,US"
  /\ formatApiQuery newLineYorkNY city
     <> formatForProvider_spec newLineYorkNY city.
Proof.
  repeat split; try (vm_compute; reflexivity).
  vm_compute. discriminate.
Qed.

End Classifier.

(* ===================================================================== *)
(** * Further properties                                                  *)
(* ===================================================================== *)

Import Validation Notions HostFacts RegexFacts ValidationFacts.

(** ** Trimming *)

Module TrimFacts.

Lemma trimStart_app_space (ws s : jsstring) :
  forallb isWhiteSpace ws = true ->
  String_trimStart (ws ++ s) = String_trimStart s.
Proof.
  induction ws as [|c ws IH]; [reflexivity|].
  cbn [forallb app String_trimStart]. intros H.
  apply andb_true_iff in H. destruct H as [-> H]. now apply IH.
Qed.

Lemma trimStart_all_space (ws : jsstring) :
  forallb isWhiteSpace ws = true -> String_trimStart ws = [].
Proof.
  intros H. rewrite <- (app_nil_r ws). now rewrite trimStart_app_space.
Qed.

(** What [trimStart] removes is white space, and what it leaves does not
    start with any. *)
Lemma trimStart_split (s : jsstring) :
  exists ws, s = ws ++ String_trimStart s /\ forallb isWhiteSpace ws = true.
Proof.
  induction s as [|c s (ws & E & H)].
  - now exists [].
  - cbn [String_trimStart]. destruct (isWhiteSpace c) eqn:Ec.
    + exists (c :: ws). cbn [app forallb]. now rewrite <- E, Ec.
    + now exists [].
Qed.

Lemma trimStart_clean (s : jsstring) : startsClean (String_trimStart s) = true.
Proof.
  induction s as [|c s IH]; [reflexivity|].
  cbn [String_trimStart]. destruct (isWhiteSpace c) eqn:Ec; [exact IH|].
  cbn. now rewrite Ec.
Qed.

Lemma trimStart_fixed (s : jsstring) :
  startsClean s = true -> String_trimStart s = s.
Proof.
  destruct s as [|c s]; [reflexivity|]. cbn. now destruct (isWhiteSpace c).
Qed.

Lemma startsClean_app (s t : jsstring) :
  s <> [] -> startsClean (s ++ t) = startsClean s.
Proof. destruct s; [congruence|reflexivity]. Qed.

Lemma trim_edgeFree (s : jsstring) : edgeFree (String_trim s) = true.
Proof.
  unfold edgeFree, String_trim, String_trimEnd.
  set (t := String_trimStart s).
  rewrite rev_involutive, (trimStart_clean (rev t)), andb_true_r.
  destruct (trimStart_split (rev t)) as (ws & E & _).
  assert (Et : t = rev (String_trimStart (rev t)) ++ rev ws).
  { rewrite <- rev_app_distr, <- E. now rewrite rev_involutive. }
  destruct (rev (String_trimStart (rev t))) as [|c u] eqn:Eu; [reflexivity|].
  assert (H := trimStart_clean s). fold t in H. rewrite Et in H. exact H.
Qed.

Lemma trim_split (s : jsstring) :
  exists before after,
    s = before ++ String_trim s ++ after
    /\ forallb isWhiteSpace before = true
    /\ forallb isWhiteSpace after = true.
Proof.
  destruct (trimStart_split s) as (ws1 & E1 & H1).
  destruct (trimStart_split (rev (String_trimStart s))) as (ws2 & E2 & H2).
  exists ws1, (rev ws2). repeat split; [|exact H1|].
  - unfold String_trim, String_trimEnd.
    rewrite <- rev_app_distr, <- E2, rev_involutive. exact E1.
  - rewrite forallb_forall in *. intros c Hc. apply H2. now apply in_rev.
Qed.

(** White space around a string without any at its ends is what [trim]
    removes. *)
Lemma trim_around (before x after : jsstring) :
  edgeFree x = true ->
  forallb isWhiteSpace before = true -> forallb isWhiteSpace after = true ->
  String_trim (before ++ x ++ after) = x.
Proof.
  intros Hx Hb Ha. apply andb_true_iff in Hx. destruct Hx as [Hhead Hlast].
  unfold String_trim. rewrite trimStart_app_space by exact Hb.
  destruct x as [|c x'].
  - cbn [app]. now rewrite trimStart_all_space by exact Ha.
  - rewrite trimStart_fixed by exact Hhead.
    unfold String_trimEnd. rewrite rev_app_distr, trimStart_app_space.
    + rewrite trimStart_fixed by exact Hlast. apply rev_involutive.
    + rewrite forallb_forall in *. intros d Hd. apply Ha. now apply in_rev.
Qed.

Lemma trim_idempotent (s : jsstring) :
  String_trim (String_trim s) = String_trim s.
Proof.
  rewrite <- (app_nil_r (String_trim s)) at 1.
  exact (@trim_around [] (String_trim s) [] (trim_edgeFree s) eq_refl eq_refl).
Qed.

Lemma trim_ignores_outer_space (before s after : jsstring) :
  forallb isWhiteSpace before = true -> forallb isWhiteSpace after = true ->
  String_trim (before ++ s ++ after) = String_trim s.
Proof.
  intros Hb Ha. destruct (trim_split s) as (b & a & E & Hb' & Ha').
  rewrite E at 1.
  replace (before ++ (b ++ String_trim s ++ a) ++ after)
    with ((before ++ b) ++ String_trim s ++ (a ++ after))
    by now rewrite !app_assoc.
  apply trim_around; [apply trim_edgeFree| |]; rewrite forallb_app;
    apply andb_true_iff; now split.
Qed.

Lemma trim_length (s : jsstring) : (length (String_trim s) <= length s)%nat.
Proof.
  destruct (trim_split s) as (b & a & E & _). rewrite E at 2.
  rewrite !length_app. lia.
Qed.

End TrimFacts.

Module FormatFacts.

Import TrimFacts.

Lemma isChar_eq (a c : N) : isChar a c = true -> c = a.
Proof. unfold isChar. apply N.eqb_eq. Qed.

Lemma run_skipn_firstn (p : N -> bool) (s : jsstring) (j : nat) :
  (j <= run p s)%nat ->
  s = firstn j s ++ skipn j s /\ forallb p (firstn j s) = true
  /\ length (firstn j s) = j.
Proof.
  intros H. repeat split.
  - symmetry. apply firstn_skipn.
  - now apply run_firstn.
  - apply firstn_length_le. pose proof (run_le_length p s). lia.
Qed.

(** What the tail of the pattern matches: a comma, white space, two
    letters, the end. *)
Lemma afterName_inv (y z : MatchState) :
  compile (pattern afterName) y Some = Some z ->
  exists sep g2,
    rest y = [44%N] ++ sep ++ g2
    /\ forallb isWhiteSpace sep = true
    /\ forallb isAsciiLetter g2 = true
    /\ length g2 = 2%nat
    /\ captures z = (2%nat, g2) :: captures y.
Proof.
  unfold afterName. rewrite compile_pattern_cons, compile_CharSet.
  destruct (rest y) as [|ch tl] eqn:Ey; [discriminate|].
  destruct (isChar 44 ch) eqn:Ech; [|discriminate].
  apply isChar_eq in Ech. subst ch.
  rewrite compile_pattern_cons, compile_Quant_CharSet by exact I.
  cbn [Nat.ltb Nat.leb]. intros H.
  apply firstSome_Some_inv in H. destruct H as (j & Hj & H).
  cbn [reach advance rest] in Hj. rewrite Ey in Hj. cbn [skipn] in Hj.
  rewrite compile_pattern_cons, compile_Group in H.
  rewrite compile_Quant_CharSet in H by (cbn; lia).
  cbn [reach advance rest endIndex captures] in H.
  rewrite Ey in H. cbn [skipn] in H.
  destruct (run_skipn_firstn isWhiteSpace tl (j := j)) as (Etl & Hsep & _);
    [lia|].
  destruct (Nat.ltb_spec (Nat.min 2 (run isAsciiLetter (skipn j tl))) 2)
    as [|Hrun]; [discriminate|].
  apply firstSome_Some_inv in H. destruct H as (k & Hk & H).
  assert (k = 2%nat) by lia. subst k.
  rewrite compile_end in H.
  cbn [rest advance captures endIndex] in H.
  rewrite Ey in H. change (skipn 1 (44%N :: tl)) with tl in H.
  destruct (skipn 2 (skipn j tl)) eqn:E2; [|discriminate].
  injection H as <-. cbn [captures].
  destruct (run_skipn_firstn isAsciiLetter (skipn j tl) (j := 2))
    as (Eg & Hg & Hlen); [lia|].
  rewrite E2, app_nil_r in Eg.
  exists (firstn j tl), (skipn j tl). repeat split.
  - cbn [app]. now rewrite <- Etl.
  - exact Hsep.
  - now rewrite Eg.
  - now rewrite Eg.
  - replace (endIndex y + 1 + j + 2 - (endIndex y + 1 + j))%nat with 2%nat
      by lia.
    now rewrite <- Eg.
Qed.

(** Every match of [cityStatePattern] splits the string at a comma: a
    name without line terminator before it; white space and two letters
    after it.  Both groups take part. *)
Lemma cityStatePattern_inv (s : jsstring) (m : MatchResult) :
  String_match s cityStatePattern = Some m ->
  exists name sep st,
    s = name ++ [44%N] ++ sep ++ st
    /\ name <> []
    /\ forallb notLineTerminator name = true
    /\ forallb isWhiteSpace sep = true
    /\ forallb isAsciiLetter st = true
    /\ length st = 2%nat
    /\ MatchResult_get m 1 = Some name
    /\ MatchResult_get m 2 = Some st.
Proof.
  unfold String_match, cityStatePattern.
  rewrite RegExp_exec_anchored, compile_pattern_cons, compile_Group.
  rewrite compile_Quant_CharSet by exact I.
  destruct (_ <? 1)%nat eqn:Elt; [discriminate|].
  apply Nat.ltb_ge in Elt. cbn [reach rest] in Elt.
  destruct (firstSome _ _ _ _) as [z|] eqn:E; [|discriminate].
  intros [= <-].
  apply firstSome_Some_inv in E. destruct E as (j & Hj & E).
  cbn [reach rest] in Hj.
  fold afterName in E. apply afterName_inv in E.
  destruct E as (sep & g2 & Erest & Hsep & Hg & Hlen & Ecap).
  cbn [rest advance captures endIndex] in Erest, Ecap.
  destruct (run_skipn_firstn notLineTerminator s (j := j))
    as (Es & Hname & Hlenj); [lia|].
  replace (0 + j - 0)%nat with j in Ecap by lia.
  exists (firstn j s), sep, g2. repeat split; try assumption.
  - now rewrite <- Erest.
  - intros Hnil. rewrite Hnil in Hlenj. cbn in Hlenj. lia.
  - cbn [MatchResult_get groups]. now rewrite Ecap.
  - cbn [MatchResult_get groups]. now rewrite Ecap.
Qed.

Lemma endsWith_app (s sub : jsstring) :
  String_endsWith (s ++ sub) sub = true.
Proof.
  unfold String_endsWith. rewrite rev_app_distr.
  induction (rev sub) as [|c r IH]; [cbn; now destruct (rev s)|].
  cbn [app String_startsWith]. now rewrite N.eqb_refl.
Qed.

End FormatFacts.

Module SplitFacts.

Import TrimFacts FormatFacts.

Lemma forallb_rev (A : Type) (p : A -> bool) (l : list A) :
  forallb p (rev l) = forallb p l.
Proof.
  induction l as [|x l IH]; [reflexivity|].
  cbn [rev forallb]. rewrite forallb_app, IH. cbn. now rewrite andb_true_r, andb_comm.
Qed.

Lemma stateSplit_shape (name sep : jsstring) (a b : N) :
  name <> [] ->
  forallb notLineTerminator name = true ->
  forallb isWhiteSpace sep = true ->
  isAsciiLetter a = true -> isAsciiLetter b = true ->
  stateSplit (name ++ [44%N] ++ sep ++ [a; b]) = Some (name, [a; b]).
Proof.
  intros Hne Hdot Hsep Ha Hb. unfold stateSplit.
  rewrite !rev_app_distr. cbn [rev app]. rewrite Ha, Hb. cbn [andb].
  rewrite <- app_assoc, trimStart_app_space by now rewrite forallb_rev.
  cbn [app String_trimStart]. change (isWhiteSpace 44) with false. cbv iota.
  change (isChar 44 44) with true. rewrite forallb_rev, Hdot, length_rev.
  destruct name as [|c name']; [congruence|].
  cbn [length Nat.eqb negb andb]. now rewrite rev_involutive.
Qed.

Lemma stateSplit_inv (s name st : jsstring) :
  stateSplit s = Some (name, st) ->
  exists sep a b,
    s = name ++ [44%N] ++ sep ++ [a; b]
    /\ st = [a; b]
    /\ name <> []
    /\ forallb notLineTerminator name = true
    /\ forallb isWhiteSpace sep = true
    /\ isAsciiLetter a = true /\ isAsciiLetter b = true.
Proof.
  unfold stateSplit. destruct (rev s) as [|b [|a before]] eqn:Es; try discriminate.
  destruct (isAsciiLetter a) eqn:Ha; [|discriminate].
  destruct (isAsciiLetter b) eqn:Hb; [|discriminate].
  cbn [andb].
  destruct (trimStart_split before) as (ws & Ebefore & Hws).
  destruct (String_trimStart before) as [|c nm]; [discriminate|].
  destruct (isChar 44 c) eqn:Hc; [|discriminate].
  destruct (length nm =? 0)%nat eqn:Hlen; [discriminate|].
  destruct (forallb notLineTerminator nm) eqn:Hdot; [|discriminate].
  cbn [andb negb]. intros [= <- <-].
  apply isChar_eq in Hc. subst c.
  exists (rev ws), a, b. repeat split; try assumption.
  - rewrite <- (rev_involutive s), Es, Ebefore.
    cbn [rev]. rewrite rev_app_distr. cbn [rev].
    now rewrite <- !app_assoc.
  - intros Hnil. apply (f_equal (@length N)) in Hnil.
    rewrite length_rev in Hnil. cbn in Hnil.
    apply Nat.eqb_neq in Hlen. congruence.
  - now rewrite forallb_rev.
  - now rewrite forallb_rev.
Qed.

(** [formatApiQuery] without the matcher. *)
Lemma formatApiQuery_closed (s : jsstring) (type : InputType) :
  formatApiQuery s type
  = match type with
    | zip => s ++ str ",US"
    | _ =>
        match stateSplit s with
        | Some (name, st) => String_trim name ++ str "," ++ st ++ str ",US"
        | None => s ++ str ",US"
        end
    end.
Proof.
  assert (H : formatApiQuery s city
              = match stateSplit s with
                | Some (name, st) =>
                    String_trim name ++ str "," ++ st ++ str ",US"
                | None => s ++ str ",US"
                end).
  { destruct (stateSplit s) as [[name st]|] eqn:Esplit.
    - apply stateSplit_inv in Esplit.
      destruct Esplit as (sep & a & b & -> & -> & Hne & Hdot & Hsep & Ha & Hb).
      now apply formatApiQuery_state.
    - unfold formatApiQuery.
      destruct (String_match s cityStatePattern) as [m|] eqn:Em; [|reflexivity].
      apply cityStatePattern_inv in Em.
      destruct Em as (name & sep & st & -> & Hne & Hdot & Hsep & Hst & Hlen & _).
      destruct st as [|a [|b [|]]]; try discriminate.
      cbn [forallb] in Hst. rewrite andb_true_r in Hst.
      apply andb_true_iff in Hst. destruct Hst as [Ha Hb].
      now rewrite stateSplit_shape in Esplit. }
  destruct type; [exact H|reflexivity|exact H].
Qed.

End SplitFacts.

(* ===================================================================== *)
(** * The search input, beyond its classification                         *)
(* ===================================================================== *)

Module SearchInput.

Import TrimFacts FormatFacts SplitFacts.

Lemma validateSearchInput_trim (input : jsstring) :
  validateSearchInput (String_trim input) = validateSearchInput input.
Proof. unfold validateSearchInput. now rewrite trim_idempotent. Qed.

Lemma sanitized_trim (input : jsstring) :
  ValidationResult.sanitized (validateSearchInput input) = String_trim input.
Proof. apply validateSearchInput_type. Qed.

Lemma validation_idempotent_lemma (input : jsstring) :
  validateSearchInput (ValidationResult.sanitized (validateSearchInput input))
  = validateSearchInput input.
Proof. rewrite sanitized_trim. apply validateSearchInput_trim. Qed.

(** X1.  Validation is idempotent: validating the sanitized value of a
    result gives that result again, so what one validation lets through
    the next one accepts unchanged. *)
Theorem validation_is_idempotent (input : jsstring) :
  validateSearchInput (ValidationResult.sanitized (validateSearchInput input))
  = validateSearchInput input.
Proof. apply validation_idempotent_lemma. Qed.

(** X2.  White space around the input, of any kind and amount, changes
    nothing in the result. *)
Theorem outer_white_space_is_ignored (before input after : jsstring) :
  forallb isWhiteSpace before = true ->
  forallb isWhiteSpace after = true ->
  validateSearchInput (before ++ input ++ after) = validateSearchInput input.
Proof.
  intros Hb Ha.
  rewrite <- (validateSearchInput_trim (before ++ input ++ after)).
  rewrite trim_ignores_outer_space by assumption.
  apply validateSearchInput_trim.
Qed.

Lemma outer_white_space_is_ignored_witness :
  validateSearchInput ([32%N; 9%N] ++ str "Austin, TX" ++ [10%N])
  = validateSearchInput (str "Austin, TX").
Proof. apply outer_white_space_is_ignored; reflexivity. Defined.

Lemma specZip_length (s : jsstring) : specZip s = true -> length s = 5%nat.
Proof.
  unfold specZip. intros H. apply andb_true_iff in H.
  now apply Nat.eqb_eq.
Qed.

Lemma cityShape_length (s : jsstring) :
  cityShape s -> (1 <= length s <= 103)%nat.
Proof.
  intros (l & body & suffix & -> & _ & _ & Hlen & Hsuffix).
  cbn [length]. rewrite length_app.
  destruct Hsuffix as [->|Hs]; [cbn; lia|].
  apply stateSuffix_length in Hs. lia.
Qed.

(** X3.  A valid input is short and clean: its sanitized value has no
    white space at either end and between 1 and 103 code units (a letter,
    at most 98 further units, at most 4 for the state); a zip code has
    exactly 5. *)
Theorem valid_input_size (input : jsstring) :
  ValidationResult.isValid (validateSearchInput input) = true ->
  edgeFree (ValidationResult.sanitized (validateSearchInput input)) = true
  /\ (1 <= length (ValidationResult.sanitized (validateSearchInput input))
      <= 103)%nat
  /\ (ValidationResult.type (validateSearchInput input) = zip ->
      length (ValidationResult.sanitized (validateSearchInput input)) = 5%nat).
Proof.
  intros Hvalid.
  destruct (Classifier.classification input) as (Hs & Hzip & Hcity & _ & Hv).
  cbv zeta in *. rewrite Hs. split; [apply trim_edgeFree|].
  rewrite Hv in Hvalid.
  destruct (ValidationResult.type (validateSearchInput input)) eqn:Et;
    [| |discriminate].
  - split; [|discriminate].
    apply cityShape_length. now apply Hcity.
  - assert (H5 := @specZip_length _ (proj1 Hzip eq_refl)).
    split; [lia|intros _; exact H5].
Qed.

Lemma valid_input_size_witness :
  edgeFree (ValidationResult.sanitized (validateSearchInput (str " 90210 ")))
  = true
  /\ (1 <= length (ValidationResult.sanitized
                     (validateSearchInput (str " 90210 "))) <= 103)%nat
  /\ (ValidationResult.type (validateSearchInput (str " 90210 ")) = zip ->
      length (ValidationResult.sanitized (validateSearchInput (str " 90210 ")))
      = 5%nat).
Proof. apply valid_input_size. reflexivity. Defined.

(** X4.  What the two patterns accept, said without the matcher:
    [ZIP_REGEX] exactly the strings of five digits, [CITY_REGEX] exactly
    the strings made of a letter, at most 98 units out of letters, white
    space, period, hyphen and apostrophe, and then nothing or a comma, at
    most one white-space unit and two letters.  No string is accepted by
    both, so the order of the two tests does not matter. *)
Theorem accepted_inputs (s : jsstring) :
  (RegExp_test ZIP_REGEX s = true
   <-> length s = 5%nat /\ forallb isDigit s = true)
  /\ (RegExp_test CITY_REGEX s = true <-> cityShape s)
  /\ ~ (RegExp_test ZIP_REGEX s = true /\ RegExp_test CITY_REGEX s = true).
Proof.
  repeat split.
  - rewrite ZIP_REGEX_test in H. unfold specZip in H.
    apply andb_true_iff in H. now apply Nat.eqb_eq.
  - rewrite ZIP_REGEX_test in H. unfold specZip in H.
    now apply andb_true_iff in H.
  - intros [Hlen Hd]. rewrite ZIP_REGEX_test. unfold specZip.
    apply andb_true_iff. split; [now apply Nat.eqb_eq|exact Hd].
  - apply CITY_REGEX_test.
  - apply CITY_REGEX_test.
  - intros [Hz Hc]. rewrite ZIP_REGEX_test in Hz.
    apply CITY_REGEX_test in Hc. exact (@zip_not_city _ Hz Hc).
Qed.

Lemma formatApiQuery_ends (sanitized : jsstring) (type : InputType) :
  String_endsWith (formatApiQuery sanitized type) (str ",US") = true
  /\ (length (formatApiQuery sanitized type) <= length sanitized + 3)%nat.
Proof.
  rewrite formatApiQuery_closed.
  assert (Hplain : String_endsWith (sanitized ++ str ",US") (str ",US") = true
                   /\ (length (sanitized ++ str ",US")
                       <= length sanitized + 3)%nat).
  { split; [apply endsWith_app|]. rewrite length_app. cbn. lia. }
  assert (Hcity :
    String_endsWith
      match stateSplit sanitized with
      | Some (name, st) => String_trim name ++ str "," ++ st ++ str ",US"
      | None => sanitized ++ str ",US"
      end (str ",US") = true
    /\ (length
          match stateSplit sanitized with
          | Some (name, st) => String_trim name ++ str "," ++ st ++ str ",US"
          | None => sanitized ++ str ",US"
          end <= length sanitized + 3)%nat).
  { destruct (stateSplit sanitized) as [[name st]|] eqn:E; [|exact Hplain].
    apply stateSplit_inv in E.
    destruct E as (sep & a & b & -> & -> & _). split.
    - rewrite !app_assoc. apply endsWith_app.
    - pose proof (trim_length name). rewrite !length_app. cbn. lia. }
  destruct type; [exact Hcity|exact Hplain|exact Hcity].
Qed.

(** X5.  Whatever the string and the type, the query handed to the
    service ends with [,US] and is at most three units longer than the
    sanitized input. *)
Theorem query_ends_with_country (sanitized : jsstring) (type : InputType) :
  String_endsWith (formatApiQuery sanitized type) (str ",US") = true
  /\ (length (formatApiQuery sanitized type) <= length sanitized + 3)%nat.
Proof. apply formatApiQuery_ends. Qed.

(** X6.  [formatApiQuery] without the matcher.  A zip code gets [,US]
    appended.  Any other input that ends with a comma, white space of any
    kind and amount, and two letters, after a non-empty name without line
    terminator, becomes the trimmed name, a comma, the two letters as they
    were typed, and [,US]; the name is all that stands before the last
    comma, further commas included.  Every other input gets [,US]
    appended. *)
Theorem query_closed_form (sanitized : jsstring) (type : InputType) :
  formatApiQuery sanitized type
  = match type with
    | zip => sanitized ++ str ",US"
    | _ =>
        match stateSplit sanitized with
        | Some (name, st) => String_trim name ++ str "," ++ st ++ str ",US"
        | None => sanitized ++ str ",US"
        end
    end.
Proof. apply formatApiQuery_closed. Qed.

(** X7.  Whenever the pattern of [formatApiQuery] matches, both of its
    groups took part, so neither [cityStateMatch[1]] nor
    [cityStateMatch[2]] is [undefined]; the first is a non-empty name
    without line terminator, the second two letters, and between them the
    string has a comma and white space only. *)
Theorem state_match_has_both_groups (s : jsstring) (m : MatchResult) :
  String_match s cityStatePattern = Some m ->
  exists name sep st,
    MatchResult_get m 1 = Some name
    /\ MatchResult_get m 2 = Some st
    /\ s = name ++ str "," ++ sep ++ st
    /\ name <> []
    /\ forallb notLineTerminator name = true
    /\ forallb isWhiteSpace sep = true
    /\ forallb isAsciiLetter st = true
    /\ length st = 2%nat.
Proof.
  intros H. apply cityStatePattern_inv in H.
  destruct H as (name & sep & st & H). exists name, sep, st. tauto.
Qed.

Lemma state_match_has_both_groups_witness :
  exists name sep st,
    MatchResult_get
      {| matched := str "St. Louis,  MO";
         groups := [(2%nat, str "MO"); (1%nat, str "St. Louis")] |} 1
    = Some name
    /\ MatchResult_get
         {| matched := str "St. Louis,  MO";
            groups := [(2%nat, str "MO"); (1%nat, str "St. Louis")] |} 2
       = Some st
    /\ str "St. Louis,  MO" = name ++ str "," ++ sep ++ st
    /\ name <> []
    /\ forallb notLineTerminator name = true
    /\ forallb isWhiteSpace sep = true
    /\ forallb isAsciiLetter st = true
    /\ length st = 2%nat.
Proof.
  apply (@state_match_has_both_groups (str "St. Louis,  MO")). reflexivity.
Defined.

End SearchInput.

(* ===================================================================== *)
(** * The theme of a condition                                            *)
(* ===================================================================== *)

Module ThemeFacts.

Import Theme.

Lemma directMap_not_inherited (k : jsstring) (c : WeatherCondition) :
  Map_get directMap k = Some c -> Array_includes ObjectPrototype k = false.
Proof.
  unfold directMap. cbn [Map_get].
  repeat match goal with
  | |- context [String_eqb ?a k] =>
      destruct (String_eqb a k) eqn:?E;
      [apply String_eqb_eq in E; subst k; intros _; reflexivity|clear E]
  end.
  discriminate.
Qed.

(** X8.  [mapOWMCondition] leaves each of the ten conditions of the
    application as it is, [Default] included: mapping a condition that
    was mapped already changes nothing. *)
Theorem conditions_are_fixed (c : WeatherCondition) :
  mapOWMCondition (WeatherCondition_name c) = own c.
Proof. destruct c; reflexivity. Qed.

(** X9.  For every string of the provider the theme is that of a
    condition: the one [directMap] lists for the string, and [Default]'s
    for every other string.  This holds although [mapOWMCondition] returns
    a member of [Object.prototype], and no condition, for the strings that
    name one ([constructor], [toString], ...): they are the only strings
    for which it does. *)
Theorem theme_of_provider_condition (owmCondition : jsstring) :
  getThemeForCondition (mapOWMCondition owmCondition)
  = THEME_MAP match Map_get directMap owmCondition with
              | Some c => c
              | None => Default
              end
  /\ ((exists c, mapOWMCondition owmCondition = own c)
      <-> Array_includes ObjectPrototype owmCondition = false).
Proof.
  unfold mapOWMCondition, Object_get.
  destruct (Map_get directMap owmCondition) as [c|] eqn:E.
  - split; [reflexivity|]. split; [|eauto].
    intros _. exact (directMap_not_inherited _ E).
  - destruct (Array_includes ObjectPrototype owmCondition); split;
      try reflexivity; split; eauto; try discriminate.
    intros [c Hc]. discriminate.
Qed.

End ThemeFacts.

(* ===================================================================== *)
(** * The state of the application                                        *)
(* ===================================================================== *)

Module ContextFacts.

Import WeatherContext SearchInput.

Lemma length_firstn_le (A : Type) (n : nat) (l : list A) :
  (length (firstn n l) <= n)%nat.
Proof. rewrite length_firstn. lia. Qed.

(** Dropping entries of a list keeps the images of the others
    distinct. *)
Lemma NoDup_map_filter (A B : Type) (image : A -> B) (keep : A -> bool)
    (entries : list A) :
  NoDup (map image entries) -> NoDup (map image (filter keep entries)).
Proof.
  intros Hnd. induction entries as [|x entries IH]; [exact Hnd|].
  cbn [map filter] in *. inversion Hnd as [|? ? Hx Hrest]; subst.
  destruct (keep x); [|now apply IH].
  cbn [map]. constructor; [|now apply IH].
  intros Hin. apply Hx. apply in_map_iff in Hin.
  destruct Hin as (y & Hy & Hin). apply filter_In in Hin.
  apply in_map_iff. exists y. tauto.
Qed.

Lemma NoDup_map_firstn (A B : Type) (image : A -> B) (n : nat)
    (entries : list A) :
  NoDup (map image entries) -> NoDup (map image (firstn n entries)).
Proof.
  revert n. induction entries as [|x entries IH]; intros [|n] Hnd;
    cbn [firstn map]; try constructor.
  - inversion Hnd as [|? ? Hx Hrest]; subst. intros Hin. apply Hx.
    apply in_map_iff in Hin. destruct Hin as (y & Hy & Hin).
    apply in_map_iff. exists y. split; [exact Hy|].
    now apply In_firstn in Hin.
  - inversion Hnd; subst. now apply IH.
Qed.

Lemma filter_all (A : Type) (p : A -> bool) (l : list A) :
  (forall x, In x l -> p x = true) -> filter p l = l.
Proof.
  induction l as [|x l IH]; [reflexivity|]. intros H. cbn [filter].
  rewrite (H x (or_introl eq_refl)). f_equal. apply IH.
  intros y Hy. apply H. now right.
Qed.

Section WithBrowser.

Variable browser : Browser.

Local Abbreviation lower := (toLowerCase browser).
Local Abbreviation differs :=
  (fun sanitized s => negb (String_eqb (lower s) (lower sanitized))).

Lemma newSearches_cons (sanitized : jsstring) (recentSearches : list jsstring) :
  newSearches browser sanitized recentSearches
  = sanitized :: firstn 4 (filter (differs sanitized) recentSearches).
Proof. reflexivity. Qed.

Lemma differs_true (sanitized s : jsstring) :
  differs sanitized s = true <-> lower s <> lower sanitized.
Proof.
  rewrite negb_true_iff. apply String_eqb_neq.
Qed.

Lemma newSearches_facts (sanitized : jsstring)
    (recentSearches : list jsstring) :
  hd_error (newSearches browser sanitized recentSearches) = Some sanitized
  /\ (length (newSearches browser sanitized recentSearches) <= 5)%nat
  /\ (forall s, In s (tl (newSearches browser sanitized recentSearches)) ->
        In s recentSearches /\ lower s <> lower sanitized)
  /\ (NoDup (map lower recentSearches) ->
      NoDup (map lower (newSearches browser sanitized recentSearches))).
Proof.
  rewrite newSearches_cons. cbn [hd_error tl length].
  assert (Htl : forall s,
            In s (firstn 4 (filter (differs sanitized) recentSearches)) ->
            In s recentSearches /\ lower s <> lower sanitized).
  { intros s Hs. apply In_firstn, filter_In in Hs.
    destruct Hs as [Hin Hd]. split; [exact Hin|]. now apply differs_true. }
  repeat split.
  - pose proof (length_firstn_le 4 (filter (differs sanitized) recentSearches)).
    lia.
  - now apply Htl.
  - now apply Htl.
  - intros Hnd. cbn [map]. constructor.
    + intros Hin. apply in_map_iff in Hin. destruct Hin as (s & Hs & Hin).
      now apply Htl in Hin.
    + now apply NoDup_map_firstn, NoDup_map_filter.
Qed.

(** X10.  The list of recent searches after a successful search: the new
    term comes first, at most five terms are kept, the others are terms
    of the previous list that differ from the new one even when case is
    ignored, and a list without two terms equal up to case stays one. *)
Theorem recent_searches_update (sanitized : jsstring)
    (recentSearches : list jsstring) :
  hd_error (newSearches browser sanitized recentSearches) = Some sanitized
  /\ (length (newSearches browser sanitized recentSearches) <= 5)%nat
  /\ (forall s, In s (tl (newSearches browser sanitized recentSearches)) ->
        In s recentSearches /\ lower s <> lower sanitized)
  /\ (NoDup (map lower recentSearches) ->
      NoDup (map lower (newSearches browser sanitized recentSearches))).
Proof. apply newSearches_facts. Qed.

(** X11.  Searching for the same term twice in a row leaves the list as
    the first search made it. *)
Theorem repeated_search_changes_nothing (sanitized : jsstring)
    (recentSearches : list jsstring) :
  newSearches browser sanitized
    (newSearches browser sanitized recentSearches)
  = newSearches browser sanitized recentSearches.
Proof.
  rewrite !newSearches_cons. cbn [filter].
  replace (differs sanitized sanitized) with false
    by (symmetry; apply negb_false_iff, String_eqb_refl).
  f_equal. rewrite filter_all.
  - rewrite firstn_firstn. reflexivity.
  - intros s Hs. apply In_firstn, filter_In in Hs. apply Hs.
Qed.

(** X12.  Searching again for a term of the list, in whatever case,
    moves it to the front: in a list of at most five terms, no two equal
    up to case, the old spelling gives way to the new one and the other
    terms keep their order. *)
Theorem known_search_moves_to_front (sanitized old : jsstring)
    (before after : list jsstring) :
  lower old = lower sanitized ->
  NoDup (map lower (before ++ old :: after)) ->
  (length (before ++ old :: after) <= 5)%nat ->
  newSearches browser sanitized (before ++ old :: after)
  = sanitized :: before ++ after.
Proof.
  intros Hold Hnd Hlen. rewrite newSearches_cons. f_equal.
  rewrite map_app in Hnd. cbn [map] in Hnd.
  assert (Hother : forall s, In s (before ++ after) ->
            differs sanitized s = true).
  { intros s Hs. apply differs_true. rewrite <- Hold. intros E.
    apply NoDup_remove_2 in Hnd. apply Hnd. rewrite <- E.
    rewrite <- map_app. now apply in_map. }
  rewrite filter_app. cbn [filter].
  replace (differs sanitized old) with false
    by (symmetry; apply negb_false_iff, String_eqb_eq; exact Hold).
  rewrite <- filter_app, filter_all by exact Hother.
  apply firstn_all2. rewrite length_app in *. cbn [length] in Hlen. lia.
Qed.

End WithBrowser.

Lemma known_search_moves_to_front_witness :
  newSearches Samples.plainBrowser (str "austin")
    ([str "90210"] ++ str "Austin" :: [str "Boston, MA"])
  = str "austin" :: [str "90210"] ++ [str "Boston, MA"].
Proof.
  apply known_search_moves_to_front.
  - reflexivity.
  - repeat constructor; cbn; intuition discriminate.
  - cbn. lia.
Defined.

Section Reachable.

Variable browser : Browser.
Variable fetchForecast : jsstring -> Settled (list DayForecast.t * jsstring).

Lemma loadRecentSearches_length (localStorage : Store browser) :
  (length (loadRecentSearches browser localStorage) <= 5)%nat.
Proof.
  unfold loadRecentSearches.
  destruct (getItem browser localStorage STORAGE_KEY) as [[stored|]|];
    cbn [length]; try lia.
  destruct (truthy stored); cbn [length]; try lia.
  destruct (JSON_parse browser stored) as [[]|]; cbn [length]; try lia.
  destruct (forallb isJString items); cbn [length]; try lia.
  apply (length_firstn_le MAX_RECENT_SEARCHES).
Qed.

Lemma apply_recentSearches (state : WeatherState.t) (a : Action) :
  (length (WeatherState.recentSearches state) <= 5)%nat ->
  (length (WeatherState.recentSearches (apply browser fetchForecast state a))
   <= 5)%nat.
Proof.
  intros H. destruct a as [query| | |]; cbn; try exact H.
  unfold fetchWeather.
  destruct (ValidationResult.isValid (Validation.validateSearchInput query));
    cbn; [|exact H].
  destruct (fetchForecast _) as [[forecast cityName]|err]; cbn; [|exact H].
  apply (newSearches_facts browser).
Qed.

(** X13.  The application never holds more than five recent searches:
    not at the start, whatever the storage holds or does, and not after
    any sequence of searches, selections and dismissals, whatever the
    service answers. *)
Theorem at_most_five_recent_searches (localStorage : Store browser)
    (actions : list Action) :
  (length (WeatherState.recentSearches
             (fold_left (apply browser fetchForecast) actions
                        (initialState browser localStorage))) <= 5)%nat.
Proof.
  assert (H : (length (WeatherState.recentSearches
                         (initialState browser localStorage)) <= 5)%nat)
    by apply loadRecentSearches_length.
  revert H. generalize (initialState browser localStorage).
  induction actions as [|a actions IH]; intros state H; [exact H|].
  cbn [fold_left]. apply IH. now apply apply_recentSearches.
Qed.

Lemma isJString_map (l : list jsstring) :
  forallb isJString (map JString l) = true.
Proof. induction l; [reflexivity|exact IHl]. Qed.

Lemma Json_strings_map (l : list jsstring) :
  Json_strings (map JString l) = l.
Proof.
  induction l as [|x l IH]; [reflexivity|].
  unfold Json_strings in *. cbn [map flat_map app]. now f_equal.
Qed.

(** X14.  What [saveRecentSearches] stores, [loadRecentSearches] reads
    back, up to the first five terms: provided the storage accepts the
    item and returns it, and the JSON text of a list of strings is not
    empty and parses to that list. *)
Theorem stored_searches_are_read_back (localStorage : Store browser)
    (searches : list jsstring) :
  (forall stored : Store browser,
     setItem browser localStorage STORAGE_KEY
       (JSON_stringify browser searches) = Some stored ->
     getItem browser stored STORAGE_KEY
     = Some (Some (JSON_stringify browser searches))) ->
  setItem browser localStorage STORAGE_KEY (JSON_stringify browser searches)
    <> None ->
  truthy (JSON_stringify browser searches) = true ->
  JSON_parse browser (JSON_stringify browser searches)
    = Some (JArray (map JString searches)) ->
  loadRecentSearches browser
    (saveRecentSearches browser searches localStorage)
  = firstn 5 searches.
Proof.
  intros Hget Hset Htruthy Hparse.
  unfold saveRecentSearches, loadRecentSearches.
  destruct (setItem browser localStorage STORAGE_KEY
              (JSON_stringify browser searches)) as [stored|] eqn:E;
    [|congruence].
  rewrite (Hget stored eq_refl), Htruthy, Hparse, isJString_map.
  now rewrite Json_strings_map.
Qed.

End Reachable.

Lemma stored_searches_are_read_back_witness :
  loadRecentSearches Samples.plainBrowser
    (saveRecentSearches Samples.plainBrowser
       [str "Austin, TX"; str "90210"] [])
  = firstn 5 [str "Austin, TX"; str "90210"].
Proof.
  apply stored_searches_are_read_back.
  - intros stored [= <-]. reflexivity.
  - discriminate.
  - reflexivity.
  - reflexivity.
Defined.

End ContextFacts.

(* ===================================================================== *)
(** * JSON values                                                         *)
(* ===================================================================== *)

Module JsonFacts.

(** ** Reading back what was written *)

Lemma member_reparse (members : list (jsstring * Json)) (k : jsstring) :
  member (map (fun m => match m with
                        | (name, x) => (name, Json_reparse x)
                        end) members) k
  = option_map Json_reparse (member members k).
Proof.
  induction members as [|[name x] more IH]; [reflexivity|].
  cbn [map member]. rewrite IH.
  destruct (member more k); [reflexivity|].
  destruct (String_eqb name k); reflexivity.
Qed.

Lemma Json_get_reparse (v : Json) (k : jsstring) :
  Json_get (Json_reparse v) k = option_map Json_reparse (Json_get v k).
Proof.
  destruct v as [| |[q|negative]| | |members]; try reflexivity.
  apply member_reparse.
Qed.

(** ** Typed values are read back as they were *)

Section Readings.

Import Typed.

Lemma number_reparse (x : option Json) :
  number (option_map Json_reparse x) = number x.
Proof. destruct x as [[| |[q|negative]| | |]|]; reflexivity. Qed.

Lemma optionalNumber_reparse (x : option Json) :
  optionalNumber (option_map Json_reparse x) = optionalNumber x.
Proof. destruct x as [[| |[q|negative]| | |]|]; reflexivity. Qed.

Lemma integer_reparse (x : option Json) :
  integer (option_map Json_reparse x) = integer x.
Proof. unfold integer. now rewrite number_reparse. Qed.

Lemma text_reparse (x : option Json) :
  text (option_map Json_reparse x) = text x.
Proof. destruct x as [[| |[q|negative]| | |]|]; reflexivity. Qed.

Lemma object_reparse (A : Type) (read : Json -> option A) (x : option Json) :
  (forall v, read (Json_reparse v) = read v) ->
  object read (option_map Json_reparse x) = object read x.
Proof. intros H. destruct x as [v|]; [apply H|reflexivity]. Qed.

Lemma array_reparse (A : Type) (read : Json -> option A) (items : list Json) :
  (forall v, read (Json_reparse v) = read v) ->
  array read (map Json_reparse items) = array read items.
Proof.
  intros H. induction items as [|v more IH]; [reflexivity|].
  cbn [map array]. now rewrite H, IH.
Qed.

Lemma arrayOf_reparse (A : Type) (read : Json -> option A) (x : option Json) :
  (forall v, read (Json_reparse v) = read v) ->
  arrayOf read (option_map Json_reparse x) = arrayOf read x.
Proof.
  intros H. destruct x as [[| |[q|negative]| |items|]|]; try reflexivity.
  now apply array_reparse.
Qed.

Lemma OWMWeatherCondition_reparse (v : Json) :
  OWMWeatherCondition_ofJson (Json_reparse v) = OWMWeatherCondition_ofJson v.
Proof.
  unfold OWMWeatherCondition_ofJson.
  now rewrite !Json_get_reparse, !number_reparse, !text_reparse.
Qed.

Lemma OWMMainData_reparse (v : Json) :
  OWMMainData_ofJson (Json_reparse v) = OWMMainData_ofJson v.
Proof.
  unfold OWMMainData_ofJson.
  now rewrite !Json_get_reparse, !number_reparse, !optionalNumber_reparse.
Qed.

Lemma OWMWind_reparse (v : Json) :
  OWMWind_ofJson (Json_reparse v) = OWMWind_ofJson v.
Proof.
  unfold OWMWind_ofJson.
  now rewrite !Json_get_reparse, !number_reparse, !optionalNumber_reparse.
Qed.

Lemma OWMClouds_reparse (v : Json) :
  OWMClouds_ofJson (Json_reparse v) = OWMClouds_ofJson v.
Proof.
  unfold OWMClouds_ofJson. now rewrite !Json_get_reparse, !number_reparse.
Qed.

Lemma OWMForecastItem_reparse (v : Json) :
  OWMForecastItem_ofJson (Json_reparse v) = OWMForecastItem_ofJson v.
Proof.
  unfold OWMForecastItem_ofJson.
  rewrite !Json_get_reparse, !number_reparse, !text_reparse, integer_reparse.
  rewrite (object_reparse _ _ OWMMainData_reparse).
  rewrite (object_reparse _ _ OWMClouds_reparse).
  rewrite (object_reparse _ _ OWMWind_reparse).
  now rewrite (arrayOf_reparse _ _ OWMWeatherCondition_reparse).
Qed.

(** ** Typed data has a JSON *)

Lemma condition_of_conditionJson (c : OWMWeatherCondition.t) :
  OWMWeatherCondition_ofJson (Samples.conditionJson c) = Some c.
Proof. now destruct c. Qed.

Lemma main_of_mainJson (m : OWMMainData.t) :
  OWMMainData_ofJson (Samples.mainJson m) = Some m.
Proof. destruct m as [? ? ? ? ? ? [?|] [?|]]; reflexivity. Qed.

Lemma wind_of_windJson (w : OWMWind.t) :
  OWMWind_ofJson (Samples.windJson w) = Some w.
Proof. destruct w as [? ? [?|]]; reflexivity. Qed.

Lemma array_map (A : Type) (read : Json -> option A) (write : A -> Json)
    (l : list A) :
  (forall a, read (write a) = Some a) ->
  array read (map write l) = Some l.
Proof.
  intros H. induction l as [|a more IH]; [reflexivity|].
  cbn [map array]. now rewrite H, IH.
Qed.

Lemma integer_of_Z (z : Z) :
  integer (Some (Samples.numberJson (inject_Z z))) = Some z.
Proof.
  unfold integer, number, Samples.numberJson, isInteger.
  rewrite Qfloor_Z. now rewrite Qeq_bool_refl.
Qed.

Lemma item_of_itemJson (item : OWMForecastItem.t) :
  OWMForecastItem_ofJson (Samples.itemJson item) = Some item.
Proof.
  destruct item as [dt main weather [all] wind visibility pop dt_txt].
  unfold OWMForecastItem_ofJson, Samples.itemJson.
  cbn [OWMForecastItem.dt OWMForecastItem.main OWMForecastItem.weather
       OWMForecastItem.clouds OWMForecastItem.wind OWMForecastItem.visibility
       OWMForecastItem.pop OWMForecastItem.dt_txt OWMClouds.all].
  change (Json_get (JObject ?ms) (str "dt"))
    with (Some (Samples.numberJson (inject_Z dt))).
  rewrite integer_of_Z.
  change (object OWMMainData_ofJson _)
    with (OWMMainData_ofJson (Samples.mainJson main)).
  rewrite main_of_mainJson.
  change (arrayOf OWMWeatherCondition_ofJson _)
    with (array OWMWeatherCondition_ofJson
            (map Samples.conditionJson weather)).
  rewrite (array_map _ _ _ condition_of_conditionJson).
  change (object OWMWind_ofJson _)
    with (OWMWind_ofJson (Samples.windJson wind)).
  rewrite wind_of_windJson.
  reflexivity.
Qed.

(** Every value of [OWMForecastResponse] is the value of some JSON. *)
Lemma response_of_responseJson (data : OWMForecastResponse.t) :
  OWMForecastResponse_ofJson (Samples.responseJson data) = Some data.
Proof.
  destruct data as [list [name country]].
  unfold OWMForecastResponse_ofJson, Samples.responseJson.
  cbn [OWMForecastResponse.list OWMForecastResponse.city OWMCity.name
       OWMCity.country].
  change (arrayOf OWMForecastItem_ofJson _)
    with (array OWMForecastItem_ofJson (map Samples.itemJson list)).
  rewrite (array_map _ _ _ item_of_itemJson).
  reflexivity.
Qed.

End Readings.

End JsonFacts.

(* ===================================================================== *)
(** * The proxy                                                           *)
(* ===================================================================== *)

Module ProxyFacts.

Import Proxy TrimFacts FormatFacts SplitFacts SearchInput.

(** ** The pattern [/^\d{5},\w{2}$/] *)

Lemma zipQueryPattern_zip (digits : jsstring) :
  specZip digits = true ->
  RegExp_test zipQueryPattern (digits ++ str ",US") = true.
Proof.
  intros Hzip. unfold specZip in Hzip. apply andb_true_iff in Hzip.
  destruct Hzip as [Hlen Hall]. apply Nat.eqb_eq in Hlen.
  rewrite RegExp_test_isSome. unfold zipQueryPattern.
  rewrite RegExp_exec_anchored, compile_pattern_cons.
  rewrite compile_Quant_CharSet by (cbn; lia).
  cbn [rest reach]. rewrite run_app by exact Hall. rewrite Hlen.
  cbn [run str list_ascii_of_string map app].
  change (Nat.min 5 (5 + _)) with 5%nat. cbn [Nat.ltb Nat.leb Nat.sub].
  rewrite firstSome_0. rewrite <- Hlen at 1. rewrite advance_app, Hlen.
  reflexivity.
Qed.

Lemma zipQueryPattern_no_digit (first : N) (more : jsstring) :
  isDigit first = false ->
  RegExp_test zipQueryPattern (first :: more) = false.
Proof.
  intros Hfirst. rewrite RegExp_test_isSome. unfold zipQueryPattern.
  rewrite RegExp_exec_anchored, compile_pattern_cons.
  rewrite compile_Quant_CharSet by (cbn; lia).
  cbn [rest reach]. rewrite run_head_out by exact Hfirst. reflexivity.
Qed.

(** A trimmed string that starts with a unit that is no white space
    keeps it in front. *)
Lemma trim_keeps_first (c : N) (s : jsstring) :
  isWhiteSpace c = false -> exists rest, String_trim (c :: s) = c :: rest.
Proof.
  intros Hc. destruct (trim_split (c :: s)) as (before & after & E & Hb & Ha).
  destruct before as [|b before'].
  - destruct (String_trim (c :: s)) as [|t rest] eqn:Et.
    + cbn [app] in E. rewrite <- E in Ha. cbn [forallb] in Ha.
      rewrite Hc in Ha. discriminate.
    + cbn [app] in E. injection E as -> _. eauto.
  - cbn [app forallb] in E, Hb. injection E as <- _.
    rewrite Hc in Hb. discriminate.
Qed.

(** The query of a city starts with the letter the city starts with. *)
Lemma city_query_first (s : jsstring) :
  cityShape s ->
  exists l rest, formatApiQuery s city = l :: rest /\ isAsciiLetter l = true.
Proof.
  intros (l & body & suffix & -> & Hl & _).
  rewrite formatApiQuery_closed.
  destruct (stateSplit (l :: body ++ suffix)) as [[name st]|] eqn:E.
  - apply stateSplit_inv in E.
    destruct E as (sep & a & b & E & _ & Hne & _).
    destruct name as [|n name']; [congruence|].
    cbn [app] in E. injection E as <- _.
    destruct (@trim_keeps_first l name' (letter_not_space _ Hl)) as [rest ->].
    cbn [app]. eauto.
  - cbn [app]. eauto.
Qed.

(** ** The replies *)

Section Handler.

Variable OPENWEATHERMAP_API_KEY : option jsstring.

Local Abbreviation handle := (handler OPENWEATHERMAP_API_KEY).
Local Abbreviation ok := (fun r : Reply => Http.ok (Deployment.responseOf r)).

Local Abbreviation facts provider :=
  (Deployment.accounted OPENWEATHERMAP_API_KEY provider).

Lemma replyError_facts
    (provider : ProviderRequest -> option (Http.Response Json))
    (req : Request) (status : Z) (text : string) :
  (status <? 200) || (299 <? status) = true ->
  status <> 401 ->
  truthy (str text) = true ->
  facts provider req (replyError req status text).
Proof.
  intros Hs H401 Ht.
  assert (Hok : ok (replyError req status text) = false).
  { unfold Http.ok.
    cbn [Deployment.responseOf Http.status replyError Proxy.status].
    apply andb_false_iff. apply orb_true_iff in Hs.
    destruct Hs as [Hs|Hs]; apply Z.ltb_lt in Hs;
      [left; apply Z.leb_gt|right; apply Z.leb_gt]; lia. }
  split; [exact H401|]. split.
  - intros _. exists (JString (str text)). repeat split; [exact Ht|].
    now left.
  - intros H. rewrite Hok in H. discriminate.
Qed.

Lemma fallback_truthy (status : Z) :
  Json_truthy (JString (str "Weather service returned " ++ Z_toString status))
  = true.
Proof. reflexivity. Qed.

Lemma forward_facts
    (provider : ProviderRequest -> option (Http.Response Json))
    (req : Request) (query : jsstring) :
  q req = single query ->
  facts provider req (forward OPENWEATHERMAP_API_KEY provider req query).
Proof.
  intros Hq. unfold forward.
  destruct (provider _) as [owmResponse|] eqn:Eprovider;
    [|apply replyError_facts; [reflexivity|discriminate|reflexivity]].
  destruct (negb (Http.ok owmResponse)) eqn:Eok.
  - destruct (Http.status owmResponse =? 404) eqn:E404;
      [apply replyError_facts; [reflexivity|discriminate|reflexivity]|].
    destruct (Http.status owmResponse =? 401) eqn:E401;
      [apply replyError_facts; [reflexivity|discriminate|reflexivity]|].
    cbv zeta. apply negb_true_iff in Eok. apply Z.eqb_neq in E401.
    assert (Hnot : ok {| status := Http.status owmResponse;
                         headers := corsHeaders req;
                         body := sent (errorObject
                           match Json_get match Http.json owmResponse with
                                          | Some data => data
                                          | None => JNull
                                          end (str "message") with
                           | Some m =>
                               if Json_truthy m then m
                               else JString (str "Weather service returned "
                                               ++ Z_toString
                                                    (Http.status owmResponse))
                           | None =>
                               JString (str "Weather service returned "
                                          ++ Z_toString
                                               (Http.status owmResponse))
                           end) |} = false) by exact Eok.
    split; [exact E401|]. split.
    + intros _. eexists. split; [reflexivity|].
      destruct (Http.json owmResponse) as [data|] eqn:Ejson;
        [|split; [apply fallback_truthy|now left]].
      destruct (Json_get data (str "message")) as [m|] eqn:Em;
        [|split; [apply fallback_truthy|now left]].
      destruct (Json_truthy m) eqn:Et;
        [|split; [apply fallback_truthy|now left]].
      split; [exact Et|]. right. exists query, owmResponse, data. auto.
    + intros H. rewrite Hnot in H. discriminate.
  - apply negb_false_iff in Eok.
    destruct (Http.json owmResponse) as [data|] eqn:Ejson;
      [|apply replyError_facts; [reflexivity|discriminate|reflexivity]].
    split; [discriminate|]. split; [discriminate|].
    intros _. split; [reflexivity|]. right.
    exists query, owmResponse, data. auto.
Qed.

Lemma handler_facts
    (provider : ProviderRequest -> option (Http.Response Json))
    (req : Request) :
  facts provider req (handle provider req).
Proof.
  unfold handler.
  destruct (match method req with
            | Some m => String_eqb m (str "OPTIONS")
            | None => false
            end).
  { split; [discriminate|]. split; [discriminate|].
    intros _. split; [reflexivity|now left]. }
  destruct (negb _);
    [apply replyError_facts; [reflexivity|discriminate|reflexivity]|].
  destruct (q req) as [|query|] eqn:Eq;
    try (apply replyError_facts; [reflexivity|discriminate|reflexivity]).
  destruct (negb (truthy query));
    [apply replyError_facts; [reflexivity|discriminate|reflexivity]|].
  destruct (100 <? length query)%nat;
    [apply replyError_facts; [reflexivity|discriminate|reflexivity]|].
  destruct (String_eqb _ _);
    [apply replyError_facts; [reflexivity|discriminate|reflexivity]|].
  now apply forward_facts.
Qed.

(** X15.  Whatever the request and whatever the provider does, the
    proxy never answers 401 (the provider's 401 becomes a 500).  A reply
    with a status outside 200 to 299 is an error object whose error is
    truthy: a text of the proxy, or the [message] of the provider's JSON
    handed on, of whatever type that is.  A reply with a status from 200
    to 299 has status 200 and is the empty answer to [OPTIONS] or the
    JSON of a provider's response that was [ok], handed on as it came:
    the proxy does not look into it, so it may itself hold a member
    [error]. *)
Theorem replies_of_the_proxy
    (provider : ProviderRequest -> option (Http.Response Json))
    (req : Request) :
  Proxy.status (handle provider req) <> 401
  /\ (ok (handle provider req) = false ->
      exists e,
        body (handle provider req) = sent (errorObject e)
        /\ Json_truthy e = true
        /\ (isJString e = true
            \/ exists query response data,
                 q req = single query
                 /\ provider (providerRequest OPENWEATHERMAP_API_KEY query)
                    = Some response
                 /\ Http.json response = Some data
                 /\ Json_get data (str "message") = Some e))
  /\ (ok (handle provider req) = true ->
      Proxy.status (handle provider req) = 200
      /\ (body (handle provider req) = ended
          \/ exists query response data,
               q req = single query
               /\ provider (providerRequest OPENWEATHERMAP_API_KEY query)
                  = Some response
               /\ Http.ok response = true
               /\ Http.json response = Some data
               /\ body (handle provider req) = sent data)).
Proof. apply handler_facts. Qed.

(** X16.  The provider is asked only on a GET request whose parameter q
    is one non-empty string of at most 100 code units: for every other
    request the reply is the same whatever the provider would do. *)
Theorem provider_is_asked_for_checked_queries_only
    (provider provider' :
       ProviderRequest -> option (Http.Response Json))
    (req : Request) :
  (forall query,
     method req = Some (str "GET") -> q req = single query ->
     ~ (1 <= length query <= 100)%nat) ->
  handle provider req = handle provider' req.
Proof.
  intros H. unfold handler.
  destruct (match method req with
            | Some m => String_eqb m (str "OPTIONS")
            | None => false
            end); [reflexivity|].
  destruct (method req) as [m|]; [|reflexivity].
  destruct (String_eqb m (str "GET")) eqn:Em; [|reflexivity].
  apply String_eqb_eq in Em. subst m. cbn [negb].
  destruct (q req) as [|query|]; try reflexivity.
  specialize (H query eq_refl eq_refl). unfold truthy.
  destruct (Nat.eqb_spec (length query) 0); [reflexivity|]. cbn [negb].
  destruct (Nat.ltb_spec 100 (length query)); [reflexivity|]. lia.
Qed.

(** X17.  The header [Access-Control-Allow-Origin] of a reply is the
    origin of the request when [isOriginAllowed] holds of it, and is not
    set otherwise, whatever else the request holds and whatever the reply
    is: no reply names an origin other than an allowed caller's. *)
Theorem allowed_origin_is_echoed
    (provider : ProviderRequest -> option (Http.Response Json))
    (req : Request) :
  Map_get (headers (handle provider req)) (str "Access-Control-Allow-Origin")
  = match origin req with
    | Some o => if isOriginAllowed o then Some o else None
    | None => None
    end.
Proof.
  assert (Hplain :
    Map_get (corsHeaders req) (str "Access-Control-Allow-Origin")
    = match origin req with
      | Some o => if isOriginAllowed o then Some o else None
      | None => None
      end).
  { unfold corsHeaders. destruct (origin req) as [o|]; [|reflexivity].
    destruct o as [|c o']; [reflexivity|]. cbn [truthy length Nat.eqb negb].
    destruct (isOriginAllowed (c :: o')); reflexivity. }
  assert (Hcache :
    Map_get (corsHeaders req
             ++ [(str "Cache-Control",
                  str "s-maxage=600, stale-while-revalidate=300")])
            (str "Access-Control-Allow-Origin")
    = Map_get (corsHeaders req) (str "Access-Control-Allow-Origin")).
  { unfold corsHeaders. destruct (isOriginAllowed _); reflexivity. }
  unfold handler, forward, replyError.
  repeat match goal with
         | |- context [if ?b then _ else _] =>
             lazymatch b with
             | context [isOriginAllowed] => fail
             | _ => destruct b
             end
         | |- context [match q req with _ => _ end] => destruct (q req)
         | |- context [match provider ?x with _ => _ end] =>
             destruct (provider x)
         | |- context [match Http.json ?x with _ => _ end] =>
             destruct (Http.json x)
         end;
    cbn [headers]; try exact Hplain; rewrite Hcache; exact Hplain.
Qed.

(** X18.  The query the client makes of a valid input reaches the
    provider through the parameter meant for it: [zip] for an input
    classified as a zip code, [q] for one classified as a city. *)
Theorem zip_codes_use_the_zip_parameter (input : jsstring) :
  ValidationResult.isValid (validateSearchInput input) = true ->
  param (providerRequest OPENWEATHERMAP_API_KEY
           (formatApiQuery
              (ValidationResult.sanitized (validateSearchInput input))
              (ValidationResult.type (validateSearchInput input))))
  = match ValidationResult.type (validateSearchInput input) with
    | zip => zipParam
    | _ => qParam
    end.
Proof.
  intros Hvalid.
  destruct (Classifier.classification input) as (Hs & Hzip & Hcity & _ & Hv).
  cbv zeta in *. rewrite Hs. rewrite Hv in Hvalid.
  unfold providerRequest. cbn [param].
  destruct (ValidationResult.type (validateSearchInput input)) eqn:Et;
    [| |discriminate].
  - destruct (city_query_first (proj1 Hcity eq_refl)) as (l & rest & -> & Hl).
    now rewrite zipQueryPattern_no_digit by now apply letter_not_digit.
  - cbn [formatApiQuery].
    now rewrite zipQueryPattern_zip by now apply Hzip.
Qed.

End Handler.

Lemma provider_is_asked_for_checked_queries_only_witness :
  handler None Samples.notFound
    {| method := Some (str "POST"); origin := None;
       q := single (str "90210,US") |}
  = handler None Samples.unreachable
      {| method := Some (str "POST"); origin := None;
         q := single (str "90210,US") |}.
Proof.
  apply provider_is_asked_for_checked_queries_only.
  intros query Hmethod. discriminate Hmethod.
Defined.

Lemma zip_codes_use_the_zip_parameter_witness :
  param (providerRequest None
           (formatApiQuery
              (ValidationResult.sanitized (validateSearchInput (str "73301 ")))
              (ValidationResult.type (validateSearchInput (str "73301 ")))))
  = match ValidationResult.type (validateSearchInput (str "73301 ")) with
    | zip => zipParam
    | _ => qParam
    end.
Proof. apply zip_codes_use_the_zip_parameter. reflexivity. Defined.

End ProxyFacts.

(* ===================================================================== *)
(** * From the search box to the provider and back                        *)
(* ===================================================================== *)

Module Journey.

Import TrimFacts FormatFacts SplitFacts SearchInput ProxyFacts.
Import WeatherContext.

(** ** Queries can be encoded *)

Lemma wellFormed_without_surrogate (s : jsstring) :
  forallb (fun c => negb (isSurrogate c)) s = true ->
  String_isWellFormed s = true.
Proof.
  induction s as [|c s IH]; [reflexivity|].
  cbn [forallb String_isWellFormed]. intros H.
  apply andb_true_iff in H. destruct H as [Hc Hs].
  apply negb_true_iff, orb_false_iff in Hc. destruct Hc as [-> ->].
  cbn [negb andb]. now apply IH.
Qed.

Ltac no_surrogate :=
  unfold isSurrogate, isLeadingSurrogate, isTrailingSurrogate,
    cityNameUnit, isAsciiLetter, isDigit, isChar, isWhiteSpace,
    isLineTerminator;
  rewrite ?orb_true_iff, ?andb_true_iff, ?N.eqb_eq, ?N.leb_le;
  intros;
  apply negb_true_iff, orb_false_iff; split; apply andb_false_iff;
  rewrite !N.leb_gt; lia.

Lemma digit_no_surrogate (c : N) :
  isDigit c = true -> negb (isSurrogate c) = true.
Proof. no_surrogate. Qed.

Lemma nameUnit_no_surrogate (c : N) :
  cityNameUnit c = true -> negb (isSurrogate c) = true.
Proof. no_surrogate. Qed.

Lemma letter_no_surrogate (c : N) :
  isAsciiLetter c = true -> negb (isSurrogate c) = true.
Proof. no_surrogate. Qed.

Lemma space_no_surrogate (c : N) :
  isWhiteSpace c = true -> negb (isSurrogate c) = true.
Proof. no_surrogate. Qed.

Lemma forallb_weaken (A : Type) (p q : A -> bool) (l : list A) :
  (forall x, p x = true -> q x = true) ->
  forallb p l = true -> forallb q l = true.
Proof.
  intros H. rewrite !forallb_forall. intros Hp x Hx. apply H, Hp, Hx.
Qed.

Lemma stateSuffix_no_surrogate (s : jsstring) :
  stateSuffix s = true -> forallb (fun c => negb (isSurrogate c)) s = true.
Proof.
  destruct s as [|c [|a [|b [|d [|]]]]]; try discriminate; cbn [stateSuffix].
  - intros H. apply andb_true_iff in H. destruct H as [H Hb].
    apply andb_true_iff in H. destruct H as [Hc Ha].
    apply isChar_eq in Hc. subst c. cbn [forallb].
    now rewrite (letter_no_surrogate _ Ha), (letter_no_surrogate _ Hb).
  - intros H. apply andb_true_iff in H. destruct H as [H Hd].
    apply andb_true_iff in H. destruct H as [H Hb].
    apply andb_true_iff in H. destruct H as [Hc Ha].
    apply isChar_eq in Hc. subst c. cbn [forallb].
    now rewrite (space_no_surrogate _ Ha), (letter_no_surrogate _ Hb),
      (letter_no_surrogate _ Hd).
Qed.

Lemma cityShape_no_surrogate (s : jsstring) :
  cityShape s -> forallb (fun c => negb (isSurrogate c)) s = true.
Proof.
  intros (l & body & suffix & -> & Hl & Hbody & _ & Hsuffix).
  cbn [forallb]. rewrite (letter_no_surrogate _ Hl), forallb_app.
  rewrite (@forallb_weaken N cityNameUnit (fun c => negb (isSurrogate c)) body
             nameUnit_no_surrogate Hbody).
  destruct Hsuffix as [->|Hs]; [reflexivity|].
  now rewrite stateSuffix_no_surrogate.
Qed.

Lemma trim_forallb (p : N -> bool) (s : jsstring) :
  forallb p s = true -> forallb p (String_trim s) = true.
Proof.
  destruct (trim_split s) as (before & after & E & _).
  rewrite E at 1. rewrite !forallb_app. intros H.
  apply andb_true_iff in H. destruct H as [_ H].
  now apply andb_true_iff in H.
Qed.

(** The units of a query are units of the input, or of [,US]. *)
Lemma formatApiQuery_forallb (p : N -> bool) (s : jsstring) (type : InputType) :
  forallb p s = true -> forallb p (str ",US") = true ->
  forallb p (formatApiQuery s type) = true.
Proof.
  intros Hs Hus. rewrite formatApiQuery_closed.
  assert (Hplain : forallb p (s ++ str ",US") = true)
    by now rewrite forallb_app, Hs.
  assert (Hcity : forallb p match stateSplit s with
                            | Some (name, st) =>
                                String_trim name ++ str "," ++ st ++ str ",US"
                            | None => s ++ str ",US"
                            end = true).
  { destruct (stateSplit s) as [[name st]|] eqn:E; [|exact Hplain].
    apply stateSplit_inv in E. destruct E as (sep & a & b & -> & -> & _).
    rewrite !forallb_app in Hs. cbn [forallb] in Hs.
    repeat (apply andb_true_iff in Hs; destruct Hs as [? Hs]).
    repeat match goal with
           | H : _ && _ = true |- _ => apply andb_true_iff in H; destruct H
           end.
    rewrite !forallb_app. cbn [forallb str list_ascii_of_string map].
    rewrite trim_forallb by assumption.
    cbn [forallb str list_ascii_of_string map] in Hus.
    repeat match goal with
           | H : _ && _ = true |- _ => apply andb_true_iff in H; destruct H
           end.
    repeat (apply andb_true_iff; split); assumption || reflexivity. }
  destruct type; assumption.
Qed.

Lemma valid_query_wellFormed (input : jsstring) :
  ValidationResult.isValid (validateSearchInput input) = true ->
  String_isWellFormed
    (formatApiQuery (ValidationResult.sanitized (validateSearchInput input))
                    (ValidationResult.type (validateSearchInput input)))
  = true.
Proof.
  intros Hvalid. apply wellFormed_without_surrogate.
  apply formatApiQuery_forallb; [|reflexivity].
  destruct (Classifier.classification input) as (Hs & Hzip & Hcity & _ & Hv).
  cbv zeta in *. rewrite Hs. rewrite Hv in Hvalid.
  destruct (ValidationResult.type (validateSearchInput input));
    [| |discriminate].
  - apply cityShape_no_surrogate. now apply Hcity.
  - assert (Hz : specZip (String_trim input) = true) by now apply Hzip.
    unfold specZip in Hz. apply andb_true_iff in Hz.
    exact (@forallb_weaken N isDigit (fun c => negb (isSurrogate c)) _
             digit_no_surrogate (proj2 Hz)).
Qed.

(** X19.  The query made of a valid input holds no surrogate, so
    [encodeURIComponent] never throws on it: no search fails before the
    request is made. *)
Theorem valid_queries_can_be_encoded (input : jsstring) :
  ValidationResult.isValid (validateSearchInput input) = true ->
  String_isWellFormed
    (formatApiQuery (ValidationResult.sanitized (validateSearchInput input))
                    (ValidationResult.type (validateSearchInput input)))
  = true.
Proof. apply valid_query_wellFormed. Qed.

Lemma valid_queries_can_be_encoded_witness :
  String_isWellFormed
    (formatApiQuery
       (ValidationResult.sanitized (validateSearchInput (str "St. Paul, MN")))
       (ValidationResult.type (validateSearchInput (str "St. Paul, MN"))))
  = true.
Proof. apply valid_queries_can_be_encoded. reflexivity. Defined.


(** ** One search, from the context to the provider and back *)

Section Deployed.

Variable h : Host.
Variable browser : Browser.
Variable numberText : Q -> jsstring.
Variable OPENWEATHERMAP_API_KEY : option jsstring.
Variable provider : Proxy.ProviderRequest -> option (Http.Response Json).
Variable origin : option jsstring.

(** [fetchForecast] of the client, behind the proxy. *)
Local Abbreviation client :=
  (WeatherClient.fetchForecast h numberText
     (Deployment.network OPENWEATHERMAP_API_KEY provider origin)).

(** The service the context calls: [fetchForecast] behind the proxy,
    wherever the model gives its outcome. *)
Variable service : jsstring -> Settled (list DayForecast.t * jsstring).

Hypothesis service_is_client :
  forall query outcome, client query = Some outcome -> service query = outcome.

(** The query made of an input, the reply of the proxy to it, what the
    client sees of that reply, and the state after searching for the
    input. *)
Local Abbreviation queryOf input :=
  (formatApiQuery (ValidationResult.sanitized (validateSearchInput input))
                  (ValidationResult.type (validateSearchInput input))).
Local Abbreviation replyTo input :=
  (Proxy.handler OPENWEATHERMAP_API_KEY provider
     (Deployment.requestFor origin (queryOf input))).
Local Abbreviation responseTo input :=
  (Deployment.responseOf (replyTo input)).
Local Abbreviation after state input :=
  (apply browser service state (search input)).

Lemma after_valid (state : WeatherState.t) (input : jsstring) :
  ValidationResult.isValid (validateSearchInput input) = true ->
  after state input
  = match service (queryOf input) with
    | fulfilled (forecast, cityName) =>
        showForecast browser
          (ValidationResult.sanitized (validateSearchInput input))
          forecast cityName (startLoading state)
    | rejected err => showFailure browser err (startLoading state)
    end.
Proof.
  intros Hvalid. unfold apply, fetchWeather. rewrite Hvalid.
  cbn [negb updates fold_left].
  now destruct (service _) as [[forecast cityName]|err].
Qed.

(** What the client makes of a reply. *)
Lemma client_valid (input : jsstring) :
  ValidationResult.isValid (validateSearchInput input) = true ->
  client (queryOf input)
  = if negb (Http.ok (responseTo input))
    then Some (rejected (WeatherClient.failure numberText (responseTo input)))
    else match Http.json (responseTo input) with
         | None => Some (rejected (Native syntaxError))
         | Some data => WeatherClient.readForecast h numberText data
         end.
Proof.
  intros Hvalid. unfold WeatherClient.fetchForecast.
  rewrite valid_query_wellFormed by exact Hvalid. reflexivity.
Qed.

Lemma client_rejects (input : jsstring) (text : jsstring) :
  ValidationResult.isValid (validateSearchInput input) = true ->
  Http.ok (responseTo input) = false ->
  Proxy.body (replyTo input) = Proxy.sent (Proxy.errorObject (JString text)) ->
  client (queryOf input) = Some (rejected (Error text)).
Proof.
  intros Hvalid Hok Hbody.
  rewrite client_valid by exact Hvalid. rewrite Hok. cbn [negb].
  destruct (handler_facts OPENWEATHERMAP_API_KEY provider
              (Deployment.requestFor origin (queryOf input)))
    as (_ & Herror & _).
  destruct (Herror Hok) as (e & Hbody' & Htruthy & _).
  rewrite Hbody in Hbody'. injection Hbody' as <-.
  unfold WeatherClient.failure, Deployment.responseOf.
  cbn [Http.json]. rewrite Hbody.
  unfold Proxy.errorObject.
  change (Json_reparse (JObject [(str "error", JString text)]))
    with (JObject [(str "error", JString text)]).
  change (Json_get (JObject [(str "error", JString text)]) (str "error"))
    with (Some (JString text)).
  cbv beta iota. now rewrite Htruthy.
Qed.

Lemma shown_error (state : WeatherState.t) (input text : jsstring) :
  ValidationResult.isValid (validateSearchInput input) = true ->
  Http.ok (responseTo input) = false ->
  Proxy.body (replyTo input) = Proxy.sent (Proxy.errorObject (JString text)) ->
  client (queryOf input) = Some (rejected (Error text))
  /\ after state input
     = {| WeatherState.forecast := WeatherState.forecast state;
          WeatherState.cityName := WeatherState.cityName state;
          WeatherState.recentSearches := WeatherState.recentSearches state;
          WeatherState.loading := false;
          WeatherState.error := Some text;
          WeatherState.currentCondition :=
            WeatherState.currentCondition state;
          WeatherState.selectedDay := WeatherState.selectedDay state |}.
Proof.
  intros Hvalid Hok Hbody.
  pose proof (client_rejects _ Hvalid Hok Hbody) as Hclient.
  split; [exact Hclient|].
  rewrite after_valid by exact Hvalid.
  now rewrite (service_is_client _ Hclient).
Qed.



(** What the client reads in the JSON of a typed response, after the
    proxy has handed it on. *)
Lemma readForecast_typed (body : Json) (data : OWMForecastResponse.t)
    (forecast : list DayForecast.t) :
  Typed.OWMForecastResponse_ofJson body = Some data ->
  WeatherService.transformForecastData h (OWMForecastResponse.list data)
  = Normal forecast ->
  WeatherClient.readForecast h numberText (Json_reparse body)
  = Some (fulfilled
            (forecast,
             OWMCity.name (OWMForecastResponse.city data) ++ str ", "
               ++ OWMCity.country (OWMForecastResponse.city data))).
Proof.
  intros Hdata Hforecast. unfold Typed.OWMForecastResponse_ofJson in Hdata.
  destruct (Typed.arrayOf Typed.OWMForecastItem_ofJson
              (Json_get body (str "list"))) as [items|] eqn:Elist;
    [|discriminate].
  destruct (Typed.object Typed.OWMCity_ofJson (Json_get body (str "city")))
    as [place|] eqn:Ecity; [|discriminate].
  injection Hdata as <-.
  cbn [OWMForecastResponse.list OWMForecastResponse.city] in *.
  destruct body as [| |[q|negative]| | |members]; try discriminate.
  unfold WeatherClient.readForecast.
  change (Json_reparse (JObject members))
    with (JObject (map (fun m => match m with
                                 | (name, x) => (name, Json_reparse x)
                                 end) members)).
  cbv beta iota.
  change (Json_get (JObject (map (fun m => match m with
                                           | (name, x) => (name, Json_reparse x)
                                           end) members)) (str "list"))
    with (Json_get (Json_reparse (JObject members)) (str "list")).
  rewrite JsonFacts.Json_get_reparse.
  destruct (Json_get (JObject members) (str "list"))
    as [[| |[q|negative]| |values|]|] eqn:Eget; try discriminate.
  cbn [option_map]. cbn [Typed.arrayOf] in Elist.
  change (Json_reparse (JArray values)) with (JArray (map Json_reparse values)).
  cbv beta iota.
  rewrite (JsonFacts.array_reparse _ _ JsonFacts.OWMForecastItem_reparse).
  rewrite Elist, Hforecast.
  unfold WeatherClient.cityNameOf.
  change (Json_get (JObject (map (fun m => match m with
                                           | (name, x) => (name, Json_reparse x)
                                           end) members)) (str "city"))
    with (Json_get (Json_reparse (JObject members)) (str "city")).
  rewrite JsonFacts.Json_get_reparse.
  destruct (Json_get (JObject members) (str "city")) as [place'|] eqn:Eplace;
    [|discriminate].
  cbn [Typed.object] in Ecity. unfold Typed.OWMCity_ofJson in Ecity.
  destruct (Typed.text (Json_get place' (str "name"))) as [name|] eqn:Ename;
    [|discriminate].
  destruct (Typed.text (Json_get place' (str "country")))
    as [country|] eqn:Ecountry; [|discriminate].
  injection Ecity as <-. cbn [OWMCity.name OWMCity.country option_map].
  destruct place' as [| |[q|negative]| | |fields]; try discriminate.
  change (Json_reparse (JObject fields))
    with (JObject (map (fun m => match m with
                                 | (name, x) => (name, Json_reparse x)
                                 end) fields)).
  cbv beta iota.
  change (Json_get (JObject (map (fun m => match m with
                                           | (name, x) => (name, Json_reparse x)
                                           end) fields)))
    with (Json_get (Json_reparse (JObject fields))).
  rewrite !JsonFacts.Json_get_reparse.
  destruct (Json_get (JObject fields) (str "name"))
    as [[| |[q|negative]| | |]|]; try discriminate.
  destruct (Json_get (JObject fields) (str "country"))
    as [[| |[q|negative]| | |]|]; try discriminate.
  cbn in Ename, Ecountry. injection Ename as ->. injection Ecountry as ->.
  reflexivity.
Qed.


End Deployed.

(** A status from 200 to 299 is no failure to the client, whatever the
    body says: when the provider reports a failure in a member [error]
    of a response with status 200, the proxy hands the body on with
    status 200, and the client, which finds no [list] in it, is rejected
    with a [TypeError] of the engine; the text of the provider is not
    shown. *)
Lemma error_with_status_200 :
  Proxy.status
    (Proxy.handler None Samples.mislabelled
       (Deployment.requestFor None (str "Austin,US"))) = 200
  /\ Proxy.body
       (Proxy.handler None Samples.mislabelled
          (Deployment.requestFor None (str "Austin,US")))
     = Proxy.sent (Proxy.errorObject (JString (str "quota exceeded")))
  /\ WeatherClient.fetchForecast Examples.morning Samples.wholeNumberText
       (Deployment.network None Samples.mislabelled None) (str "Austin,US")
     = Some (rejected (Native typeError)).
Proof. repeat split; vm_compute; reflexivity. Qed.

(** A message of the provider that is no string: an infinity is truthy
    and is handed on by the proxy, written as [null], and read by the
    client as no message at all. *)
Lemma message_beyond_doubles :
  Proxy.body
    (Proxy.handler None Samples.overflowing
       (Deployment.requestFor None (str "Austin,US")))
  = Proxy.sent (Proxy.errorObject (JNumber (infinite false)))
  /\ WeatherClient.fetchForecast Examples.morning Samples.wholeNumberText
       (Deployment.network None Samples.overflowing None) (str "Austin,US")
     = Some (rejected (Error (str "Weather data unavailable (503)"))).
Proof. repeat split; vm_compute; reflexivity. Qed.

Lemma serviceOf_agrees
    (client : jsstring -> option (Settled (list DayForecast.t * jsstring)))
    (query : jsstring) (outcome : Settled (list DayForecast.t * jsstring)) :
  client query = Some outcome -> Samples.serviceOf client query = outcome.
Proof. intros H. unfold Samples.serviceOf. now rewrite H. Qed.




End Journey.

(* ===================================================================== *)
(** * The search box                                                      *)
(* ===================================================================== *)

Module SearchBarFacts.

Import SearchBar WeatherContext SearchInput.

(** X23.  What the search box submits, the context accepts: [onSearch]
    is called only while nothing is loading, with the trimmed input, for
    which [fetchWeather] makes exactly one request, of the query of that
    input; the box is emptied. *)
Theorem submitted_search_is_requested (browser : Browser)
    (fetchForecast : jsstring -> Settled (list DayForecast.t * jsstring))
    (loading : bool) (st st' : State) (term : jsstring) :
  handleSubmit loading st = (Some term, st') ->
  loading = false
  /\ term = String_trim (input st)
  /\ requests (fetchWeather browser fetchForecast term)
     = [formatApiQuery term
          (ValidationResult.type (validateSearchInput (input st)))]
  /\ st' = {| input := []; touched := false |}.
Proof.
  unfold handleSubmit, canSubmit, validation.
  destruct (ValidationResult.isValid (validateSearchInput (input st)))
    eqn:Hvalid; [|discriminate].
  destruct loading; [discriminate|]. cbn [andb negb].
  intros [= <- <-]. repeat split; [apply sanitized_trim|].
  unfold fetchWeather. rewrite validation_idempotent_lemma, Hvalid.
  reflexivity.
Qed.

Lemma submitted_search_is_requested_witness :
  false = false
  /\ str "Austin" = String_trim (input {| input := str " Austin"; touched := true |})
  /\ requests (fetchWeather Samples.plainBrowser Samples.failing
                 (str "Austin"))
     = [formatApiQuery (str "Austin")
          (ValidationResult.type
             (validateSearchInput
                (input {| input := str " Austin"; touched := true |})))]
  /\ {| input := []; touched := false |} = {| input := []; touched := false |}.
Proof.
  apply (@submitted_search_is_requested Samples.plainBrowser
           Samples.failing false
           {| input := str " Austin"; touched := true |}).
  reflexivity.
Defined.

End SearchBarFacts.

(* ===================================================================== *)
(** * The forecast, beyond its shape                                      *)
(* ===================================================================== *)

Module ForecastFacts.

Import WeatherService WeatherFacts Notions HostFacts.

(** ** Extremes *)

Lemma max2_cases (a b : Q) : max2 a b = a \/ max2 a b = b.
Proof. unfold max2. destruct (Qle_bool a b); auto. Qed.

Lemma min2_cases (a b : Q) : min2 a b = a \/ min2 a b = b.
Proof. unfold min2. destruct (Qle_bool a b); auto. Qed.

Lemma max2_ge_r (a b : Q) : (b <= max2 a b)%Q.
Proof.
  unfold max2. destruct (Qle_bool a b) eqn:E; [apply Qle_refl|].
  destruct (Qlt_le_dec b a) as [H|H]; [now apply Qlt_le_weak|].
  apply Qle_bool_iff in H. congruence.
Qed.

Lemma min2_le_r (a b : Q) : (min2 a b <= b)%Q.
Proof.
  unfold min2. destruct (Qle_bool a b) eqn:E; [now apply Qle_bool_iff|].
  apply Qle_refl.
Qed.

Lemma fold_max2_In (xs : list Q) (x : Q) : In (fold_left max2 xs x) (x :: xs).
Proof.
  revert x. induction xs as [|y xs IH]; intros x; [now left|].
  cbn [fold_left]. destruct (IH (max2 x y)) as [H|H].
  - rewrite <- H. destruct (max2_cases x y) as [-> | ->]; cbn; auto.
  - right. now right.
Qed.

Lemma fold_min2_In (xs : list Q) (x : Q) : In (fold_left min2 xs x) (x :: xs).
Proof.
  revert x. induction xs as [|y xs IH]; intros x; [now left|].
  cbn [fold_left]. destruct (IH (min2 x y)) as [H|H].
  - rewrite <- H. destruct (min2_cases x y) as [-> | ->]; cbn; auto.
  - right. now right.
Qed.

Lemma fold_max2_upper (xs : list Q) (x y : Q) :
  In y (x :: xs) -> (y <= fold_left max2 xs x)%Q.
Proof.
  revert x. induction xs as [|z xs IH]; intros x Hy.
  - destruct Hy as [->|[]]. apply Qle_refl.
  - cbn [fold_left]. destruct Hy as [->|[->|Hy]].
    + eapply Qle_trans; [apply max2_ge_l|apply fold_max2_ge].
    + eapply Qle_trans; [apply max2_ge_r|apply fold_max2_ge].
    + apply IH. now right.
Qed.

Lemma fold_min2_lower (xs : list Q) (x y : Q) :
  In y (x :: xs) -> (fold_left min2 xs x <= y)%Q.
Proof.
  revert x. induction xs as [|z xs IH]; intros x Hy.
  - destruct Hy as [->|[]]. apply Qle_refl.
  - cbn [fold_left]. destruct Hy as [->|[->|Hy]].
    + eapply Qle_trans; [apply fold_min2_le|apply min2_le_l].
    + eapply Qle_trans; [apply fold_min2_le|apply min2_le_r].
    + apply IH. now right.
Qed.

Lemma Math_max_spec (xs : list Q) (hi : Q) :
  Math_max xs = Some hi ->
  In hi xs /\ forall y, In y xs -> (y <= hi)%Q.
Proof.
  destruct xs as [|x xs]; [discriminate|]. intros [= <-]. split.
  - apply fold_max2_In.
  - apply fold_max2_upper.
Qed.

Lemma Math_min_spec (xs : list Q) (lo : Q) :
  Math_min xs = Some lo ->
  In lo xs /\ forall y, In y xs -> (lo <= y)%Q.
Proof.
  destruct xs as [|x xs]; [discriminate|]. intros [= <-]. split.
  - apply fold_min2_In.
  - apply fold_min2_lower.
Qed.

Section WithHost.

Variable h : Host.

Local Abbreviation bucket := (Notions.bucket h).
Local Abbreviation sortedKeys := (Notions.sortedKeys h).
Local Abbreviation distinctDays := (Notions.distinctDays h).
Local Abbreviation startsAfterToday := (Notions.startsAfterToday h).
Local Abbreviation todayKey := (Notions.todayKey h).

Lemma transformHourlyItem_temp (item : OWMForecastItem.t) (r : HourlyWeather.t) :
  transformHourlyItem h item = Normal r ->
  HourlyWeather.temp r = Math_round (OWMMainData.temp (OWMForecastItem.main item)).
Proof.
  unfold transformHourlyItem. intros H. invert_binds H.
  now injection H as <-.
Qed.

Lemma Forall2_In_l (A B : Type) (P : A -> B -> Prop)
    (xs : list A) (ys : list B) (x : A) :
  Forall2 P xs ys -> In x xs -> exists y, In y ys /\ P x y.
Proof.
  induction 1 as [|x' y' xs ys Hxy _ IH]; [intros []|].
  intros [<-|Hin].
  - exists y'. split; [now left|exact Hxy].
  - destruct (IH Hin) as (y & Hy & HP). exists y. split; [now right|exact HP].
Qed.

Lemma dayForecast_extremes (date : jsstring)
    (dayItems : list OWMForecastItem.t) (f : DayForecast.t) :
  dayForecast h date dayItems = Normal f ->
  (forall r, In r (DayForecast.hourly f) ->
     (DayForecast.tempLow f <= HourlyWeather.temp r)%Q
     /\ (HourlyWeather.temp r <= DayForecast.tempHigh f)%Q)
  /\ (exists r, In r (DayForecast.hourly f)
                /\ HourlyWeather.temp r = DayForecast.tempHigh f)
  /\ (exists r, In r (DayForecast.hourly f)
                /\ HourlyWeather.temp r = DayForecast.tempLow f).
Proof.
  intros H. pose proof (dayForecast_hourly h date dayItems H) as Hhourly.
  unfold dayForecast in H. invert_binds H. injection H as <-.
  cbn [DayForecast.hourly DayForecast.tempHigh DayForecast.tempLow] in *.
  apply defined_Normal in Ha, Ha0.
  apply Math_max_spec in Ha. apply Math_min_spec in Ha0.
  destruct Ha as [Hhi_in Hhi]. destruct Ha0 as [Hlo_in Hlo].
  set (temp := fun item => OWMMainData.temp (OWMForecastItem.main item)) in *.
  repeat split.
  - destruct (@Forall2_In_r _ _ _ _ _ _ Hhourly H) as (item & Hitem & Hr).
    rewrite (@transformHourlyItem_temp _ _ Hr). apply Math_round_mono.
    apply Hlo. now apply (in_map temp).
  - destruct (@Forall2_In_r _ _ _ _ _ _ Hhourly H) as (item & Hitem & Hr).
    rewrite (@transformHourlyItem_temp _ _ Hr). apply Math_round_mono.
    apply Hhi. now apply (in_map temp).
  - apply in_map_iff in Hhi_in. destruct Hhi_in as (item & <- & Hitem).
    destruct (@Forall2_In_l _ _ _ _ _ _ Hhourly Hitem) as (r & Hr & Hitem_r).
    exists r. split; [exact Hr|]. exact (@transformHourlyItem_temp _ _ Hitem_r).
  - apply in_map_iff in Hlo_in. destruct Hlo_in as (item & <- & Hitem).
    destruct (@Forall2_In_l _ _ _ _ _ _ Hhourly Hitem) as (r & Hr & Hitem_r).
    exists r. split; [exact Hr|]. exact (@transformHourlyItem_temp _ _ Hitem_r).
Qed.

(** X24.  In every summary the high and the low of the day bound the
    temperatures of its hourly records, and each of the two is the
    temperature of one of them: what is shown as the day's high is the
    highest hourly temperature shown for that day, and likewise the
    low. *)
Theorem daily_extremes_are_hourly_extremes
    (items : list OWMForecastItem.t) (out : list DayForecast.t)
    (f : DayForecast.t) :
  transformForecastData h items = Normal out ->
  In f out ->
  (forall r, In r (DayForecast.hourly f) ->
     (DayForecast.tempLow f <= HourlyWeather.temp r)%Q
     /\ (HourlyWeather.temp r <= DayForecast.tempHigh f)%Q)
  /\ (exists r, In r (DayForecast.hourly f)
                /\ HourlyWeather.temp r = DayForecast.tempHigh f)
  /\ (exists r, In r (DayForecast.hourly f)
                /\ HourlyWeather.temp r = DayForecast.tempLow f).
Proof.
  intros Hout Hf.
  destruct (transform_members h items f Hout Hf) as [H|(_ & _ & H)];
    exact (@dayForecast_extremes _ _ _ H).
Qed.

(** ** Every sample is reported *)

Lemma filter_partition (A : Type) (p : A -> bool) (l : list A) :
  Permutation (filter p l ++ filter (fun x => negb (p x)) l) l.
Proof.
  induction l as [|x l IH]; [constructor|].
  cbn [filter]. destruct (p x); cbn [negb app].
  - now constructor.
  - now apply Permutation_sym, Permutation_cons_app, Permutation_sym.
Qed.

Lemma filter_filter_implied (A : Type) (p q : A -> bool) (l : list A) :
  (forall x, p x = true -> q x = true) ->
  filter p (filter q l) = filter p l.
Proof.
  intros H. induction l as [|x l IH]; [reflexivity|].
  cbn [filter]. destruct (q x) eqn:Eq.
  - cbn [filter]. now rewrite IH.
  - destruct (p x) eqn:Ep; [|exact IH].
    rewrite (H x Ep) in Eq. discriminate.
Qed.

(** The buckets of a list, taken for distinct keys that cover it, hold
    its samples, each once. *)
Lemma buckets_partition (keys : list jsstring)
    (items : list OWMForecastItem.t) :
  NoDup keys ->
  (forall item, In item items -> In (itemDateKey h item) keys) ->
  Permutation (concat (map (fun d => bucket d items) keys)) items.
Proof.
  revert items. induction keys as [|k keys IH]; intros items Hnd Hcover.
  - destruct items as [|x items]; [constructor|].
    destruct (Hcover x (or_introl eq_refl)).
  - inversion Hnd as [|? ? Hk Hnd']; subst. cbn [map concat].
    set (others := filter (fun x => negb (String_eqb (itemDateKey h x) k))
                     items).
    assert (Hsame : map (fun d => bucket d items) keys
                    = map (fun d => bucket d others) keys).
    { apply map_ext_in. intros d Hd. unfold Notions.bucket, others.
      symmetry. apply filter_filter_implied. intros x Hx.
      apply String_eqb_eq in Hx. apply negb_true_iff, String_eqb_neq.
      intros E. apply Hk. now rewrite <- E, Hx. }
    rewrite Hsame.
    eapply Permutation_trans;
      [apply Permutation_app_head, (IH others Hnd')|apply filter_partition].
    intros x Hx. unfold others in Hx. apply filter_In in Hx.
    destruct Hx as [Hx Hne]. destruct (Hcover x Hx) as [E|Hin]; [|exact Hin].
    apply negb_true_iff, String_eqb_neq in Hne. congruence.
Qed.

Lemma Array_map_pointwise (A B : Type) (f : A -> Completion B) (g : A -> B)
    (xs : list A) :
  (forall x, In x xs -> f x = Normal (g x)) ->
  Array_map f xs = Normal (map g xs).
Proof.
  induction xs as [|x xs IH]; [reflexivity|]. intros H.
  cbn [Array_map map]. rewrite (H x (or_introl eq_refl)). cbn [bind].
  rewrite IH; [reflexivity|]. intros y Hy. apply H. now right.
Qed.

(** The record of a sample, or an empty one for a sample without
    condition. *)
Local Abbreviation recordOf item :=
  (match transformHourlyItem h item with
   | Normal r => r
   | Throw _ =>
       {| HourlyWeather.time := []; HourlyWeather.temp := 0;
          HourlyWeather.feelsLike := 0; HourlyWeather.humidity := 0;
          HourlyWeather.windSpeed := 0; HourlyWeather.condition := [];
          HourlyWeather.description := []; HourlyWeather.icon := [];
          HourlyWeather.pop := 0 |}
   end).

(** When every day of a list has its summary, every sample has its
    record, and the records of the summaries are those of the samples. *)
Lemma all_days_report_all (items : list OWMForecastItem.t)
    (fs : list DayForecast.t) :
  Forall2 (fun d f => dayForecast h d (bucket d items) = Normal f)
          (sortedKeys items) fs ->
  exists records,
    Array_map (transformHourlyItem h) items = Normal records
    /\ Permutation (concat (map DayForecast.hourly fs)) records
    /\ length records = length items.
Proof.
  intros Hdays.
  assert (Hrecord : forall item, In item items ->
            transformHourlyItem h item = Normal (recordOf item)).
  { intros item Hitem.
    assert (Hkey : In (itemDateKey h item) (sortedKeys items))
      by (apply sortedKeys_In; now apply in_map).
    destruct (@Forall2_In_l _ _ _ _ _ _ Hdays Hkey) as (f & _ & Hf).
    apply dayForecast_hourly in Hf.
    assert (Hin : In item (bucket (itemDateKey h item) items))
      by (apply filter_In; split; [exact Hitem|apply String_eqb_refl]).
    destruct (@Forall2_In_l _ _ _ _ _ _ Hf Hin) as (r & _ & Hr).
    now rewrite Hr. }
  exists (map (fun item => recordOf item) items). split; [|split].
  - now apply Array_map_pointwise.
  - assert (Hhourly : map DayForecast.hourly fs
                      = map (fun d => map (fun item => recordOf item)
                                          (bucket d items))
                            (sortedKeys items)).
    { clear -Hdays Hrecord. induction Hdays as [|d f ds fs Hf _ IH];
        [reflexivity|].
      cbn [map]. f_equal; [|exact IH].
      apply dayForecast_Normal in Hf. destruct Hf as (_ & _ & Hf & _).
      rewrite (@Array_map_pointwise _ _ _ (fun item => recordOf item)) in Hf.
      - now injection Hf.
      - intros x Hx. apply Hrecord. now apply filter_In in Hx. }
    rewrite Hhourly.
    rewrite <- (map_map (fun d => bucket d items)
                        (map (fun item => recordOf item))).
    rewrite <- concat_map. apply Permutation_map.
    apply buckets_partition.
    + apply sorted_NoDup, sortedKeys_sorted.
    + intros item Hitem. apply sortedKeys_In. now apply in_map.
  - apply length_map.
Qed.

Lemma all_keys (n : nat) (items : list OWMForecastItem.t) :
  (distinctDays items <= n)%nat ->
  firstn n (sortedKeys items) = sortedKeys items.
Proof.
  intros H. apply firstn_all2. now rewrite sortedKeys_length.
Qed.

Lemma reported (items : list OWMForecastItem.t)
    (out : list DayForecast.t) :
  transformForecastData h items = Normal out ->
  (~ startsAfterToday items -> (distinctDays items <= 6)%nat ->
   exists records,
     Array_map (transformHourlyItem h) items = Normal records
     /\ Permutation (concat (map DayForecast.hourly out)) records)
  /\ (startsAfterToday items -> (distinctDays items <= 5)%nat ->
      exists records f0 fs,
        Array_map (transformHourlyItem h) items = Normal records
        /\ out = f0 :: fs
        /\ DayForecast.hourly f0 = firstn 1 records
        /\ Permutation (concat (map DayForecast.hourly fs)) records).
Proof.
  intros Hout. split.
  - intros Hregular Hdays.
    pose proof (transform_regular Hregular Hout) as H.
    rewrite all_keys in H by exact Hdays.
    destruct (@all_days_report_all _ _ H) as (records & Hrecords & Hperm & _).
    eauto.
  - intros Hafter Hdays.
    destruct items as [|first others]; [now destruct Hafter|].
    destruct (transform_backfill Hafter Hout) as (f0 & fs & -> & Hf0 & H).
    rewrite all_keys in H by exact Hdays.
    destruct (@all_days_report_all _ _ H) as (records & Hrecords & Hperm & _).
    exists records, f0, fs. repeat split; try assumption.
    apply dayForecast_Normal in Hf0. destruct Hf0 as (_ & _ & Hf0 & _).
    cbn [Array_map] in Hf0, Hrecords.
    destruct (transformHourlyItem h first) as [r|]; [|discriminate].
    cbn [bind] in Hf0, Hrecords. injection Hf0 as <-.
    destruct (Array_map (transformHourlyItem h) others); [|discriminate].
    cbn [bind] in Hrecords. now injection Hrecords as <-.
Qed.

(** X25.  No sample is lost or repeated as long as the days fit: when
    today need not be put in front and the list spans at most 6 days, the
    hourly records of the summaries are the records of the samples, each
    once; when today is put in front and the list spans at most 5 days,
    the same holds of the summaries after the first, whose only record is
    that of the first sample. *)
Theorem every_sample_is_reported (items : list OWMForecastItem.t)
    (out : list DayForecast.t) :
  transformForecastData h items = Normal out ->
  (~ startsAfterToday items -> (distinctDays items <= 6)%nat ->
   exists records,
     Array_map (transformHourlyItem h) items = Normal records
     /\ Permutation (concat (map DayForecast.hourly out)) records)
  /\ (startsAfterToday items -> (distinctDays items <= 5)%nat ->
      exists records f0 fs,
        Array_map (transformHourlyItem h) items = Normal records
        /\ out = f0 :: fs
        /\ DayForecast.hourly f0 = firstn 1 records
        /\ Permutation (concat (map DayForecast.hourly fs)) records).
Proof. apply reported. Qed.

(** X26.  A sample without a condition makes the aggregation throw: when
    the list spans at most 5 days, so that no day is cut off, and one of
    its samples has an empty [weather] array, [transformForecastData]
    throws a [TypeError]; it never returns summaries made of the other
    samples. *)
Theorem sample_without_condition_throws (items : list OWMForecastItem.t)
    (item : OWMForecastItem.t) :
  In item items ->
  OWMForecastItem.weather item = [] ->
  (distinctDays items <= 5)%nat ->
  transformForecastData h items = Throw TypeError.
Proof.
  intros Hitem Hweather Hdays.
  destruct (transformForecastData h items) as [out|[]] eqn:Hout;
    [exfalso|reflexivity].
  assert (Hrecords : exists records,
            Array_map (transformHourlyItem h) items = Normal records).
  { destruct (@reported _ _ Hout) as [Hregular Hafter].
    destruct (todayMissing (sortedKeys items) todayKey) eqn:E.
    - apply todayMissing_iff in E.
      destruct (Hafter E Hdays) as (records & _ & _ & Hrecords & _). eauto.
    - assert (H : ~ startsAfterToday items).
      { intros H. apply todayMissing_iff in H. congruence. }
      destruct (Hregular H) as (records & Hrecords & _); [lia|eauto]. }
  destruct Hrecords as [records Hrecords].
  apply Array_map_Normal in Hrecords.
  destruct (@Forall2_In_l _ _ _ _ _ _ Hrecords Hitem) as (r & _ & Hr).
  unfold transformHourlyItem, weather0 in Hr. rewrite Hweather in Hr.
  discriminate.
Qed.

End WithHost.

Lemma daily_extremes_are_hourly_extremes_witness :
  let f := Samples.firstOf
             (transformForecastData Examples.morning Examples.threeSamples) in
  (forall r, In r (DayForecast.hourly f) ->
     (DayForecast.tempLow f <= HourlyWeather.temp r)%Q
     /\ (HourlyWeather.temp r <= DayForecast.tempHigh f)%Q)
  /\ (exists r, In r (DayForecast.hourly f)
                /\ HourlyWeather.temp r = DayForecast.tempHigh f)
  /\ (exists r, In r (DayForecast.hourly f)
                /\ HourlyWeather.temp r = DayForecast.tempLow f).
Proof.
  apply (@daily_extremes_are_hourly_extremes Examples.morning
           Examples.threeSamples
           (Examples.valueOf
              (transformForecastData Examples.morning Examples.threeSamples))).
  - reflexivity.
  - vm_compute. left. reflexivity.
Defined.

Lemma every_sample_is_reported_witness :
  (~ startsAfterToday Examples.morning
       [Examples.at0900; Examples.at1200; Examples.tomorrow0000] ->
   (distinctDays Examples.morning
      [Examples.at0900; Examples.at1200; Examples.tomorrow0000] <= 6)%nat ->
   exists records,
     Array_map (transformHourlyItem Examples.morning)
       [Examples.at0900; Examples.at1200; Examples.tomorrow0000]
     = Normal records
     /\ Permutation
          (concat
             (map DayForecast.hourly
                (Examples.valueOf
                   (transformForecastData Examples.morning
                      [Examples.at0900; Examples.at1200;
                       Examples.tomorrow0000]))))
          records)
  /\ (startsAfterToday Examples.morning
         [Examples.at0900; Examples.at1200; Examples.tomorrow0000] ->
      (distinctDays Examples.morning
         [Examples.at0900; Examples.at1200; Examples.tomorrow0000] <= 5)%nat ->
      exists records f0 fs,
        Array_map (transformHourlyItem Examples.morning)
          [Examples.at0900; Examples.at1200; Examples.tomorrow0000]
        = Normal records
        /\ Examples.valueOf
             (transformForecastData Examples.morning
                [Examples.at0900; Examples.at1200; Examples.tomorrow0000])
           = f0 :: fs
        /\ DayForecast.hourly f0 = firstn 1 records
        /\ Permutation (concat (map DayForecast.hourly fs)) records).
Proof.
  apply (@every_sample_is_reported Examples.morning
           [Examples.at0900; Examples.at1200; Examples.tomorrow0000]).
  vm_compute. reflexivity.
Defined.

Lemma sample_without_condition_throws_witness :
  transformForecastData Examples.morning
    [Examples.at0900; Examples.withoutCondition]
  = Throw TypeError.
Proof.
  apply (@sample_without_condition_throws Examples.morning
           [Examples.at0900; Examples.withoutCondition]
           Examples.withoutCondition).
  - right. left. reflexivity.
  - reflexivity.
  - vm_compute. lia.
Defined.

End ForecastFacts.

(* ===================================================================== *)
(** * The calendar of the host                                            *)
(* ===================================================================== *)

Module CalendarFacts.

Import Calendar.

Lemma upto_spec (n : nat) (lo : Z) (p : Z -> bool) :
  upto n lo p = true ->
  forall y, lo <= y < lo + Z.of_nat n -> p y = true.
Proof.
  revert lo. induction n as [|n IH]; intros lo H y Hy; [lia|].
  cbn [upto] in H. apply andb_true_iff in H. destruct H as [Hlo H].
  destruct (Z.eq_dec y lo) as [->|Hne]; [exact Hlo|].
  apply (IH (lo + 1) H). lia.
Qed.

(** ** The year of a day of an era *)

Lemma yearEnds_all (y : Z) : 0 <= y <= 399 -> yearEnds y = true.
Proof.
  intros Hy. apply (@upto_spec 400 0 yearEnds); [vm_compute; reflexivity|lia].
Qed.

Lemma yearOfEra_mono (a b : Z) :
  0 <= a <= b -> b <= 146095 -> yearOfEra a <= yearOfEra b.
Proof.
  intros Hab Hb. unfold yearOfEra. apply Z.div_le_mono; [lia|].
  replace (a / 146096) with 0 by (symmetry; apply Z.div_small; lia).
  replace (b / 146096) with 0 by (symmetry; apply Z.div_small; lia).
  assert (a / 36524 <= b / 36524) by (apply Z.div_le_mono; lia).
  assert (b / 1460 - a / 1460 <= b - a).
  { Z.div_mod_to_equations. lia. }
  lia.
Qed.

Lemma yearEnds_facts (y : Z) :
  0 <= y <= 399 ->
  yearOfEra (yearStart y) = y /\ yearOfEra (yearEnd y) = y
  /\ yearStart y <= yearEnd y /\ yearEnd y - yearStart y <= 365
  /\ 0 <= yearStart y /\ yearEnd y <= 146096.
Proof.
  intros Hy. pose proof (yearEnds_all Hy) as H. unfold yearEnds in H.
  repeat (apply andb_true_iff in H; destruct H as [H ?]).
  repeat match goal with
         | H : (_ =? _) = true |- _ => apply Z.eqb_eq in H
         | H : (_ <=? _) = true |- _ => apply Z.leb_le in H
         end.
  repeat split; assumption.
Qed.

(** The year [civil_from_days] computes for a day of an era is the year
    the day falls into. *)
Lemma yearOfEra_spec (doe : Z) :
  0 <= doe <= 146096 ->
  0 <= yearOfEra doe <= 399
  /\ yearStart (yearOfEra doe) <= doe
  /\ doe - yearStart (yearOfEra doe) <= 365.
Proof.
  intros Hdoe.
  assert (H399 : yearOfEra 146096 = 399) by reflexivity.
  assert (H398 : yearOfEra 146095 = 399) by reflexivity.
  assert (H0 : yearOfEra 0 = 0) by reflexivity.
  assert (Hrange : 0 <= yearOfEra doe <= 399).
  { destruct (Z.eq_dec doe 146096) as [->|Hne]; [lia|].
    pose proof (@yearOfEra_mono 0 doe). pose proof (@yearOfEra_mono doe 146095).
    lia. }
  split; [exact Hrange|].
  set (y := yearOfEra doe) in *.
  destruct (yearEnds_facts Hrange) as (Hs & He & Hse & Hlen & Hs0 & He1).
  assert (Hlow : yearStart y <= doe).
  { destruct (Z_le_gt_dec (yearStart y) doe) as [H|H]; [exact H|exfalso].
    assert (Hy1 : 0 <= y - 1 <= 399).
    { destruct (Z.eq_dec y 0) as [E|]; [|lia].
      rewrite E in H. change (yearStart 0) with 0 in H. lia. }
    destruct (yearEnds_facts Hy1) as (_ & He' & _ & _ & _ & _).
    assert (Hend : yearEnd (y - 1) = yearStart y - 1).
    { unfold yearEnd. destruct (Z.eqb_spec (y - 1) 399); [lia|].
      now replace (y - 1 + 1) with y by lia. }
    pose proof (@yearOfEra_mono doe (yearEnd (y - 1))). lia. }
  split; [exact Hlow|].
  destruct (Z_le_gt_dec doe (yearEnd y)) as [H|H]; [lia|exfalso].
  assert (Hy : y <> 399).
  { intros E. unfold yearEnd in H. rewrite E in H. cbn in H. lia. }
  assert (Hy1 : 0 <= y + 1 <= 399) by lia.
  destruct (yearEnds_facts Hy1) as (Hs' & _).
  assert (Hend : yearEnd y = yearStart (y + 1) - 1).
  { unfold yearEnd. destruct (Z.eqb_spec y 399); [lia|reflexivity]. }
  destruct (Z.eq_dec doe 146096) as [E|Hne].
  - subst doe. unfold y in Hy. lia.
  - pose proof (@yearOfEra_mono (yearStart (y + 1)) doe). lia.
Qed.


(** ** Days and civil dates *)

(** The parts [civil_from_days] goes through. *)
Lemma civil_from_days_eq (z : Z) :
  let era := (z + 719468) / 146097 in
  let doe := z + 719468 - era * 146097 in
  let yoe := yearOfEra doe in
  let doy := doe - yearStart yoe in
  let mp := (5 * doy + 2) / 153 in
  civil_from_days z
  = (if (if mp <? 10 then mp + 3 else mp - 9) <=? 2
     then yoe + era * 400 + 1 else yoe + era * 400,
     if mp <? 10 then mp + 3 else mp - 9,
     doy - (153 * mp + 2) / 5 + 1).
Proof. reflexivity. Qed.

Lemma civil_parts (z : Z) :
  let era := (z + 719468) / 146097 in
  let doe := z + 719468 - era * 146097 in
  let yoe := yearOfEra doe in
  let doy := doe - yearStart yoe in
  let mp := (5 * doy + 2) / 153 in
  0 <= yoe <= 399 /\ 0 <= doy <= 365 /\ 0 <= mp <= 11
  /\ 1 <= doy - (153 * mp + 2) / 5 + 1 <= 31.
Proof.
  intros era doe yoe doy mp.
  assert (Hdoe : 0 <= doe <= 146096).
  { unfold doe, era. pose proof (Z.mod_pos_bound (z + 719468) 146097).
    pose proof (Z.div_mod (z + 719468) 146097). lia. }
  destruct (yearOfEra_spec Hdoe) as (Hyoe & Hlow & Hhigh).
  fold yoe in Hyoe, Hlow, Hhigh.
  assert (Hdoy : 0 <= doy <= 365) by (unfold doy; lia).
  split; [exact Hyoe|]. split; [exact Hdoy|].
  unfold mp. clearbody doy. clear - Hdoy.
  Z.div_mod_to_equations. lia.
Qed.

(** [days_from_civil] undoes [civil_from_days]. *)
Lemma days_from_civil_from_days (z : Z) :
  (let '(y, m, d) := civil_from_days z in days_from_civil y m d) = z.
Proof.
  rewrite civil_from_days_eq. cbv zeta.
  destruct (civil_parts z) as (Hyoe & Hdoy & Hmp & Hd). cbv zeta in *.
  set (era := (z + 719468) / 146097) in *.
  set (doe := z + 719468 - era * 146097) in *.
  set (yoe := yearOfEra doe) in *.
  set (doy := doe - yearStart yoe) in *.
  set (mp := (5 * doy + 2) / 153) in *.
  assert (Hera : forall y, y = yoe + era * 400 -> y / 400 = era).
  { intros y ->. rewrite Z.div_add by lia.
    rewrite Z.div_small by lia. lia. }
  unfold days_from_civil.
  destruct (Z.ltb_spec mp 10) as [Hlt|Hge].
  - destruct (Z.leb_spec (mp + 3) 2) as [|_]; [lia|].
    destruct (Z.ltb_spec 2 (mp + 3)) as [_|]; [|lia].
    rewrite (Hera _ eq_refl).
    replace (mp + 3 - 3) with mp by lia.
    replace (yoe + era * 400 - era * 400) with yoe by lia.
    unfold doy, yearStart. lia.
  - destruct (Z.leb_spec (mp - 9) 2) as [_|]; [|lia].
    destruct (Z.ltb_spec 2 (mp - 9)) as [|_]; [lia|].
    replace (yoe + era * 400 + 1 - 1) with (yoe + era * 400) by lia.
    rewrite (Hera _ eq_refl).
    replace (mp - 9 + 9) with mp by lia.
    replace (yoe + era * 400 - era * 400) with yoe by lia.
    unfold doy, yearStart. lia.
Qed.

Lemma civil_from_days_fields (z : Z) :
  let '(y, m, d) := civil_from_days z in
  1 <= m <= 12 /\ 1 <= d <= 31 /\ days_from_civil y m d = z.
Proof.
  pose proof (days_from_civil_from_days z) as Hround.
  rewrite civil_from_days_eq in *. cbv zeta in *.
  destruct (civil_parts z) as (_ & _ & Hmp & Hd). cbv zeta in *.
  repeat split; try exact Hround; try lia.
  - destruct (Z.ltb_spec ((5 * (z + 719468 - (z + 719468) / 146097 * 146097 - yearStart (yearOfEra (z + 719468 - (z + 719468) / 146097 * 146097))) + 2) / 153) 10); lia.
  - destruct (Z.ltb_spec ((5 * (z + 719468 - (z + 719468) / 146097 * 146097 - yearStart (yearOfEra (z + 719468 - (z + 719468) / 146097 * 146097))) + 2) / 153) 10); lia.
Qed.

(** Days with the same civil date are the same day. *)
Lemma civil_from_days_injective (a b : Z) :
  civil_from_days a = civil_from_days b -> a = b.
Proof.
  intros H. rewrite <- (days_from_civil_from_days a),
    <- (days_from_civil_from_days b). now rewrite H.
Qed.

End CalendarFacts.

(* ===================================================================== *)
(** * Date keys, day names and times                                      *)
(* ===================================================================== *)

Module DateFacts.

Import Calendar CalendarFacts WeatherService.

(** ** Digits *)

Lemma digit_char (x : Z) : 0 <= x <= 9 -> digit (Z.to_N (48 + x)) = Some x.
Proof.
  intros H.
  assert (E : x = 0 \/ x = 1 \/ x = 2 \/ x = 3 \/ x = 4 \/ x = 5 \/ x = 6
              \/ x = 7 \/ x = 8 \/ x = 9) by lia.
  repeat (destruct E as [->|E]; [reflexivity|]). now subst.
Qed.

Lemma digits2_twoDigits (n : Z) :
  0 <= n <= 99 ->
  digits2 (Z.to_N (48 + n / 10)) (Z.to_N (48 + n mod 10)) = Some n.
Proof.
  intros H. unfold digits2.
  rewrite !digit_char by (Z.div_mod_to_equations; lia).
  f_equal. Z.div_mod_to_equations. lia.
Qed.

Lemma digits4_twoDigits (y : Z) :
  0 <= y <= 9999 ->
  digits4 (Z.to_N (48 + y / 100 / 10)) (Z.to_N (48 + (y / 100) mod 10))
          (Z.to_N (48 + y mod 100 / 10)) (Z.to_N (48 + (y mod 100) mod 10))
  = Some y.
Proof.
  intros H. unfold digits4.
  rewrite !digits2_twoDigits by (Z.div_mod_to_equations; lia).
  f_equal. Z.div_mod_to_equations. lia.
Qed.

Lemma padStart_twoDigits (n : Z) :
  0 <= n <= 99 -> String_padStart (Z_toString n) 2 (str "0") = twoDigits n.
Proof.
  intros H. apply String_eqb_eq.
  apply (@upto_spec 100 0 paddedTwoDigits); [vm_compute; reflexivity|lia].
Qed.

Lemma toString_fourDigits (y : Z) :
  fourDigitYear y ->
  Z_toString y = twoDigits (y / 100) ++ twoDigits (y mod 100).
Proof.
  intros H. apply String_eqb_eq.
  apply (@upto_spec (Z.to_nat 9000) 1000 writtenWithFourDigits);
    [vm_compute; reflexivity|].
  unfold fourDigitYear in H. rewrite Z2Nat.id; lia.
Qed.

(** ** Keys *)

Section WithHost.

Variable h : Host.

Lemma localDateKey_fields (t : Z) (y m d : Z) :
  civil_from_days (localDay h t) = (y, m, d) ->
  localDateKey h (Some t)
  = Z_toString y ++ str "-"
      ++ String_padStart (Z_toString m) 2 (str "0") ++ str "-"
      ++ String_padStart (Z_toString d) 2 (str "0").
Proof.
  intros E. unfold localDateKey, getFullYear, getMonth, getDate,
    YearFromTime, MonthFromTime, DateFromTime. cbn [option_map Number_toString].
  unfold localDay in E. rewrite E. cbn [fst snd].
  now replace (m - 1 + 1) with m by lia.
Qed.

(** The key of an instant in a year of four digits: the year, the month
    and the day, each with all its digits. *)
Lemma localDateKey_digits (t : Z) (y m d : Z) :
  civil_from_days (localDay h t) = (y, m, d) ->
  fourDigitYear y ->
  localDateKey h (Some t)
  = twoDigits (y / 100) ++ twoDigits (y mod 100) ++ str "-"
      ++ twoDigits m ++ str "-" ++ twoDigits d.
Proof.
  intros E Hy. rewrite (localDateKey_fields _ E).
  pose proof (civil_from_days_fields (localDay h t)) as H. rewrite E in H.
  destruct H as (Hm & Hd & _).
  rewrite (toString_fourDigits Hy), !padStart_twoDigits by lia.
  now rewrite <- app_assoc.
Qed.

Lemma days_bound (y m d : Z) :
  0 <= y <= 9999 -> 1 <= m <= 12 -> 1 <= d <= 31 ->
  Z.abs (days_from_civil y m d) <= 4000000.
Proof.
  unfold days_from_civil. intros Hy Hm Hd.
  destruct (m <=? 2), (2 <? m); Z.div_mod_to_equations; lia.
Qed.

Variable offset : Z.
Hypothesis Hzone : fixedOffset h offset.

Lemma LocalTime_fixed (t : Z) : LocalTime h t = t + offset.
Proof. unfold LocalTime. now rewrite (proj1 Hzone). Qed.

Lemma UTC_fixed (t : Z) : UTC h t = t - offset.
Proof. unfold UTC. now rewrite (proj1 Hzone). Qed.

Lemma Day_within (day ms : Z) :
  0 <= ms < msPerDay -> Day (day * msPerDay + ms) = day.
Proof.
  intros H. unfold Day, msPerDay in *. Z.div_mod_to_equations. lia.
Qed.

(** Reading a key back at noon gives noon of its day. *)
Lemma parse_key_at_noon (t : Z) :
  inFourDigitYear h t ->
  Date_parse h (localDateKey h (Some t) ++ str "T12:00:00")
  = Some (localDay h t * msPerDay + 43200000 - offset).
Proof.
  intros Hy. destruct (civil_from_days (localDay h t)) as [[y m] d] eqn:E.
  assert (Hyear : fourDigitYear y).
  { unfold inFourDigitYear, YearFromTime in Hy. unfold localDay in E.
    now rewrite E in Hy. }
  pose proof (civil_from_days_fields (localDay h t)) as H. rewrite E in H.
  destruct H as (Hm & Hd & Hround).
  rewrite (localDateKey_digits _ E Hyear).
  unfold twoDigits.
  change (str "-") with [45%N].
  change (str "T12:00:00")
    with [84%N; 49%N; 50%N; 58%N; 48%N; 48%N; 58%N; 48%N; 48%N].
  cbn [app]. cbv beta iota delta [Date_parse].
  unfold fourDigitYear in Hyear.
  rewrite digits4_twoDigits by lia.
  rewrite !digits2_twoDigits by lia.
  change (digits2 49 50) with (Some 12).
  change (digits2 48 48) with (Some 0).
  cbv iota.
  destruct (Z.leb_spec 1 m) as [_|]; [|lia].
  destruct (Z.leb_spec m 12) as [_|]; [|lia].
  destruct (Z.leb_spec 1 d) as [_|]; [|lia].
  destruct (Z.leb_spec d 31) as [_|]; [|lia].
  cbn [andb Z.leb Z.compare Pos.compare Pos.compare_cont].
  cbv iota. rewrite Hround, UTC_fixed.
  pose proof (@days_bound y m d) as Hbound. rewrite Hround in Hbound.
  unfold TimeClip.
  destruct (Z.leb_spec
              (Z.abs (localDay h t * msPerDay + 12 * 3600000 + 0 * 60000
                      + 0 * 1000 - offset)) 8640000000000000) as [_|Hbig].
  - f_equal. lia.
  - exfalso. destruct Hzone as [_ Hoffset]. unfold msPerDay in *.
    specialize (Hbound ltac:(lia) Hm Hd). lia.
Qed.

(** The keys of two instants agree exactly when their local days do. *)
Lemma localDateKey_same_day (t u : Z) :
  inFourDigitYear h t -> inFourDigitYear h u ->
  localDateKey h (Some t) = localDateKey h (Some u)
  <-> localDay h t = localDay h u.
Proof.
  intros Ht Hu. split.
  - intros E. pose proof (parse_key_at_noon Ht) as Pt.
    pose proof (parse_key_at_noon Hu) as Pu. rewrite E in Pt.
    rewrite Pt in Pu. injection Pu. unfold msPerDay. lia.
  - intros E.
    destruct (civil_from_days (localDay h t)) as [[y m] d] eqn:Et.
    assert (Eu : civil_from_days (localDay h u) = (y, m, d))
      by now rewrite <- E.
    now rewrite (localDateKey_fields _ Et), (localDateKey_fields _ Eu).
Qed.

Lemma getDayName_key (t : Z) :
  inFourDigitYear h t ->
  getDayName h (localDateKey h (Some t))
  = if localDay h t =? localDay h (currentTime h) then str "Today"
    else weekdayName ((localDay h t + 4) mod 7).
Proof.
  intros Hy. unfold getDayName. rewrite (parse_key_at_noon Hy).
  unfold getFullYear, getMonth, getDate, Date_now, toLocaleDateString_weekday,
    YearFromTime, MonthFromTime, DateFromTime, WeekDay.
  cbn [option_map Number_strictEq].
  rewrite LocalTime_fixed.
  replace (localDay h t * msPerDay + 43200000 - offset + offset)
    with (localDay h t * msPerDay + 43200000) by lia.
  rewrite Day_within by (unfold msPerDay; lia).
  change (Day (LocalTime h (currentTime h))) with (localDay h (currentTime h)).
  destruct (Z.eqb_spec (localDay h t) (localDay h (currentTime h))) as [E|Hne].
  - rewrite E, !Z.eqb_refl. reflexivity.
  - destruct (civil_from_days (localDay h t)) as [[y m] d] eqn:Et.
    destruct (civil_from_days (localDay h (currentTime h)))
      as [[y' m'] d'] eqn:En.
    cbn [fst snd].
    destruct (Z.eqb_spec y y') as [->|]; [|reflexivity].
    destruct (Z.eqb_spec (m - 1) (m' - 1)) as [Em|]; [|reflexivity].
    destruct (Z.eqb_spec d d') as [->|]; [|reflexivity].
    exfalso. apply Hne. apply civil_from_days_injective.
    rewrite Et, En. f_equal. f_equal. lia.
Qed.


(** An instant in a year of four digits is a time value. *)
Lemma TimeClip_fourDigitYear (t : Z) :
  inFourDigitYear h t -> TimeClip t = Some t.
Proof.
  intros Hy. unfold inFourDigitYear, YearFromTime in Hy.
  pose proof (civil_from_days_fields (Day (LocalTime h t))) as H.
  destruct (civil_from_days (Day (LocalTime h t))) as [[y m] d].
  cbn [fst] in Hy. destruct H as (Hm & Hd & Hround).
  pose proof (@days_bound y m d) as Hbound. rewrite Hround in Hbound.
  unfold fourDigitYear in Hy. specialize (Hbound ltac:(lia) Hm Hd).
  rewrite LocalTime_fixed in Hbound. destruct Hzone as [_ Hoffset].
  unfold TimeClip.
  destruct (Z.leb_spec (Z.abs t) 8640000000000000) as [_|Hbig];
    [reflexivity|exfalso].
  unfold Day, msPerDay in *. Z.div_mod_to_equations. lia.
Qed.

Lemma dayForecast_dayName (date : jsstring)
    (dayItems : list OWMForecastItem.t) (f : DayForecast.t) :
  dayForecast h date dayItems = Normal f ->
  DayForecast.dayName f = getDayName h date.
Proof.
  unfold dayForecast. intros H. WeatherFacts.invert_binds H.
  now injection H as <-.
Qed.

Lemma named (items : list OWMForecastItem.t) (out : list DayForecast.t)
    (f : DayForecast.t) :
  inFourDigitYear h (currentTime h) ->
  (forall item, In item items ->
     inFourDigitYear h (OWMForecastItem.dt item * 1000)) ->
  transformForecastData h items = Normal out ->
  In f out ->
  (DayForecast.date f = Notions.todayKey h ->
   DayForecast.dayName f = str "Today")
  /\ (DayForecast.date f <> Notions.todayKey h ->
      exists item,
        In item items
        /\ itemDateKey h item = DayForecast.date f
        /\ DayForecast.dayName f
           = weekdayName
               (WeekDay (LocalTime h (OWMForecastItem.dt item * 1000)))).
Proof.
  intros Hnow Hitems Hout Hf.
  assert (Hname : DayForecast.dayName f = getDayName h (DayForecast.date f)).
  { destruct (WeatherFacts.transform_members h items f Hout Hf)
      as [H|(_ & _ & H)]; (eapply dayForecast_dayName; exact H). }
  split.
  - intros Hdate. rewrite Hname, Hdate. unfold Notions.todayKey, Date_now.
    rewrite getDayName_key by exact Hnow. now rewrite Z.eqb_refl.
  - intros Hdate.
    destruct (WeatherFacts.transform_members h items f Hout Hf)
      as [H|(_ & Htoday & _)]; [|congruence].
    apply WeatherFacts.dayForecast_Normal in H.
    destruct H as (_ & _ & _ & Hne & _).
    destruct (Notions.bucket h (DayForecast.date f) items) as [|item more]
      eqn:Ebucket; [congruence|].
    assert (Hin : In item (Notions.bucket h (DayForecast.date f) items))
      by (rewrite Ebucket; now left).
    apply filter_In in Hin. destruct Hin as [Hin Hkey].
    apply String_eqb_eq in Hkey.
    exists item. split; [exact Hin|]. split; [exact Hkey|].
    specialize (Hitems item Hin).
    assert (Ekey : itemDateKey h item
                   = localDateKey h (Some (OWMForecastItem.dt item * 1000))).
    { unfold itemDateKey, Date_ofValue.
      now rewrite TimeClip_fourDigitYear by exact Hitems. }
    rewrite Hname, <- Hkey, Ekey, getDayName_key by exact Hitems.
    destruct (Z.eqb_spec (localDay h (OWMForecastItem.dt item * 1000))
                         (localDay h (currentTime h))) as [E|_];
      [|reflexivity].
    exfalso. apply Hdate. rewrite <- Hkey, Ekey.
    unfold Notions.todayKey, Date_now.
    now apply localDateKey_same_day.
Qed.

(** ** Times *)

Lemma String_replace_first (before after rep : jsstring) (c : N) :
  forallb (fun x => negb (x =? c)%N) before = true ->
  String_replace (before ++ [c] ++ after) [c] rep = before ++ rep ++ after.
Proof.
  intros H. induction before as [|x before IH].
  - cbn [app String_replace String_startsWith]. rewrite N.eqb_refl.
    cbn [andb length skipn]. now destruct after.
  - cbn [forallb] in H. apply andb_true_iff in H. destruct H as [Hx H].
    cbn [app String_replace String_startsWith].
    apply negb_true_iff in Hx. rewrite N.eqb_sym, Hx. cbn [andb].
    now rewrite <- IH.
Qed.

Lemma twoDigits_no_space (n : Z) :
  0 <= n <= 99 ->
  forallb (fun x => negb (x =? 32)%N) (twoDigits n) = true.
Proof.
  intros H. unfold twoDigits. cbn [forallb].
  assert (Hd : forall x, 0 <= x <= 9 -> negb (Z.to_N (48 + x) =? 32)%N = true).
  { intros x Hx. apply negb_true_iff, N.eqb_neq. lia. }
  rewrite !Hd by (Z.div_mod_to_equations; lia). reflexivity.
Qed.

Lemma formatTime_dtTxt (y m d hh mm ss : Z) :
  0 <= y <= 9999 -> 1 <= m <= 12 -> 1 <= d <= 31 ->
  0 <= hh <= 23 -> 0 <= mm <= 59 -> 0 <= ss <= 59 ->
  formatTime h (dtTxt y m d hh mm ss)
  = Z_toString (hour12 hh) ++ str ":" ++ twoDigits mm
      ++ dayPeriodSeparator h ++ (if hh <? 12 then str "AM" else str "PM").
Proof.
  intros Hy Hm Hd Hhh Hmm Hss. unfold formatTime, dtTxt.
  change (str " ") with [32%N].
  replace (twoDigits (y / 100) ++ twoDigits (y mod 100) ++ str "-"
             ++ twoDigits m ++ str "-" ++ twoDigits d ++ [32%N]
             ++ twoDigits hh ++ str ":" ++ twoDigits mm ++ str ":"
             ++ twoDigits ss)
    with ((twoDigits (y / 100) ++ twoDigits (y mod 100) ++ str "-"
             ++ twoDigits m ++ str "-" ++ twoDigits d) ++ [32%N]
            ++ (twoDigits hh ++ str ":" ++ twoDigits mm ++ str ":"
                  ++ twoDigits ss))
    by now rewrite <- !app_assoc.
  rewrite String_replace_first.
  2:{ rewrite !forallb_app, !twoDigits_no_space
        by (Z.div_mod_to_equations; lia). reflexivity. }
  unfold twoDigits.
  change (str "-") with [45%N]. change (str ":") with [58%N].
  change (str "T") with [84%N].
  cbn [app]. cbv beta iota delta [Date_parse].
  rewrite digits4_twoDigits by lia.
  rewrite !digits2_twoDigits by lia.
  cbv iota.
  destruct (Z.leb_spec 1 m) as [_|]; [|lia].
  destruct (Z.leb_spec m 12) as [_|]; [|lia].
  destruct (Z.leb_spec 1 d) as [_|]; [|lia].
  destruct (Z.leb_spec d 31) as [_|]; [|lia].
  destruct (Z.leb_spec hh 23) as [_|]; [|lia].
  destruct (Z.leb_spec mm 59) as [_|]; [|lia].
  destruct (Z.leb_spec ss 59) as [_|]; [|lia].
  cbn [andb]. rewrite UTC_fixed.
  pose proof (@days_bound y m d Hy Hm Hd) as Hbound.
  destruct Hzone as [_ Hoffset].
  set (T := days_from_civil y m d * msPerDay + hh * 3600000 + mm * 60000
            + ss * 1000).
  assert (HT : TimeClip (T - offset) = Some (T - offset)).
  { unfold TimeClip.
    destruct (Z.leb_spec (Z.abs (T - offset)) 8640000000000000) as [_|Hbig];
      [reflexivity|exfalso].
    unfold T, msPerDay in *. lia. }
  rewrite HT. unfold toLocaleTimeString_hm12. rewrite LocalTime_fixed.
  replace (T - offset + offset) with T by lia.
  assert (Hhour : HourFromTime T = hh).
  { unfold HourFromTime, T, msPerDay. Z.div_mod_to_equations. lia. }
  assert (Hmin : MinFromTime T = mm).
  { unfold MinFromTime, T, msPerDay. Z.div_mod_to_equations. lia. }
  rewrite Hhour, Hmin, padStart_twoDigits by lia. reflexivity.
Qed.

End WithHost.

(** X27.  In a zone at a fixed offset from UTC, the key written for an
    instant in a year of four digits is read back by [getDayName] as the
    day it was written for: the name is [Today] exactly when the instant
    falls on the local day of now, and the weekday of its local day
    otherwise. *)
Theorem day_name_of_a_key (h : Host) (offset t : Z) :
  fixedOffset h offset ->
  inFourDigitYear h t ->
  getDayName h (localDateKey h (Some t))
  = if localDay h t =? localDay h (currentTime h) then str "Today"
    else weekdayName ((localDay h t + 4) mod 7).
Proof. intros Hzone. now apply getDayName_key with (offset := offset). Qed.

Lemma day_name_of_a_key_witness :
  getDayName Examples.morning (localDateKey Examples.morning (Some 1705449600000))
  = if localDay Examples.morning 1705449600000
       =? localDay Examples.morning (currentTime Examples.morning)
    then str "Today"
    else weekdayName ((localDay Examples.morning 1705449600000 + 4) mod 7).
Proof.
  apply (@day_name_of_a_key Examples.morning 0).
  - split; [intros; reflexivity|vm_compute; discriminate].
  - vm_compute. split; discriminate.
Defined.



(** X29.  In a zone at a fixed offset from UTC, the time shown for a
    sample is the time written in its [dt_txt], in 12-hour form: the hour
    [hh] as 12, 1, ..., 11, the minutes with two digits, and [AM] before
    noon, [PM] from noon on.  The offset of the zone plays no part: the
    text, which the provider writes in UTC, is read as local time and
    shown as local time. *)
Theorem shown_time_is_the_written_time (h : Host) (offset : Z)
    (y m d hh mm ss : Z) :
  fixedOffset h offset ->
  0 <= y <= 9999 -> 1 <= m <= 12 -> 1 <= d <= 31 -> realDate y m d ->
  0 <= hh <= 23 -> 0 <= mm <= 59 -> 0 <= ss <= 59 ->
  formatTime h (dtTxt y m d hh mm ss)
  = Z_toString (hour12 hh) ++ str ":" ++ twoDigits mm
      ++ dayPeriodSeparator h ++ (if hh <? 12 then str "AM" else str "PM").
Proof.
  intros Hzone Hy Hm Hd _. now apply formatTime_dtTxt with (offset := offset).
Qed.

Lemma shown_time_is_the_written_time_witness :
  formatTime (Examples.centralHost 1705305600000) (dtTxt 2024 1 15 15 0 0)
  = Z_toString (hour12 15) ++ str ":" ++ twoDigits 0
      ++ dayPeriodSeparator (Examples.centralHost 1705305600000)
      ++ (if 15 <? 12 then str "AM" else str "PM").
Proof.
  apply (@shown_time_is_the_written_time
           (Examples.centralHost 1705305600000) (-21600000));
    try lia.
  - split; [intros; reflexivity|vm_compute; discriminate].
  - reflexivity.
Defined.

End DateFacts.

(* ===================================================================== *)
(** * The order of the date keys                                          *)
(* ===================================================================== *)

Module KeyOrder.

Import Calendar CalendarFacts DateFacts WeatherService.

(** ** Keys compare as their dates do *)

Lemma compare_digit (a b : Z) (l l' : jsstring) :
  0 <= a <= 9 -> 0 <= b <= 9 ->
  String_compare (Z.to_N (48 + a) :: l) (Z.to_N (48 + b) :: l')
  = match a ?= b with
    | Eq => String_compare l l'
    | c => c
    end.
Proof.
  intros Ha Hb. unfold String_compare. cbn [list_compare].
  rewrite Z2N.inj_compare by lia.
  now rewrite Z.add_compare_mono_l.
Qed.

Lemma compare_twoDigits (n n' : Z) (l l' : jsstring) :
  0 <= n <= 99 -> 0 <= n' <= 99 ->
  String_compare (twoDigits n ++ l) (twoDigits n' ++ l')
  = match n ?= n' with
    | Eq => String_compare l l'
    | c => c
    end.
Proof.
  intros Hn Hn'. unfold twoDigits. cbn [app].
  rewrite compare_digit by (Z.div_mod_to_equations; lia).
  destruct (Z.compare_spec (n / 10) (n' / 10)) as [E|L|G].
  - rewrite compare_digit by (Z.div_mod_to_equations; lia).
    destruct (Z.compare_spec (n mod 10) (n' mod 10)) as [E'|L'|G'];
      destruct (Z.compare_spec n n') as [E2|L2|G2]; try reflexivity;
      exfalso; Z.div_mod_to_equations; lia.
  - destruct (Z.compare_spec n n') as [E2|L2|G2]; try reflexivity;
      exfalso; Z.div_mod_to_equations; lia.
  - destruct (Z.compare_spec n n') as [E2|L2|G2]; try reflexivity;
      exfalso; Z.div_mod_to_equations; lia.
Qed.

Lemma compare_hyphen (l l' : jsstring) :
  String_compare (str "-" ++ l) (str "-" ++ l') = String_compare l l'.
Proof. reflexivity. Qed.

(** The keys of two dates in years of four digits compare as the dates
    do, year first, then month, then day. *)
Lemma compare_keys (y m d y' m' d' : Z) :
  fourDigitYear y -> fourDigitYear y' ->
  1 <= m <= 12 -> 1 <= m' <= 12 -> 1 <= d <= 31 -> 1 <= d' <= 31 ->
  String_ltb
    (twoDigits (y / 100) ++ twoDigits (y mod 100) ++ str "-"
       ++ twoDigits m ++ str "-" ++ twoDigits d)
    (twoDigits (y' / 100) ++ twoDigits (y' mod 100) ++ str "-"
       ++ twoDigits m' ++ str "-" ++ twoDigits d')
  = true
  <-> dateNumber y m d < dateNumber y' m' d'.
Proof.
  unfold fourDigitYear, dateNumber. intros Hy Hy' Hm Hm' Hd Hd'.
  unfold String_ltb.
  rewrite compare_twoDigits by (Z.div_mod_to_equations; lia).
  rewrite compare_twoDigits by (Z.div_mod_to_equations; lia).
  rewrite compare_hyphen, compare_twoDigits by lia.
  rewrite compare_hyphen.
  rewrite <- (app_nil_r (twoDigits d)), <- (app_nil_r (twoDigits d')).
  rewrite compare_twoDigits by lia.
  change (String_compare [] []) with Eq.
  destruct (Z.compare_spec (y / 100) (y' / 100));
    [destruct (Z.compare_spec (y mod 100) (y' mod 100));
       [destruct (Z.compare_spec m m');
          [destruct (Z.compare_spec d d')| |]| |]| |];
    (split; [intros; try discriminate|intros; try reflexivity; exfalso]);
    Z.div_mod_to_equations; lia.
Qed.

(** ** Dates follow days *)

(** The month of a day, counted from the year 0, and the day of that
    month, through the parts of [civil_from_days]. *)
Lemma civil_month_day (z : Z) :
  let era := (z + 719468) / 146097 in
  let doe := z + 719468 - era * 146097 in
  let yoe := yearOfEra doe in
  let doy := doe - yearStart yoe in
  let mp := (5 * doy + 2) / 153 in
  let '(y, m, d) := civil_from_days z in
  12 * y + m = 12 * (yoe + era * 400) + mp + 3
  /\ d = doy - (153 * mp + 2) / 5 + 1.
Proof.
  rewrite civil_from_days_eq. cbv zeta.
  set (mp := (5 * _ + 2) / 153).
  destruct (Z.ltb_spec mp 10).
  - destruct (Z.leb_spec (mp + 3) 2); split; try reflexivity; try lia.
    pose proof (civil_parts z) as H'. cbv zeta in H'. fold mp in H'. lia.
  - destruct (Z.leb_spec (mp - 9) 2); split; try reflexivity; try lia.
    pose proof (civil_parts z) as H'. cbv zeta in H'. fold mp in H'. lia.
Qed.

(** A later day has a later date. *)
Lemma civil_from_days_increasing (a b : Z) :
  a < b ->
  (let '(y, m, d) := civil_from_days a in dateNumber y m d)
  < (let '(y, m, d) := civil_from_days b in dateNumber y m d).
Proof.
  intros Hab.
  pose proof (civil_month_day a) as Ha. pose proof (civil_month_day b) as Hb.
  pose proof (civil_parts a) as Pa. pose proof (civil_parts b) as Pb.
  pose proof (civil_from_days_fields a) as Fa.
  pose proof (civil_from_days_fields b) as Fb.
  cbv zeta in *.
  set (eraA := (a + 719468) / 146097) in *.
  set (eraB := (b + 719468) / 146097) in *.
  set (doeA := a + 719468 - eraA * 146097) in *.
  set (doeB := b + 719468 - eraB * 146097) in *.
  assert (HdoeA : 0 <= doeA <= 146096).
  { unfold doeA, eraA. pose proof (Z.mod_pos_bound (a + 719468) 146097).
    pose proof (Z.div_mod (a + 719468) 146097). lia. }
  assert (HdoeB : 0 <= doeB <= 146096).
  { unfold doeB, eraB. pose proof (Z.mod_pos_bound (b + 719468) 146097).
    pose proof (Z.div_mod (b + 719468) 146097). lia. }
  assert (Hera : eraA <= eraB) by (apply Z.div_le_mono; lia).
  (* the year of the era does not decrease within an era *)
  assert (Hyoe : eraA = eraB -> yearOfEra doeA <= yearOfEra doeB).
  { intros E. assert (doeA < doeB) by (unfold doeA, doeB; rewrite E; lia).
    destruct (Z.eq_dec doeB 146096) as [E'|].
    - rewrite E'. change (yearOfEra 146096) with 399. lia.
    - apply yearOfEra_mono; lia. }
  set (yoeA := yearOfEra doeA) in *. set (yoeB := yearOfEra doeB) in *.
  set (doyA := doeA - yearStart yoeA) in *.
  set (doyB := doeB - yearStart yoeB) in *.
  assert (Hdoy : eraA = eraB -> yoeA = yoeB -> doyA < doyB).
  { intros E E'. unfold doyA, doyB, doeA, doeB. rewrite E, E'. lia. }
  set (mpA := (5 * doyA + 2) / 153) in *.
  set (mpB := (5 * doyB + 2) / 153) in *.
  destruct (civil_from_days a) as [[y m] d].
  destruct (civil_from_days b) as [[y' m'] d'].
  destruct Ha as [Hma Hda]. destruct Hb as [Hmb Hdb].
  destruct Fa as (Hm & Hd & _). destruct Fb as (Hm' & Hd' & _).
  destruct Pa as (HyoeA & HdoyA & HmpA & _).
  destruct Pb as (HyoeB & HdoyB & HmpB & _).
  unfold dateNumber.
  assert (Hmonths : 12 * y + m < 12 * y' + m'
                    \/ (12 * y + m = 12 * y' + m' /\ d < d')).
  { destruct (Z.eq_dec eraA eraB) as [E|Hne]; [|left; lia].
    specialize (Hyoe E).
    destruct (Z.eq_dec yoeA yoeB) as [E'|Hne']; [|left; lia].
    specialize (Hdoy E E').
    assert (mpA <= mpB) by (unfold mpA, mpB; apply Z.div_le_mono; lia).
    destruct (Z.eq_dec mpA mpB) as [E2|]; [right|left; lia].
    split; [lia|]. rewrite Hda, Hdb, E2. lia. }
  destruct Hmonths as [H|[H H']]; lia.
Qed.

Section WithHost.

Variable h : Host.
Variable offset : Z.
Hypothesis Hzone : fixedOffset h offset.

Lemma keys_order (t u : Z) :
  inFourDigitYear h t -> inFourDigitYear h u ->
  String_ltb (localDateKey h (Some t)) (localDateKey h (Some u)) = true
  <-> localDay h t < localDay h u.
Proof.
  intros Ht Hu.
  destruct (civil_from_days (localDay h t)) as [[y m] d] eqn:Et.
  destruct (civil_from_days (localDay h u)) as [[y' m'] d'] eqn:Eu.
  assert (Hy : fourDigitYear y).
  { unfold inFourDigitYear, YearFromTime in Ht. unfold localDay in Et.
    now rewrite Et in Ht. }
  assert (Hy' : fourDigitYear y').
  { unfold inFourDigitYear, YearFromTime in Hu. unfold localDay in Eu.
    now rewrite Eu in Hu. }
  pose proof (civil_from_days_fields (localDay h t)) as Ft.
  pose proof (civil_from_days_fields (localDay h u)) as Fu.
  rewrite Et in Ft. rewrite Eu in Fu.
  destruct Ft as (Hm & Hd & _). destruct Fu as (Hm' & Hd' & _).
  rewrite (@localDateKey_digits h t y m d Et Hy),
    (@localDateKey_digits h u y' m' d' Eu Hy').
  rewrite compare_keys by assumption.
  pose proof (@civil_from_days_increasing (localDay h t) (localDay h u)) as Hlt.
  pose proof (@civil_from_days_increasing (localDay h u) (localDay h t)) as Hgt.
  rewrite Et, Eu in Hlt, Hgt.
  split; [|exact Hlt].
  intros H. destruct (Z.lt_trichotomy (localDay h t) (localDay h u))
    as [L|[E|G]]; [exact L| |].
  - rewrite E, Eu in Et. injection Et as <- <- <-. lia.
  - specialize (Hgt G). lia.
Qed.

End WithHost.

(** X30.  In a zone at a fixed offset from UTC, the keys of two
    instants in years of four digits compare as strings the way their
    local days compare as days, and are equal exactly when the days are:
    the order in which [sort] puts the keys, and in which the first key
    is compared with today's, is the order of the calendar. *)
Theorem date_keys_order_as_days (h : Host) (offset t u : Z) :
  fixedOffset h offset ->
  inFourDigitYear h t -> inFourDigitYear h u ->
  (Notions.String_lt (localDateKey h (Some t)) (localDateKey h (Some u))
   <-> localDay h t < localDay h u)
  /\ (localDateKey h (Some t) = localDateKey h (Some u)
      <-> localDay h t = localDay h u).
Proof.
  intros Hzone Ht Hu. split.
  - now apply keys_order.
  - now apply localDateKey_same_day with (offset := offset).
Qed.

Lemma date_keys_order_as_days_witness :
  (Notions.String_lt (localDateKey Examples.morning (Some 1705305600000))
                     (localDateKey Examples.morning (Some 1705449600000))
   <-> localDay Examples.morning 1705305600000
       < localDay Examples.morning 1705449600000)
  /\ (localDateKey Examples.morning (Some 1705305600000)
      = localDateKey Examples.morning (Some 1705449600000)
      <-> localDay Examples.morning 1705305600000
          = localDay Examples.morning 1705449600000).
Proof.
  apply (@date_keys_order_as_days Examples.morning 0).
  - split; [intros; reflexivity|vm_compute; discriminate].
  - vm_compute. split; discriminate.
  - vm_compute. split; discriminate.
Defined.

End KeyOrder.
